(** * infrared-zenith: the paper ingestion and enrichment pipeline

    A shallow embedding of [src/lib/arxiv.ts] (search client and identifier
    clean-up), of [analyzePdfBuffer] in [src/lib/analyzer.ts] (the PDF
    analyzer) and of the server actions (the ['use server'] module that
    follows it in the same source file and that the pages import as
    [@/app/actions]: save, regenerate, read and topic operations over the
    Prisma store), followed by the properties the specification states
    about them.  The clustering of search results, the actions that only
    talk to the model and the key loading of [list-models.ts] are
    embedded too, and a second part states what else the code
    guarantees. *)

From Stdlib Require Import String Ascii NArith ZArith List Lia Bool.
From stdpp Require Import base option list gmap pretty.

Set Default Proof Using "Type".
Set Warnings "-register-all".
Open Scope N_scope.

(** ** JavaScript strings

    A JavaScript string is a sequence of UTF-16 code units.  The sources
    use prefix regular expressions, [trim], [includes], [split] and the
    JSON built-ins on them, all of which are defined on code units. *)

Module Js.

Definition char16 : Type := N.
Definition jsstring : Type := list N.

(** Code units of an ASCII literal of the source text. *)
Definition str (s : string) : jsstring :=
  List.map N_of_ascii (list_ascii_of_string s).

(** [s.startsWith(p)], returning what follows the prefix. *)
Fixpoint stripPrefix (p s : jsstring) : option jsstring :=
  match p, s with
  | [], _ => Some s
  | a :: p', b :: s' => if N.eqb a b then stripPrefix p' s' else None
  | _ :: _, [] => None
  end.

(** [s.replace(/^p/, r)] for a literal pattern [p] anchored at the start. *)
Definition replaceStart (p r s : jsstring) : jsstring :=
  match stripPrefix p s with
  | Some rest => r ++ rest
  | None => s
  end.

(** The class [\s] of regular expressions, which is also what [trim]
    removes: WhiteSpace and LineTerminator code units. *)
Definition isWhiteSpace (c : char16) : bool :=
  (9 <=? c) && (c <=? 13)
  || (c =? 32) || (c =? 160) || (c =? 5760)
  || (8192 <=? c) && (c <=? 8202)
  || (c =? 8232) || (c =? 8233) || (c =? 8239) || (c =? 8287)
  || (c =? 12288) || (c =? 65279).

Fixpoint trimStart (s : jsstring) : jsstring :=
  match s with
  | c :: s' => if isWhiteSpace c then trimStart s' else s
  | [] => []
  end.

Definition trimEnd (s : jsstring) : jsstring := rev (trimStart (rev s)).

Definition trim (s : jsstring) : jsstring := trimEnd (trimStart s).

(** [s.replace(/\s+/g, ' ')]: every maximal run of white space becomes one
    space. *)
Fixpoint collapseFrom (inRun : bool) (s : jsstring) : jsstring :=
  match s with
  | [] => []
  | c :: s' =>
      if isWhiteSpace c
      then (if inRun then [] else [32]) ++ collapseFrom true s'
      else c :: collapseFrom false s'
  end.

Definition collapseSpaces (s : jsstring) : jsstring := collapseFrom false s.

(** [s.includes(p)]. *)
Fixpoint includes (p s : jsstring) : bool :=
  match stripPrefix p s with
  | Some _ => true
  | None => match s with [] => false | _ :: s' => includes p s' end
  end.

(** What follows the first occurrence of [p] in [s]. *)
Fixpoint afterFirst (p s : jsstring) : option jsstring :=
  match stripPrefix p s with
  | Some rest => Some rest
  | None => match s with [] => None | _ :: s' => afterFirst p s' end
  end.

(** What precedes the first occurrence of [p] in [s] (all of [s] when there
    is none). *)
Fixpoint beforeFirst (p s : jsstring) : jsstring :=
  match stripPrefix p s with
  | Some _ => []
  | None => match s with [] => [] | c :: s' => c :: beforeFirst p s' end
  end.

(** [s.split(p)[1]] for a non-empty separator: the text between the first
    and the second occurrence of [p]; [undefined] when [p] does not occur. *)
Definition splitSecond (p s : jsstring) : option jsstring :=
  match afterFirst p s with
  | Some rest => Some (beforeFirst p rest)
  | None => None
  end.

(** A JavaScript value used as a condition: the empty string is falsy. *)
Definition truthy (s : jsstring) : bool :=
  match s with [] => false | _ => true end.

(** A nullable or optional string used as a condition. *)
Definition present (o : option jsstring) : bool :=
  match o with Some s => truthy s | None => false end.

(** [o || d] for a nullable string [o]. *)
Definition orElse (o : option jsstring) (d : jsstring) : jsstring :=
  if present o then default d o else d.

(** A nullable string inside a template literal. *)
Definition template (o : option jsstring) : jsstring :=
  match o with Some s => s | None => str "null" end.

End Js.

Import Js.

(** ** The JSON built-ins

    [JSON.stringify] on an array of strings and [JSON.parse] on any text.
    Numbers keep their lexeme: no action of the program computes with
    one. *)

Module Json.

Inductive value : Type :=
| JNull
| JBool (b : bool)
| JNumber (lexeme : jsstring)
| JString (s : jsstring)
| JArray (items : list value)
| JObject (members : list (jsstring * value)).

(** *** Serialization (QuoteJSONString and SerializeJSONArray) *)

Definition hexDigit (d : N) : char16 := if d <? 10 then 48 + d else 87 + d.

Definition unicodeEscape (c : char16) : jsstring :=
  [92; 117; hexDigit (c / 4096 mod 16); hexDigit (c / 256 mod 16);
   hexDigit (c / 16 mod 16); hexDigit (c mod 16)].

Definition isHighSurrogate (c : char16) : bool := (55296 <=? c) && (c <=? 56319).
Definition isLowSurrogate (c : char16) : bool := (56320 <=? c) && (c <=? 57343).

(** One code unit that is not part of a surrogate pair. *)
Definition quoteUnit (c : char16) : jsstring :=
  if c =? 8 then [92; 98]
  else if c =? 9 then [92; 116]
  else if c =? 10 then [92; 110]
  else if c =? 12 then [92; 102]
  else if c =? 13 then [92; 114]
  else if c =? 34 then [92; 34]
  else if c =? 92 then [92; 92]
  else if (c <? 32) || isHighSurrogate c || isLowSurrogate c then unicodeEscape c
  else [c].

(** A high surrogate followed by a low one is a code point of its own and
    is copied; every other code unit goes through [quoteUnit]. *)
Fixpoint quoteUnits (s : jsstring) : jsstring :=
  match s with
  | [] => []
  | c :: s' =>
      match s' with
      | d :: s'' =>
          if isHighSurrogate c && isLowSurrogate d
          then c :: d :: quoteUnits s''
          else quoteUnit c ++ quoteUnits s'
      | [] => quoteUnit c
      end
  end.

Definition quote (s : jsstring) : jsstring := 34 :: quoteUnits s ++ [34].

Fixpoint joinComma (l : list jsstring) : jsstring :=
  match l with
  | [] => []
  | [x] => x
  | x :: l' => x ++ 44 :: joinComma l'
  end.

(** [JSON.stringify(a)] for [a : string[]]. *)
Definition stringifyStrings (a : list jsstring) : jsstring :=
  91 :: joinComma (List.map quote a) ++ [93].

(** *** Parsing *)

Definition isJsonSpace (c : char16) : bool :=
  (c =? 32) || (c =? 9) || (c =? 10) || (c =? 13).

Fixpoint skipSpaces (s : jsstring) : jsstring :=
  match s with
  | c :: s' => if isJsonSpace c then skipSpaces s' else s
  | [] => []
  end.

Definition hexValue (c : char16) : option N :=
  if (48 <=? c) && (c <=? 57) then Some (c - 48)
  else if (97 <=? c) && (c <=? 102) then Some (c - 87)
  else if (65 <=? c) && (c <=? 70) then Some (c - 55)
  else None.

Definition hex4 (a b c d : char16) : option char16 :=
  match hexValue a, hexValue b, hexValue c, hexValue d with
  | Some x, Some y, Some z, Some w => Some (((x * 16 + y) * 16 + z) * 16 + w)
  | _, _, _, _ => None
  end.

Definition unescape (e : char16) : option char16 :=
  if e =? 34 then Some 34
  else if e =? 92 then Some 92
  else if e =? 47 then Some 47
  else if e =? 98 then Some 8
  else if e =? 102 then Some 12
  else if e =? 110 then Some 10
  else if e =? 114 then Some 13
  else if e =? 116 then Some 9
  else None.

(** One more code unit in front of what the rest of a literal gives. *)
Definition consChar (c : char16) (r : option (jsstring * jsstring))
    : option (jsstring * jsstring) :=
  match r with
  | Some (x, rest) => Some (c :: x, rest)
  | None => None
  end.

(** The characters of a string literal, after its opening quote, up to and
    including the closing quote. *)
Fixpoint parseChars (s : jsstring) : option (jsstring * jsstring) :=
  match s with
  | [] => None
  | c :: r =>
      if c =? 34 then Some ([], r)
      else if c =? 92 then
        match r with
        | [] => None
        | e :: r1 =>
            if e =? 117 then
              match r1 with
              | h1 :: h2 :: h3 :: h4 :: r2 =>
                  match hex4 h1 h2 h3 h4 with
                  | Some u => consChar u (parseChars r2)
                  | None => None
                  end
              | _ => None
              end
            else
              match unescape e with
              | Some u => consChar u (parseChars r1)
              | None => None
              end
        end
      else if c <? 32 then None
      else consChar c (parseChars r)
  end.

Definition isDigit (c : char16) : bool := (48 <=? c) && (c <=? 57).

Fixpoint spanDigits (s : jsstring) : jsstring * jsstring :=
  match s with
  | c :: s' =>
      if isDigit c then let '(ds, r) := spanDigits s' in (c :: ds, r)
      else ([], s)
  | [] => ([], [])
  end.

(** A number token: an optional minus sign, an integer part without a
    leading zero (or a lone zero), an optional fraction and an optional
    exponent. *)
Definition parseNumber (s : jsstring) : option (jsstring * jsstring) :=
  let '(sign, s1) :=
    match s with
    | c :: r => if c =? 45 then ([c], r) else ([], s)
    | [] => ([], s)
    end in
  match s1 with
  | [] => None
  | c :: r =>
      if negb (isDigit c) then None
      else
        let '(int, s2) :=
          if c =? 48 then ([c], r)
          else let '(ds, r') := spanDigits r in (c :: ds, r') in
        let frac :=
          match s2 with
          | p :: r2 =>
              if p =? 46 then
                match spanDigits r2 with
                | ([], _) => None
                | (ds, r3) => Some (p :: ds, r3)
                end
              else Some ([], s2)
          | [] => Some ([], s2)
          end in
        match frac with
        | None => None
        | Some (fr, s3) =>
            let exp :=
              match s3 with
              | e :: r3 =>
                  if (e =? 101) || (e =? 69) then
                    let '(sg, r4) :=
                      match r3 with
                      | g :: r4 => if (g =? 43) || (g =? 45) then ([g], r4) else ([], r3)
                      | [] => ([], r3)
                      end in
                    match spanDigits r4 with
                    | ([], _) => None
                    | (ds, r5) => Some (e :: sg ++ ds, r5)
                    end
                  else Some ([], s3)
              | [] => Some ([], s3)
              end in
            match exp with
            | None => None
            | Some (ex, s4) => Some (sign ++ int ++ fr ++ ex, s4)
            end
        end
  end.

Fixpoint parseValue (fuel : nat) (s : jsstring) : option (value * jsstring) :=
  match fuel with
  | O => None
  | S fuel' =>
      match skipSpaces s with
      | [] => None
      | c :: r =>
          if c =? 34 then
            match parseChars r with
            | Some (x, rest) => Some (JString x, rest)
            | None => None
            end
          else if c =? 91 then
            match skipSpaces r with
            | d :: r' =>
                if d =? 93 then Some (JArray [], r')
                else
                  match parseElements fuel' r with
                  | Some (xs, rest) => Some (JArray xs, rest)
                  | None => None
                  end
            | [] => None
            end
          else if c =? 123 then
            match skipSpaces r with
            | d :: r' =>
                if d =? 125 then Some (JObject [], r')
                else
                  match parseMembers fuel' r with
                  | Some (ms, rest) => Some (JObject ms, rest)
                  | None => None
                  end
            | [] => None
            end
          else
            match stripPrefix (str "true") (c :: r),
                  stripPrefix (str "false") (c :: r),
                  stripPrefix (str "null") (c :: r) with
            | Some rest, _, _ => Some (JBool true, rest)
            | _, Some rest, _ => Some (JBool false, rest)
            | _, _, Some rest => Some (JNull, rest)
            | None, None, None =>
                match parseNumber (c :: r) with
                | Some (lexeme, rest) => Some (JNumber lexeme, rest)
                | None => None
                end
            end
      end
  end
with parseElements (fuel : nat) (s : jsstring) : option (list value * jsstring) :=
  match fuel with
  | O => None
  | S fuel' =>
      match parseValue fuel' s with
      | None => None
      | Some (v, r) =>
          match skipSpaces r with
          | c :: r' =>
              if c =? 44 then
                match parseElements fuel' r' with
                | Some (vs, rest) => Some (v :: vs, rest)
                | None => None
                end
              else if c =? 93 then Some ([v], r')
              else None
          | [] => None
          end
      end
  end
with parseMembers (fuel : nat) (s : jsstring)
    : option (list (jsstring * value) * jsstring) :=
  match fuel with
  | O => None
  | S fuel' =>
      match skipSpaces s with
      | q :: r0 =>
          if negb (q =? 34) then None
          else
            match parseChars r0 with
            | None => None
            | Some (k, r1) =>
                match skipSpaces r1 with
                | colon :: r2 =>
                    if negb (colon =? 58) then None
                    else
                      match parseValue fuel' r2 with
                      | None => None
                      | Some (v, r3) =>
                          match skipSpaces r3 with
                          | c :: r4 =>
                              if c =? 44 then
                                match parseMembers fuel' r4 with
                                | Some (ms, rest) => Some ((k, v) :: ms, rest)
                                | None => None
                                end
                              else if c =? 125 then Some ([(k, v)], r4)
                              else None
                          | [] => None
                          end
                      end
                | [] => None
                end
            end
      | [] => None
      end
  end.

(** [JSON.parse(text)]; [None] stands for the SyntaxError it throws. *)
Definition parse (text : jsstring) : option value :=
  match parseValue (S (length text)) text with
  | Some (v, rest) =>
      match skipSpaces rest with
      | [] => Some v
      | _ :: _ => None
      end
  | None => None
  end.

End Json.

(** ** Thrown values and settled promises *)

Inductive exn : Type :=
| AxiosError (message : jsstring) (status : option N)
| Error (message : jsstring)
| TypeError (message : jsstring)
| SyntaxError (message : jsstring)
| PrismaError (message : jsstring).

(** [(error as Error).message] *)
Definition message (e : exn) : jsstring :=
  match e with
  | AxiosError m _ | Error m | TypeError m | SyntaxError m | PrismaError m => m
  end.

(** [error.response?.status] *)
Definition responseStatus (e : exn) : option N :=
  match e with
  | AxiosError _ st => st
  | _ => None
  end.

(** What an awaited promise gives: its value, or the exception raised at
    the [await]. *)
Inductive outcome (A : Type) : Type :=
| Resolved (a : A)
| Rejected (e : exn).
Arguments Resolved {A} a.
Arguments Rejected {A} e.

(** ** [src/lib/arxiv.ts] *)

Module Arxiv.

Record ArxivPaper : Type := {
  id : jsstring;
  title : jsstring;
  summary : jsstring;
  authors : list jsstring;
  published : jsstring;
  link : jsstring;
  pdfLink : option jsstring;
  institution : option jsstring
}.

Definition ARXIV_API_URL : jsstring := str "http://export.arxiv.org/api/query".

Inductive SortBy : Type := relevance | lastUpdatedDate | submittedDate.
Inductive SortOrder : Type := ascending | descending.

Record Params : Type := {
  search_query : jsstring;
  start : N;
  max_results : N;
  sortBy : SortBy;
  sortOrder : SortOrder
}.

(** The feed document as [xml2js] hands it over: [entry.id[0]],
    [entry.title[0]], [entry.summary[0]], the [name[0]] of every
    [entry.author], [entry.published[0]], and the [$.title] and [$.href]
    attributes of every [entry.link].  A member is [None] where the
    code finds [undefined]: [entry.id], [entry.title], [entry.summary],
    [entry.author], [entry.published] and [entry.link] in an entry that
    lacks the element, [a.name] for an author without a name, [l.$] for a
    link without attributes, and [l.$.title] and [l.$.href] for a link
    without that attribute.  The elements that are there carry text, as
    the interface [ArxivPaper] declares.  A feed without entries has no
    [entry] member. *)
Record Link : Type := { link_title : option jsstring; href : option jsstring }.

Record Entry : Type := {
  entry_id : option jsstring;
  entry_title : option jsstring;
  entry_summary : option jsstring;
  entry_author : option (list (option jsstring));
  entry_published : option jsstring;
  entry_link : option (list (option Link))
}.

(** [response.data] after [parseStringPromise]: [None] when the parser
    rejects the body or the document has no [feed] root, so that reading
    [result.feed.entry] throws. *)
Definition Feed : Type := option (list Entry).

(** What the search client does to the outside, in order. *)
Inductive Event : Type :=
| Get (url : jsstring) (params : Params)
| Warn
| Sleep (ms : N).

(** [axios.get(url, { params })] against the remote endpoint: its answer
    to the first request made, to the second one, and so on. *)
Definition Axios : Type := jsstring -> Params -> nat -> outcome Feed.

Definition next (axios : Axios) : Axios := fun url params n => axios url params (S n).

Definition isRateLimit (e : exn) : bool :=
  match responseStatus e with
  | Some st => st =? 429
  | None => false
  end.

Definition defaultRetries : nat := 3.
Definition defaultBackoff : N := 1000.

(** [retries] counts the retries that are left; the one call of the
    function, in [searchArxiv], leaves both defaults in place. *)
Fixpoint fetchWithRetry (axios : Axios) (url : jsstring) (params : Params)
    (retries : nat) (backoff : N) : outcome Feed * list Event :=
  match axios url params O with
  | Resolved response => (Resolved response, [Get url params])
  | Rejected error =>
      match retries with
      | S retries' =>
          if isRateLimit error then
            let '(r, evs) :=
              fetchWithRetry (next axios) url params retries' (backoff * 2) in
            (r, Get url params :: Warn :: Sleep backoff :: evs)
          else (Rejected error, [Get url params])
      | O => (Rejected error, [Get url params])
      end
  end.

Definition getCleanId (id : jsstring) : jsstring :=
  replaceStart (str "https://arxiv.org/abs/") []
    (replaceStart (str "http://arxiv.org/abs/") [] id).

(** [l.$.title === 'pdf'] *)
Definition isPdf (l : Link) : bool :=
  match link_title l with
  | Some t => bool_decide (t = str "pdf")
  | None => false
  end.

(** [entry.link.find(l => l.$.title === 'pdf')?.$.href]: the inner option
    is the value, which is [undefined] when no link has that title or the
    one found has no [href]; the outer [None] stands for the TypeError of
    reading [title] of [undefined], thrown when the search comes to a
    link without attributes. *)
Fixpoint findPdf (links : list (option Link)) : option (option jsstring) :=
  match links with
  | [] => Some None
  | None :: _ => None
  | Some l :: links' => if isPdf l then Some (href l) else findPdf links'
  end.

(** The callback of [entries.map], its members in the order in which the
    object literal evaluates them.  [None] stands for the TypeError that
    reading a member of [undefined] throws. *)
Definition toPaper (entry : Entry) : option ArxivPaper :=
  id0 ← entry_id entry;
  title0 ← entry_title entry;
  summary0 ← entry_summary entry;
  author ← entry_author entry;
  names ← mapM (fun name => name) author;
  published0 ← entry_published entry;
  links ← entry_link entry;
  pdf ← findPdf links;
  Some {| id := getCleanId id0;
          title := collapseSpaces (trim title0);
          summary := collapseSpaces (trim summary0);
          authors := names;
          published := published0;
          link := id0;
          pdfLink := pdf;
          institution := None |}.

Definition searchArxiv (axios : Axios) (query : jsstring)
    (maxResults start : N) (sortBy : SortBy) (sortOrder : SortOrder)
    : list ArxivPaper :=
  match fst (fetchWithRetry axios ARXIV_API_URL
               {| search_query := query; start := start;
                  max_results := maxResults; sortBy := sortBy;
                  sortOrder := sortOrder |}
               defaultRetries defaultBackoff) with
  | Resolved (Some entries) =>
      match mapM toPaper entries with
      | Some papers => papers
      | None => []
      end
  | Resolved None => []
  | Rejected _ => []
  end.

End Arxiv.

(** ** [src/lib/clustering.ts]

    The grouping of search results by keywords of the title, which the
    dashboard shows next to the results.  It follows the search client
    in the source file. *)

Module Clustering.

(** The case mapping of [String.prototype.toLowerCase], which is the one
    of the Unicode character database. *)
Class StringBuiltins : Type := {
  toLowerCase : jsstring -> jsstring
}.

Record Cluster : Type := {
  id : jsstring;
  name : jsstring;
  papers : list Arxiv.ArxivPaper
}.

(** The object [clusters]: its own properties in the order of their
    creation, which is the order of [Object.entries] for keys like
    these. *)
Definition Clusters : Type := list (jsstring * list Arxiv.ArxivPaper).

(** [if (!clusters[name]) clusters[name] = []; clusters[name].push(paper)] *)
Fixpoint push (name : jsstring) (paper : Arxiv.ArxivPaper) (clusters : Clusters)
    : Clusters :=
  match clusters with
  | [] => [(name, [paper])]
  | (n, ps) :: rest =>
      if bool_decide (n = name) then (n, ps ++ [paper]) :: rest
      else (n, ps) :: push name paper rest
  end.

(** [`cluster-${index}`] *)
Definition clusterId (index : nat) : jsstring := str "cluster-" ++ str (pretty index).

Section WithStrings.

Context `{StringBuiltins}.

(** The body of the [forEach]: [state] is [clusters] with the flag
    [assigned]. *)
Definition visit (clusters : Clusters) (paper : Arxiv.ArxivPaper) : Clusters :=
  let title := toLowerCase (Arxiv.title paper) in
  let state := (clusters, false) in
  let state :=
    if includes (str "llm") title || includes (str "language model") title
       || includes (str "gpt") title
    then (push (str "LLMs") paper (fst state), true) else state in
  let state :=
    if includes (str "vision") title || includes (str "image") title
       || includes (str "diffusion") title
    then (push (str "Computer Vision") paper (fst state), true) else state in
  let state :=
    if includes (str "reinforcement") title || includes (str "rl") title
    then (push (str "Reinforcement Learning") paper (fst state), true) else state in
  if negb (snd state) then push (str "Other") paper (fst state) else fst state.

Definition groupPapers (papers : list Arxiv.ArxivPaper) : list Cluster :=
  imap (fun index entry =>
          {| id := clusterId index; name := fst entry; papers := snd entry |})
    (fold_left visit papers []).

End WithStrings.

End Clustering.

(** ** [src/lib/analyzer.ts] *)

Module Analyzer.

Definition Buffer : Type := list Byte.byte.

(** What the analyzer reads from its surroundings: the environment variable
    and the model behind [generateContent] with the fixed prompt, whose
    answer is [response.text()] or an exception of the client library. *)
Record Model : Type := {
  GEMINI_API_KEY : option jsstring;
  generateContent : Buffer -> outcome jsstring
}.

Definition allowedTopics : list jsstring :=
  [str "Distributed Machine Learning"; str "Model Performance Optimization";
   str "Personalized Advertising"; str "Recommendation System";
   str "Generative Recommendation"; str "Reinforcement Learning";
   str "Agent"; str "Large Language Models"; str "Model Architecture"].

Definition isSome {A} (o : option A) : bool :=
  match o with Some _ => true | None => false end.

(** [text.replace(/```json|```/g, '')]: [skip] code units of a match are
    still to be dropped. *)
Fixpoint removeFences (skip : nat) (s : jsstring) : jsstring :=
  match s with
  | [] => []
  | c :: s' =>
      match skip with
      | S k => removeFences k s'
      | O =>
          if isSome (stripPrefix (str "```json") s) then removeFences 6 s'
          else if isSome (stripPrefix (str "```") s) then removeFences 2 s'
          else c :: removeFences 0 s'
      end
  end.

Definition jsonString (text : jsstring) : jsstring := trim (removeFences 0 text).

(** The object literal of the fallback branch. *)
Definition fallback (text : jsstring) : Json.value :=
  Json.JObject [(str "summary", Json.JString text);
                (str "institution", Json.JString []);
                (str "topics", Json.JArray [])].

Definition analyzePdfBuffer (m : Model) (buffer : Buffer) : outcome Json.value :=
  if negb (present (GEMINI_API_KEY m)) then
    Rejected (Error (str "GEMINI_API_KEY not found in environment variables."))
  else
    match generateContent m buffer with
    | Rejected error =>
        Rejected (Error (str "Failed to analyze PDF. " ++ message error))
    | Resolved text =>
        match Json.parse (jsonString text) with
        | Some v => Resolved v
        | None => Resolved (fallback text)
        end
    end.

End Analyzer.

(** ** The Prisma store

    Tables are lists of rows in insertion order.  The operations are the
    ones the actions call on the Prisma client; each one is a single
    statement (or a single transaction for a nested write), and runs on the
    store between two [await]s of the calling action. *)

Module Store.

(** The two built-ins of [Date] the actions go through: the time value of
    [new Date(s)], [None] for an invalid date, and [toISOString]. *)
Class DateBuiltins : Type := {
  Date_parse : jsstring -> option Z;
  Date_toISOString : Z -> jsstring
}.

(** Modelled from the spec: the Prisma schema is not among the sources
    (the one migration there predates the users, the links, the topics
    and the [institution] column).  The rows have the columns the actions
    read and write, nullable where an action writes [null] or reads with a
    default, and the unique keys are the ones the [where] clauses of the
    actions name: [Paper.id], [User.email], [Topic.name], [Topic.id] and
    the pair [userId_paperId] of [SavedPaper].  The timestamps the store
    keeps by itself ([createdAt], [updatedAt]) are left out; [savedAt] is
    the position of a link in its table. *)
Record Paper : Type := {
  id : jsstring;
  title : jsstring;
  authors : jsstring;
  abstract : option jsstring;
  summary : option jsstring;
  institution : option jsstring;
  url : option jsstring;
  filePath : option jsstring;
  publishedDate : option Z
}.

(** Generated keys ([uuid()] defaults) are drawn from a counter. *)
Record User : Type := { user_id : N; email : jsstring; name : jsstring }.

Record SavedPaper : Type := { userId : N; paperId : jsstring }.

Record Topic : Type := { topic_id : N; topic_name : jsstring }.

Record DB : Type := {
  papers : list Paper;
  users : list User;
  savedPapers : list SavedPaper;
  topics : list Topic;
  paperTopics : gset (jsstring * N);
  nextId : N
}.

Definition empty : DB := {|
  papers := []; users := []; savedPapers := []; topics := [];
  paperTopics := ∅; nextId := 0
|}.

(** *** Statements: store passing with exceptions *)

Definition M (A : Type) : Type := DB -> outcome A * DB.

Definition throw {A} (e : exn) : M A := fun db => (Rejected e, db).

#[global] Instance M_ret : MRet M := fun A a db => (Resolved a, db).

#[global] Instance M_bind : MBind M := fun A B k m db =>
  match m db with
  | (Resolved a, db') => k a db'
  | (Rejected e, db') => (Rejected e, db')
  end.

(** [try { m } catch (error) { h error }] *)
Definition tryCatch {A} (m : M A) (h : exn -> M A) : M A :=
  fun db =>
    match m db with
    | (Resolved a, db') => (Resolved a, db')
    | (Rejected e, db') => h e db'
    end.

(** An awaited promise that does not touch the store. *)
Definition await {A} (o : outcome A) : M A := fun db => (o, db).

(** A statement that cannot fail. *)
Definition statement {A} (f : DB -> A * DB) : M A :=
  fun db => let '(a, db') := f db in (Resolved a, db').

(** A read. *)
Definition query {A} (f : DB -> A) : M A := fun db => (Resolved (f db), db).

(** *** Tables *)

Definition set_papers (x : list Paper) (db : DB) : DB :=
  {| papers := x; users := users db; savedPapers := savedPapers db;
     topics := topics db; paperTopics := paperTopics db; nextId := nextId db |}.

Definition set_users (x : list User) (n : N) (db : DB) : DB :=
  {| papers := papers db; users := x; savedPapers := savedPapers db;
     topics := topics db; paperTopics := paperTopics db; nextId := n |}.

Definition set_savedPapers (x : list SavedPaper) (db : DB) : DB :=
  {| papers := papers db; users := users db; savedPapers := x;
     topics := topics db; paperTopics := paperTopics db; nextId := nextId db |}.

Definition set_topics (x : list Topic) (n : N) (db : DB) : DB :=
  {| papers := papers db; users := users db; savedPapers := savedPapers db;
     topics := x; paperTopics := paperTopics db; nextId := n |}.

Definition set_paperTopics (x : gset (jsstring * N)) (db : DB) : DB :=
  {| papers := papers db; users := users db; savedPapers := savedPapers db;
     topics := topics db; paperTopics := x; nextId := nextId db |}.

(** [UPDATE ... WHERE]: the rows selected by [sel] are rewritten in place. *)
Definition updateWhere {A} (sel : A -> bool) (f : A -> A) (rows : list A) : list A :=
  List.map (fun r => if sel r then f r else r) rows.

Definition hasId (k : jsstring) (r : Paper) : bool := bool_decide (id r = k).
Definition hasEmail (e : jsstring) (u : User) : bool := bool_decide (email u = e).
Definition hasName (n : jsstring) (t : Topic) : bool := bool_decide (topic_name t = n).
Definition hasTopicId (i : N) (t : Topic) : bool := bool_decide (topic_id t = i).

(** The compound key [userId_paperId] of [SavedPaper]. *)
Definition linkKey (s : SavedPaper) : N * jsstring := (userId s, paperId s).
Definition isLink (u : N) (k : jsstring) (s : SavedPaper) : bool :=
  bool_decide (linkKey s = (u, k)).

Definition recordNotFound : exn :=
  PrismaError (str "An operation failed because it depends on one or more records that were required but not found.").

(** A nested write runs in a transaction: when it fails nothing of it
    stays. *)
Definition transaction {A} (m : M A) : M A :=
  fun db =>
    match m db with
    | (Resolved a, db') => (Resolved a, db')
    | (Rejected e, _) => (Rejected e, db)
    end.

(** **** [prisma.paper] *)

Definition paper_findUnique (k : jsstring) (db : DB) : option Paper :=
  List.find (hasId k) (papers db).

(** [prisma.paper.upsert({ where: { id: k }, update, create })] *)
Definition paper_upsert (k : jsstring) (update : Paper -> Paper) (create : Paper)
    : M unit :=
  statement (fun db =>
    match paper_findUnique k db with
    | Some _ => (tt, set_papers (updateWhere (hasId k) update (papers db)) db)
    | None => (tt, set_papers (papers db ++ [create]) db)
    end).

(** **** [prisma.topic] and the paper-topic relation *)

Definition topic_findByName (n : jsstring) (db : DB) : option Topic :=
  List.find (hasName n) (topics db).

(** [prisma.topic.upsert({ where: { name }, update: {}, create: { name } })] *)
Definition topic_upsert (n : jsstring) : M Topic :=
  statement (fun db =>
    match topic_findByName n db with
    | Some t => (t, db)
    | None =>
        let t := {| topic_id := nextId db; topic_name := n |} in
        (t, set_topics (topics db ++ [t]) (nextId db + 1) db)
    end).

(** [topics: { connect: { id } }] on paper [k] *)
Definition connect (k : jsstring) (i : N) : M unit :=
  fun db =>
    match List.find (hasTopicId i) (topics db) with
    | Some _ => (Resolved tt, set_paperTopics (paperTopics db ∪ {[ (k, i) ]}) db)
    | None => (Rejected recordNotFound, db)
    end.

(** [topics: { disconnect: { id } }] on paper [k] *)
Definition disconnect (k : jsstring) (i : N) : M unit :=
  statement (fun db => (tt, set_paperTopics (paperTopics db ∖ {[ (k, i) ]}) db)).

(** One member of [topics: { connectOrCreate: [...] }] on paper [k], with
    [where: { name: n }] and [create: { name: n }]. *)
Definition connectOrCreate (k : jsstring) (n : jsstring) : M unit :=
  t ← topic_upsert n; connect k (topic_id t).

Fixpoint connectOrCreateAll (k : jsstring) (names : list jsstring) : M unit :=
  match names with
  | [] => mret tt
  | n :: names' => connectOrCreate k n;; connectOrCreateAll k names'
  end.

(** [prisma.paper.update({ where: { id: k }, data })] where [data] sets
    scalar columns through [f] and has the nested write [nested]. *)
Definition paper_update (k : jsstring) (f : Paper -> Paper) (nested : M unit)
    : M unit :=
  transaction (fun db =>
    match paper_findUnique k db with
    | None => (Rejected recordNotFound, db)
    | Some _ => nested (set_papers (updateWhere (hasId k) f (papers db)) db)
    end).

(** [include: { paper: ... }] on a row of [SavedPaper], whose relation to
    [Paper] is required. *)
Definition inconsistentResult : exn :=
  PrismaError (str "Inconsistent query result: Field paper is required to return data, got `null` instead.").

Definition includePaper (entry : SavedPaper) : M Paper :=
  fun db =>
    match paper_findUnique (paperId entry) db with
    | Some p => (Resolved p, db)
    | None => (Rejected inconsistentResult, db)
    end.

Fixpoint includePapers (entries : list SavedPaper) : M (list Paper) :=
  match entries with
  | [] => mret []
  | entry :: entries' =>
      p ← includePaper entry;
      ps ← includePapers entries';
      mret (p :: ps)
  end.

(** [include: { topics: true }] *)
Definition topicsOf (k : jsstring) (db : DB) : list Topic :=
  List.filter (fun t => bool_decide ((k, topic_id t) ∈ paperTopics db)) (topics db).

(** **** [prisma.user] *)

(** [update: { name }] *)
Definition renamed (n : jsstring) (u : User) : User :=
  {| user_id := user_id u; email := email u; name := n |}.

(** [prisma.user.upsert({ where: { email }, update: { name },
    create: { email, name } })] *)
Definition user_upsert (e n : jsstring) : M User :=
  statement (fun db =>
    match List.find (hasEmail e) (users db) with
    | Some u =>
        (renamed n u,
         set_users (updateWhere (hasEmail e) (renamed n) (users db)) (nextId db) db)
    | None =>
        let u := {| user_id := nextId db; email := e; name := n |} in
        (u, set_users (users db ++ [u]) (nextId db + 1) db)
    end).

(** **** [prisma.savedPaper] *)

Definition savedPaper_findUnique (u : N) (k : jsstring) (db : DB) : option SavedPaper :=
  List.find (isLink u k) (savedPapers db).

(** [prisma.savedPaper.upsert] with [update: {}] *)
Definition savedPaper_upsert (u : N) (k : jsstring) : M unit :=
  statement (fun db =>
    match savedPaper_findUnique u k db with
    | Some _ => (tt, db)
    | None =>
        (tt, set_savedPapers
               (savedPapers db ++ [{| userId := u; paperId := k |}]) db)
    end).

(** [prisma.savedPaper.delete] *)
Definition savedPaper_delete (u : N) (k : jsstring) : M unit :=
  fun db =>
    match savedPaper_findUnique u k db with
    | Some _ =>
        (Resolved tt,
         set_savedPapers (List.filter (fun s => negb (isLink u k s)) (savedPapers db)) db)
    | None => (Rejected recordNotFound, db)
    end.

(** [prisma.savedPaper.findMany({ where: { userId },
    orderBy: { savedAt: 'desc' } })]: [savedAt] is the time of insertion,
    so the latest row comes first. *)
Definition savedPaper_findMany (u : N) (db : DB) : list SavedPaper :=
  rev (List.filter (fun s => bool_decide (userId s = u)) (savedPapers db)).

End Store.

(** ** The server actions

    The actions of the ['use server'] module that reach the catalog.
    [analyzePaperFromUrlAction] and [suggestTopicsAction], which only
    talk to the model, follow in [TextActions]; [analyzePaperAction]
    calls [summarizeText], which is not among the sources. *)

Module Actions.

Import Store.

(** What [currentUser()] of the authentication provider returns. *)
Record ClerkUser : Type := {
  emailAddresses : list jsstring;
  firstName : option jsstring;
  lastName : option jsstring;
  username : option jsstring
}.

(** Everything an action awaits outside the store: the session, the search
    endpoint, the host of the PDF files ([axios.get] of a URL with a
    [User-Agent] header and [responseType: 'arraybuffer']) and the model. *)
Record World : Type := {
  currentUser : option ClerkUser;
  axios : Arxiv.Axios;
  download : jsstring -> jsstring -> outcome Analyzer.Buffer;
  model : Analyzer.Model
}.

(** The object the read actions return, with the members the pages use.
    [authors] is whatever [JSON.parse] gave; an absent member is [None]. *)
Record PaperView : Type := {
  v_id : jsstring;
  v_title : jsstring;
  v_authors : Json.value;
  v_abstract : option jsstring;
  v_summary : option jsstring;
  v_institution : option jsstring;
  v_published : jsstring;
  v_link : jsstring;
  v_pdfLink : option jsstring;
  v_topics : option (list Topic);
  v_isSaved : option bool
}.

Record RegenerateResult : Type := { success : bool; error : option jsstring }.

(** A property read from a value: [undefined] or a JSON value. *)
Inductive jsval : Type :=
| Undefined
| Val (v : Json.value).

Definition lookupLast (k : jsstring) (ms : list (jsstring * Json.value)) : jsval :=
  match List.find (fun m => bool_decide (fst m = k)) (rev ms) with
  | Some m => Val (snd m)
  | None => Undefined
  end.

(** [result.k] for one of the keys [summary], [institution], [topics]. *)
Definition member (result : Json.value) (k : jsstring) : outcome jsval :=
  match result with
  | Json.JNull =>
      Rejected (TypeError (str "Cannot read properties of null (reading '" ++ k ++ str "')"))
  | Json.JObject ms => Resolved (lookupLast k ms)
  | _ => Resolved Undefined
  end.

(** [result.topics?.map(f) || []], before [f] is applied. *)
Definition topicItems (topics : jsval) : outcome (list Json.value) :=
  match topics with
  | Undefined | Val Json.JNull => Resolved []
  | Val (Json.JArray items) => Resolved items
  | Val _ => Rejected (TypeError (str "result.topics?.map is not a function"))
  end.

Definition validationError : exn :=
  PrismaError (str "Invalid `prisma.paper.update()` invocation").

(** The client checks [data] against the schema before it runs anything: a
    nullable string column takes a string, [null], or [undefined], which
    leaves the column as it is. *)
Definition stringColumn (x : jsval) : outcome (option (option jsstring)) :=
  match x with
  | Undefined => Resolved None
  | Val Json.JNull => Resolved (Some None)
  | Val (Json.JString s) => Resolved (Some (Some s))
  | Val _ => Rejected validationError
  end.

(** [where: { name: topic }] and [create: { name: topic }] take a string. *)
Fixpoint topicNames (items : list Json.value) : outcome (list jsstring) :=
  match items with
  | [] => Resolved []
  | Json.JString s :: items' =>
      match topicNames items' with
      | Resolved names => Resolved (s :: names)
      | Rejected e => Rejected e
      end
  | _ :: _ => Rejected validationError
  end.

Definition setColumn (x : option (option jsstring)) (old : option jsstring)
    : option jsstring :=
  match x with Some new => new | None => old end.

(** The scalar members [summary] and [institution] of the [data] of that
    update. *)
Definition analysed (s i : option (option jsstring)) (r : Paper) : Paper :=
  {| id := id r; title := title r; authors := authors r;
     abstract := abstract r;
     summary := setColumn s (summary r);
     institution := setColumn i (institution r);
     url := url r; filePath := filePath r;
     publishedDate := publishedDate r |}.

(** The [update] and [create] members of the upsert of [savePaperAction],
    with [date] for [new Date(paper.published)].  A member that is
    [undefined] leaves the column as it is in [update] and [null] in
    [create]. *)
Definition refreshed (paper : Arxiv.ArxivPaper) (date : Z) (r : Paper) : Paper :=
  {| id := id r;
     title := Arxiv.title paper;
     authors := Json.stringifyStrings (Arxiv.authors paper);
     abstract := Some (Arxiv.summary paper);
     summary := summary r;
     institution := institution r;
     url := Some (Arxiv.link paper);
     publishedDate := Some date;
     filePath :=
       match Arxiv.pdfLink paper with
       | Some l => Some l
       | None => filePath r
       end |}.

Definition created (paper : Arxiv.ArxivPaper) (date : Z) : Paper :=
  {| id := Arxiv.id paper;
     title := Arxiv.title paper;
     authors := Json.stringifyStrings (Arxiv.authors paper);
     abstract := Some (Arxiv.summary paper);
     summary := None;
     institution := None;
     url := Some (Arxiv.link paper);
     publishedDate := Some date;
     filePath := Arxiv.pdfLink paper |}.

(** The [prisma.paper.update] that stores an analysis: the same statement
    in the background unit of [savePaperAction] and in
    [regenerateSummaryAction]. *)
Definition storeAnalysis (paperId : jsstring) (result : Json.value) : M unit :=
  s ← await (member result (str "summary"));
  i ← await (member result (str "institution"));
  t ← await (member result (str "topics"));
  items ← await (topicItems t);
  s' ← await (stringColumn s);
  i' ← await (stringColumn i);
  names ← await (topicNames items);
  paper_update paperId (analysed s' i') (connectOrCreateAll paperId names).

Definition secureUrl (url : jsstring) : jsstring :=
  replaceStart (str "http://") (str "https://") url.

Definition shortUserAgent : jsstring :=
  str "Mozilla/5.0 (Macintosh; Intel Mac OS X 10_15_7) AppleWebKit/537.36".

Definition longUserAgent : jsstring :=
  str "Mozilla/5.0 (Macintosh; Intel Mac OS X 10_15_7) AppleWebKit/537.36 (KHTML, like Gecko) Chrome/120.0.0.0 Safari/537.36".

Section WithDate.

Context `{DateBuiltins}.

Definition displayName (u : ClerkUser) : jsstring :=
  let full := trim (template (firstName u) ++ str " " ++ template (lastName u)) in
  if truthy full then full else orElse (username u) (str "User").

Definition getCurrentUser (w : World) : M User :=
  match currentUser w with
  | None => throw (Error (str "Unauthorized: Please sign in to continue."))
  | Some clerkUser =>
      let email := head (emailAddresses clerkUser) in
      if negb (present email) then throw (Error (str "No email found for user."))
      else user_upsert (default [] email) (displayName clerkUser)
  end.

Definition searchPapersAction (w : World) (query : jsstring) (start : N)
    (sortBy : Arxiv.SortBy) : list Arxiv.ArxivPaper :=
  if negb (truthy (trim query)) then []
  else Arxiv.searchArxiv (axios w) query 10 start sortBy Arxiv.descending.

Definition getLatestPapersAction (w : World) (category : jsstring)
    : list Arxiv.ArxivPaper :=
  Arxiv.searchArxiv (axios w) (str "cat:" ++ category) 10 0
    Arxiv.submittedDate Arxiv.descending.

(** [publishedDate?.toISOString() || ''] *)
Definition isoOrEmpty (d : option Z) : jsstring :=
  orElse (Date_toISOString <$> d) [].

Definition unexpectedToken : exn :=
  SyntaxError (str "Unexpected token in JSON").

(** The object returned for a paper of the caller's library. *)
Definition savedView (savedPaper : Paper) (parsed : Json.value)
    (topics : list Topic) : PaperView := {|
  v_id := Store.id savedPaper;
  v_title := title savedPaper;
  v_authors := parsed;
  v_published := isoOrEmpty (publishedDate savedPaper);
  v_link := orElse (url savedPaper) [];
  v_pdfLink := Some (orElse (filePath savedPaper) []);
  v_abstract := Some (orElse (abstract savedPaper) (orElse (summary savedPaper) []));
  v_summary := summary savedPaper;
  v_institution := institution savedPaper;
  v_topics := Some topics;
  v_isSaved := Some true
|}.

(** The object returned for a record of a live search. *)
Definition liveView (paper : Arxiv.ArxivPaper) : PaperView := {|
  v_id := Arxiv.id paper;
  v_title := Arxiv.title paper;
  v_authors := Json.JArray (Json.JString <$> Arxiv.authors paper);
  v_published := Arxiv.published paper;
  v_link := Arxiv.link paper;
  v_pdfLink := Arxiv.pdfLink paper;
  v_abstract := Some (Arxiv.summary paper);
  v_summary := None;
  v_institution := None;
  v_topics := None;
  v_isSaved := Some false
|}.

(** The identifier searched for when the route parameter is still
    URL-encoded. *)
Definition arxivIdOf (id : jsstring) : jsstring :=
  if includes (str "arxiv.org%2Fabs%2F") id
  then default id (splitSecond (str "arxiv.org%2Fabs%2F") id)
  else id.

Definition getPaperByIdAction (w : World) (id : jsstring) : M (option PaperView) :=
  user ← getCurrentUser w;
  savedPaperEntry ← query (savedPaper_findUnique (user_id user) id);
  match savedPaperEntry with
  | Some entry =>
      savedPaper ← includePaper entry;
      topics ← query (topicsOf (Store.id savedPaper));
      match Json.parse (authors savedPaper) with
      | None => throw unexpectedToken
      | Some parsed => mret (Some (savedView savedPaper parsed topics))
      end
  | None =>
      let papers :=
        Arxiv.searchArxiv (axios w) (arxivIdOf id) 1 0
          Arxiv.submittedDate Arxiv.descending in
      mret (liveView <$> head papers)
  end.

Definition invalidDate : exn :=
  PrismaError (str "Invalid `prisma.paper.upsert()` invocation: Provided Date object is invalid. Expected Date.").

(** The call returns once the two upserts are done.  Its value here is the
    detached unit it leaves behind, if any: [Some paper] stands for the
    asynchronous closure over [paper], whose body is [enrichment]. *)
Definition savePaperAction (w : World) (paper : Arxiv.ArxivPaper)
    : M (option Arxiv.ArxivPaper) :=
  user ← getCurrentUser w;
  match Date_parse (Arxiv.published paper) with
  | None => throw invalidDate
  | Some date =>
      paper_upsert (Arxiv.id paper) (refreshed paper date) (created paper date)
  end;;
  savedPaper_upsert (user_id user) (Arxiv.id paper);;
  mret (if present (Arxiv.pdfLink paper) then Some paper else None).

(** The body of the closure [savePaperAction] starts without awaiting it. *)
Definition enrichmentBody (w : World) (paper : Arxiv.ArxivPaper) : M unit :=
  match Arxiv.pdfLink paper with
  | None => throw (TypeError (str "Cannot read properties of undefined (reading 'replace')"))
  | Some pdfLink =>
      data ← await (download w (secureUrl pdfLink) shortUserAgent);
      result ← await (Analyzer.analyzePdfBuffer (model w) data);
      storeAnalysis (Arxiv.id paper) result
  end.

Definition enrichment (w : World) (paper : Arxiv.ArxivPaper) : M unit :=
  tryCatch (enrichmentBody w paper) (fun _ => mret tt).

Definition regenerateSummaryAction (w : World) (paperId : jsstring)
    : M RegenerateResult :=
  tryCatch
    (paper ← query (paper_findUnique paperId);
     match paper with
     | None => mret {| success := false; error := Some (str "Paper not found") |}
     | Some paper =>
         if negb (present (filePath paper)) then
           mret {| success := false;
                   error := Some (str "No PDF available for this paper") |}
         else
           response ← await (download w (secureUrl (default [] (filePath paper)))
                               longUserAgent);
           result ← await (Analyzer.analyzePdfBuffer (model w) response);
           storeAnalysis paperId result;;
           mret {| success := true; error := None |}
     end)
    (fun e => mret {| success := false; error := Some (message e) |}).

Definition listView (p : Paper) (topics : list Topic) : option PaperView :=
  parsed ← Json.parse (authors p);
  Some {|
    v_id := Store.id p;
    v_title := title p;
    v_authors := parsed;
    v_abstract := abstract p;
    v_summary := summary p;
    v_published := isoOrEmpty (publishedDate p);
    v_link := orElse (url p) [];
    v_pdfLink := Some (orElse (filePath p) []);
    v_institution := institution p;
    v_topics := Some topics;
    v_isSaved := None
  |}.

Definition getSavedPapersAction (w : World) : M (list PaperView) :=
  user ← getCurrentUser w;
  entries ← query (savedPaper_findMany (user_id user));
  savedPapers ← includePapers entries;
  views ← query (fun db =>
    mapM (fun p => listView p (topicsOf (Store.id p) db)) savedPapers);
  match views with
  | Some views => mret views
  | None => throw unexpectedToken
  end.

Definition addTopicToPaperAction (paperId topicName : jsstring) : M unit :=
  topic ← topic_upsert topicName;
  paper_update paperId (fun r => r) (connect paperId (topic_id topic)).

Definition removeTopicFromPaperAction (paperId : jsstring) (topicId : N) : M unit :=
  paper_update paperId (fun r => r) (disconnect paperId topicId).

Definition deletePaperAction (w : World) (paperId : jsstring) : M unit :=
  user ← getCurrentUser w;
  savedPaper_delete (user_id user) paperId.

End WithDate.

End Actions.

(** ** The actions that only talk to the model

    [suggestTopicsAction] and [analyzePaperFromUrlAction] of the
    ['use server'] module.  Neither reaches the store, and both catch
    every exception. *)

Module TextActions.

Import Actions.

(** The text model behind [genAI.getGenerativeModel] and the environment
    variable the action checks first; the answer is [response.text()] or
    an exception of the client library. *)
Record TextModel : Type := {
  GEMINI_API_KEY : option jsstring;
  generateContent : jsstring -> outcome jsstring
}.

(** [text.substring(0, 5000)] *)
Definition excerpt (text : jsstring) : jsstring := take 5000 text.

Definition prompt (text : jsstring) : jsstring :=
  str "Suggest exactly 3 short, relevant topics or tags for the following research paper text. Return ONLY a JSON array of strings, e.g., ["
  ++ Json.quote (str "NLP") ++ str ", " ++ Json.quote (str "Transformers")
  ++ str ", " ++ Json.quote (str "LLM") ++ str "]. Text: " ++ excerpt text.

(** The value is whatever [JSON.parse] gave; [[]] is the empty array. *)
Definition suggestTopicsAction (m : TextModel) (text : jsstring) : Json.value :=
  if negb (present (GEMINI_API_KEY m)) then Json.JArray []
  else
    match generateContent m (prompt text) with
    | Rejected _ => Json.JArray []
    | Resolved answer =>
        match Json.parse (Analyzer.jsonString answer) with
        | Some topics => topics
        | None => Json.JArray []
        end
    end.

Section WithStack.

(** [(error as Error).stack], a text the engine attaches to the
    exception. *)
Variable stack : exn -> jsstring.

Definition failure (error : exn) : jsval :=
  Val (Json.JString (str "Failed to analyze paper. " ++ message error
                     ++ [10; 10] ++ str "Stack: " ++ stack error)).

(** The value is [result.summary], whatever the analysis holds there. *)
Definition analyzePaperFromUrlAction (w : World) (url : jsstring) : jsval :=
  match download w (secureUrl url) longUserAgent with
  | Rejected error => failure error
  | Resolved data =>
      match Analyzer.analyzePdfBuffer (model w) data with
      | Rejected error => failure error
      | Resolved result =>
          match member result (str "summary") with
          | Rejected error => failure error
          | Resolved summary => summary
          end
      end
  end.

End WithStack.

End TextActions.

(** ** [list-models.ts]

    The script reads the key of the model from the environment, and from
    the [.env] file of the working directory when the environment has
    none. *)

Module ListModels.

(** What the dot of a regular expression does not match. *)
Definition isLineTerminator (c : char16) : bool :=
  (c =? 10) || (c =? 13) || (c =? 8232) || (c =? 8233).

Fixpoint restOfLine (s : jsstring) : jsstring :=
  match s with
  | [] => []
  | c :: s' => if isLineTerminator c then [] else c :: restOfLine s'
  end.

(** The capture of [envContent.match] with the pattern that is the
    literal [GEMINI_API_KEY=] followed by a greedy run of anything but
    line terminators: [None] when the literal does not occur. *)
Definition matchKey (envContent : jsstring) : option jsstring :=
  restOfLine <$> afterFirst (str "GEMINI_API_KEY=") envContent.

Definition startsWith (p s : jsstring) : bool := Analyzer.isSome (stripPrefix p s).
Definition endsWith (p s : jsstring) : bool := startsWith (rev p) (rev s).

(** [key.slice(1, -1)] *)
Definition slice1 (key : jsstring) : jsstring := removelast (tail key).

(** The value [apiKey] takes from the file, if it is assigned. *)
Definition fileKey (envContent : jsstring) : option jsstring :=
  match matchKey envContent with
  | Some capture =>
      if truthy capture then
        let key := trim capture in
        Some (if startsWith [34] key && endsWith [34] key
                 || startsWith [39] key && endsWith [39] key
              then slice1 key else key)
      else None
  | None => None
  end.

(** [apiKey] when [listModels] is reached, from [process.env] and the
    file ([None] when it does not exist, an exception when it cannot be
    read); [None] is the exit with status 1. *)
Definition apiKey (env : option jsstring) (file : option (outcome jsstring))
    : option jsstring :=
  let apiKey :=
    if present env then env
    else
      match file with
      | Some (Resolved envContent) =>
          match fileKey envContent with
          | Some key => Some key
          | None => env
          end
      | _ => env
      end in
  if present apiKey then apiKey else None.

End ListModels.

(** ** [encodeURIComponent]

    The pages put [encodeURIComponent(paper.id)] in the route of a paper;
    this is the URL-encoded form of an identifier.  [None] stands for the
    URIError on a lone surrogate. *)

Module Uri.

Definition isUnreserved (c : char16) : bool :=
  (65 <=? c) && (c <=? 90) || (97 <=? c) && (c <=? 122)
  || (48 <=? c) && (c <=? 57)
  || (c =? 45) || (c =? 95) || (c =? 46) || (c =? 33) || (c =? 126)
  || (c =? 42) || (c =? 39) || (c =? 40) || (c =? 41).

Definition upperHex (d : N) : char16 := if d <? 10 then 48 + d else 55 + d.

Definition percent (byte : N) : jsstring :=
  [37; upperHex (byte / 16); upperHex (byte mod 16)].

Definition utf8 (cp : N) : list N :=
  if cp <? 128 then [cp]
  else if cp <? 2048 then [192 + cp / 64; 128 + cp mod 64]
  else if cp <? 65536 then
    [224 + cp / 4096; 128 + (cp / 64) mod 64; 128 + cp mod 64]
  else
    [240 + cp / 262144; 128 + (cp / 4096) mod 64; 128 + (cp / 64) mod 64;
     128 + cp mod 64].

Definition percentEncode (cp : N) : jsstring := concat (List.map percent (utf8 cp)).

Fixpoint encodeURIComponent (s : jsstring) : option jsstring :=
  match s with
  | [] => Some []
  | c :: s' =>
      if isUnreserved c then cons c <$> encodeURIComponent s'
      else if Json.isLowSurrogate c then None
      else if Json.isHighSurrogate c then
        match s' with
        | d :: s'' =>
            if Json.isLowSurrogate d then
              app (percentEncode ((c - 55296) * 1024 + (d - 56320) + 65536))
                <$> encodeURIComponent s''
            else None
        | [] => None
        end
      else app (percentEncode c) <$> encodeURIComponent s'
  end.

End Uri.

(** ** The catalog as a transition system

    Every call of an action is one transition, run to its end on the store
    as it is; a detached enrichment unit finishes in a transition of its
    own, at any later time and in any order, on the store as it is then. *)

Module System.

Import Store Actions.

Inductive Call : Type :=
| GetPaperById (id : jsstring)
| SavePaper (paper : Arxiv.ArxivPaper)
| RegenerateSummary (paperId : jsstring)
| GetSavedPapers
| AddTopicToPaper (paperId topicName : jsstring)
| RemoveTopicFromPaper (paperId : jsstring) (topicId : N)
| DeletePaper (paperId : jsstring).

Record State : Type := {
  store : DB;
  detached : list Arxiv.ArxivPaper
}.

Definition initial : State := {| store := Store.empty; detached := [] |}.

Section WithDate.

Context `{DateBuiltins}.

(** The store after a call, and the unit the call detached. *)
Definition perform (w : World) (c : Call) (db : DB) : DB * list Arxiv.ArxivPaper :=
  match c with
  | GetPaperById id => (snd (getPaperByIdAction w id db), [])
  | SavePaper paper =>
      match savePaperAction w paper db with
      | (Resolved (Some job), db') => (db', [job])
      | (_, db') => (db', [])
      end
  | RegenerateSummary paperId => (snd (regenerateSummaryAction w paperId db), [])
  | GetSavedPapers => (snd (getSavedPapersAction w db), [])
  | AddTopicToPaper paperId topicName =>
      (snd (addTopicToPaperAction paperId topicName db), [])
  | RemoveTopicFromPaper paperId topicId =>
      (snd (removeTopicFromPaperAction paperId topicId db), [])
  | DeletePaper paperId => (snd (deletePaperAction w paperId db), [])
  end.

(** The transitions whose calls are among [allowed]. *)
Inductive stepOf (allowed : Call -> Prop) : State -> State -> Prop :=
| step_call (w : World) (c : Call) (s : State) :
    allowed c ->
    stepOf allowed s
      {| store := fst (perform w c (store s));
         detached := detached s ++ snd (perform w c (store s)) |}
| step_finish (w : World) (db : DB) (before after : list Arxiv.ArxivPaper)
      (job : Arxiv.ArxivPaper) :
    stepOf allowed
      {| store := db; detached := before ++ job :: after |}
      {| store := snd (enrichment w job db); detached := before ++ after |}.

Definition step : State -> State -> Prop := stepOf (fun _ => True).

Definition reachable (s : State) : Prop := rtc step initial s.

(** A call that does not save paper [k] with an author list other than
    [a]. *)
Definition keepsAuthors (k : jsstring) (a : list jsstring) (c : Call) : Prop :=
  match c with
  | SavePaper paper => Arxiv.id paper = k -> Arxiv.authors paper = a
  | _ => True
  end.

End WithDate.

(** The uniqueness constraints of the schema. *)
Definition uniquePapers (db : DB) : Prop := NoDup (Store.id <$> papers db).
Definition uniqueTopics (db : DB) : Prop := NoDup (topic_name <$> topics db).
Definition uniqueLinks (db : DB) : Prop := NoDup (linkKey <$> savedPapers db).

Definition consistent (db : DB) : Prop :=
  uniquePapers db /\ uniqueTopics db /\ uniqueLinks db.

(** What the reads rely on: every link points to a paper of the catalog
    (the relation is required), and the [authors] column holds JSON. *)
Definition referential (db : DB) : Prop :=
  forall s, s ∈ savedPapers db -> paperId s ∈ Store.id <$> papers db.
Definition authorsAreJson (db : DB) : Prop :=
  forall r, r ∈ papers db -> is_Some (Json.parse (authors r)).

Definition sound (db : DB) : Prop := referential db /\ authorsAreJson db.

(** The row of paper [k] holds the author list [a], serialized. *)
Definition holdsAuthors (k : jsstring) (a : list jsstring) (db : DB) : Prop :=
  exists row,
    paper_findUnique k db = Some row /\ authors row = Json.stringifyStrings a.

(** The topic named [n] is attached to paper [k]. *)
Definition attached (k n : jsstring) (db : DB) : Prop :=
  exists t, topic_findByName n db = Some t /\ (k, topic_id t) ∈ paperTopics db.

(** A statement or an action keeps a property of the store, whether it
    returns or throws. *)
Definition preserves (I : DB -> Prop) {A} (m : M A) : Prop :=
  forall db, I db -> I (snd (m db)).

End System.

(** ** Notions used by the statements *)

Module Forms.

Definition httpPrefix : jsstring := str "http://arxiv.org/abs/".
Definition httpsPrefix : jsstring := str "https://arxiv.org/abs/".

(** A bare identifier carries neither of the two absolute prefixes. *)
Definition isBare (x : jsstring) : Prop :=
  stripPrefix httpPrefix x = None /\ stripPrefix httpsPrefix x = None.

(** The forms in which the identifier [bare] reaches the program: as it is,
    as an absolute URL with either scheme, and any of these URL-encoded. *)
Inductive acceptedForm (bare : jsstring) : jsstring -> Prop :=
| form_bare : acceptedForm bare bare
| form_http : acceptedForm bare (httpPrefix ++ bare)
| form_https : acceptedForm bare (httpsPrefix ++ bare)
| form_encoded (s e : jsstring) :
    acceptedForm bare s -> Uri.encodeURIComponent s = Some e ->
    acceptedForm bare e.

End Forms.

(** An awaited outcome that is an exception with HTTP status 429. *)
Definition rateLimited {A} (o : outcome A) : Prop :=
  exists e, o = Rejected e /\ Arxiv.isRateLimit e = true.

(** What a call that goes through [k] retries does to the outside. *)
Fixpoint retrySchedule (url : jsstring) (params : Arxiv.Params) (k : nat)
    (backoff : N) : list Arxiv.Event :=
  match k with
  | O => [Arxiv.Get url params]
  | S k' =>
      Arxiv.Get url params :: Arxiv.Warn :: Arxiv.Sleep backoff
        :: retrySchedule url params k' (backoff * 2)
  end.

(** The requests made, and the waits in milliseconds, of a trace. *)
Definition requests (evs : list Arxiv.Event) : nat :=
  length (List.filter
            (fun ev => match ev with Arxiv.Get _ _ => true | _ => false end) evs).

Definition sleeps (evs : list Arxiv.Event) : list N :=
  omap (fun ev => match ev with Arxiv.Sleep ms => Some ms | _ => None end) evs.

(** One attachment of topics to a paper: by hand, through
    [addTopicToPaperAction], or by the merge of an analysis, which is the
    [prisma.paper.update] of the enrichment unit of [savePaperAction] and
    of [regenerateSummaryAction]. *)
Inductive Attachment : Type :=
| ByHand (paperId topicName : jsstring)
| ByMerge (paperId : jsstring) (result : Json.value).

Definition attach (a : Attachment) : Store.M unit :=
  match a with
  | ByHand paperId topicName => Actions.addTopicToPaperAction paperId topicName
  | ByMerge paperId result => Actions.storeAnalysis paperId result
  end.

Definition paperOf (a : Attachment) : jsstring :=
  match a with
  | ByHand paperId _ => paperId
  | ByMerge paperId _ => paperId
  end.

(** The topic names an attachment asks for: [topicName], or the strings
    of [result.topics]. *)
Definition namesOf (a : Attachment) : list jsstring :=
  match a with
  | ByHand _ topicName => [topicName]
  | ByMerge _ result =>
      match Actions.member result (str "topics") with
      | Resolved t =>
          match Actions.topicItems t with
          | Resolved items =>
              match Actions.topicNames items with
              | Resolved names => names
              | Rejected _ => []
              end
          | Rejected _ => []
          end
      | Rejected _ => []
      end
  end.

(** The store after the attachments of a list, made one after the other,
    whether each of them returns or throws. *)
Definition attachAll (ops : list Attachment) (db : Store.DB) : Store.DB :=
  fold_left (fun db op => snd (attach op db)) ops db.

(** ** Further notions *)

(** A text in which every white space is a single space between two other
    characters: what is left to normalize is nothing. *)
Fixpoint singleSpaced (s : jsstring) : bool :=
  match s with
  | [] => true
  | c :: s' =>
      (if isWhiteSpace c
       then (c =? 32) &&
            match s' with d :: _ => negb (isWhiteSpace d) | [] => false end
       else true) && singleSpaced s'
  end.

Definition tidy (s : jsstring) : bool :=
  match s with c :: _ => negb (isWhiteSpace c) | [] => true end && singleSpaced s.

(** The waits of [k] retries that start at [backoff]. *)
Fixpoint doubling (k : nat) (backoff : N) : list N :=
  match k with
  | O => []
  | S k' => backoff :: doubling k' (backoff * 2)
  end.

(** The last code unit of a text is not white space. *)
Fixpoint endsClean (s : jsstring) : bool :=
  match s with
  | [] => true
  | [c] => negb (isWhiteSpace c)
  | _ :: s' => endsClean s'
  end.

(** The links the search for the PDF link reads have attributes: it stops
    at the first link titled [pdf]. *)
Fixpoint readable (links : list (option Arxiv.Link)) : bool :=
  match links with
  | [] => true
  | None :: _ => false
  | Some l :: links' => Arxiv.isPdf l || readable links'
  end.

(** An entry with every element the search client reads: an identifier,
    a title, a summary, authors that each have a name, a date, and links
    that are readable. *)
Definition complete (e : Arxiv.Entry) : bool :=
  Analyzer.isSome (Arxiv.entry_id e) && Analyzer.isSome (Arxiv.entry_title e)
  && Analyzer.isSome (Arxiv.entry_summary e)
  && match Arxiv.entry_author e with
     | Some author => forallb Analyzer.isSome author
     | None => false
     end
  && Analyzer.isSome (Arxiv.entry_published e)
  && match Arxiv.entry_link e with
     | Some links => readable links
     | None => false
     end.

(** Paper [p] is what the search client makes of entry [e]. *)
Definition madeOf (e : Arxiv.Entry) (p : Arxiv.ArxivPaper) : Prop :=
  Arxiv.entry_id e = Some (Arxiv.link p) /\
  Arxiv.id p = Arxiv.getCleanId (Arxiv.link p) /\
  (exists t, Arxiv.entry_title e = Some t /\
             Arxiv.title p = collapseSpaces (trim t)) /\
  (exists t, Arxiv.entry_summary e = Some t /\
             Arxiv.summary p = collapseSpaces (trim t)) /\
  Arxiv.entry_author e = Some (Some <$> Arxiv.authors p) /\
  Arxiv.entry_published e = Some (Arxiv.published p) /\
  (exists links, Arxiv.entry_link e = Some links /\
                 Arxiv.findPdf links = Some (Arxiv.pdfLink p)) /\
  Arxiv.institution p = None.

(** The first address of the session, the key under which
    [getCurrentUser] finds or creates the account. *)
Definition sessionEmail (w : Actions.World) : option jsstring :=
  clerkUser ← Actions.currentUser w; head (Actions.emailAddresses clerkUser).

(** The keys the store generates or enforces besides the ones of
    [System.consistent]: accounts are unique by [email] and by [id],
    topics by [id], and every generated key is below the counter. *)
Definition keyed (db : Store.DB) : Prop :=
  NoDup (Store.email <$> Store.users db) /\
  NoDup (Store.user_id <$> Store.users db) /\
  NoDup (Store.topic_id <$> Store.topics db) /\
  Forall (fun u => Store.user_id u < Store.nextId db) (Store.users db) /\
  Forall (fun t => Store.topic_id t < Store.nextId db) (Store.topics db).

(** Everything the catalog of [db] holds is still in [db']: the papers by
    identifier, the topics as they are, the accounts with their key and
    address. *)
Definition grows (db db' : Store.DB) : Prop :=
  (forall k, k ∈ Store.id <$> Store.papers db -> k ∈ Store.id <$> Store.papers db') /\
  (forall t, t ∈ Store.topics db -> t ∈ Store.topics db') /\
  (forall u, u ∈ Store.users db ->
     exists u', u' ∈ Store.users db' /\
       Store.user_id u' = Store.user_id u /\ Store.email u' = Store.email u).

(** The table of links is [L]. *)
Definition linksAre (L : list Store.SavedPaper) (db : Store.DB) : Prop :=
  Store.savedPapers db = L.

(** The object a well-formed answer of the model parses to. *)
Definition analysisOf (s i : jsstring) (names : list jsstring) : Json.value :=
  Json.JObject [(str "summary", Json.JString s);
                (str "institution", Json.JString i);
                (str "topics", Json.JArray (Json.JString <$> names))].

(** The titles a cluster name stands for, after [toLowerCase]. *)
Definition belongs (name title : jsstring) : bool :=
  let llm := includes (str "llm") title || includes (str "language model") title
             || includes (str "gpt") title in
  let vision := includes (str "vision") title || includes (str "image") title
                || includes (str "diffusion") title in
  let rl := includes (str "reinforcement") title || includes (str "rl") title in
  if bool_decide (name = str "LLMs") then llm
  else if bool_decide (name = str "Computer Vision") then vision
  else if bool_decide (name = str "Reinforcement Learning") then rl
  else if bool_decide (name = str "Other") then negb (llm || vision || rl)
  else false.

Definition clusterNames : list jsstring :=
  [str "LLMs"; str "Computer Vision"; str "Reinforcement Learning"; str "Other"].

(** The papers under a key of the object [clusters]. *)
Definition under (n : jsstring) (cl : Clustering.Clusters)
    : option (list Arxiv.ArxivPaper) :=
  snd <$> List.find (fun e => bool_decide (fst e = n)) cl.

(** Paper [p] has a title that cluster [n] stands for. *)
Definition inTitle `{Clustering.StringBuiltins} (n : jsstring)
    (p : Arxiv.ArxivPaper) : bool :=
  belongs n (Clustering.toLowerCase (Arxiv.title p)).

(** ** Sample inputs

    The paper of [scripts/verify-multi-user.ts] with its normalized
    identifier, a signed-in user, and surroundings in which the search
    endpoint knows the paper and the model answers as in the end-to-end
    scenario of the specification. *)

Module Examples.

Import Store Actions.

(** A [Date] that reads every non-empty string as the epoch. *)
Definition dates : DateBuiltins := {|
  Date_parse := fun s => if truthy s then Some 0%Z else None;
  Date_toISOString := fun _ => str "1970-01-01T00:00:00.000Z"
|}.

Definition alice : ClerkUser := {|
  emailAddresses := [str "alice@example.org"];
  firstName := Some (str "Alice");
  lastName := Some (str "Liddell");
  username := None
|}.

Definition lora : Arxiv.ArxivPaper := {|
  Arxiv.id := str "2106.09685v2";
  Arxiv.title := str "LoRA: Low-Rank Adaptation of Large Language Models";
  Arxiv.summary := str "We propose LoRA...";
  Arxiv.authors := [str "Edward Hu"; str "Yelong Shen"];
  Arxiv.published := str "2021-06-17T00:00:00.000Z";
  Arxiv.link := str "http://arxiv.org/abs/2106.09685";
  Arxiv.pdfLink := Some (str "http://arxiv.org/pdf/2106.09685");
  Arxiv.institution := None
|}.

Definition adapters : Arxiv.ArxivPaper := {|
  Arxiv.id := str "1902.00751v2";
  Arxiv.title := str "Parameter-Efficient Transfer Learning for NLP";
  Arxiv.summary := str "Fine-tuning large pre-trained models...";
  Arxiv.authors := [str "Neil Houlsby"];
  Arxiv.published := str "2019-02-02T00:00:00.000Z";
  Arxiv.link := str "http://arxiv.org/abs/1902.00751";
  Arxiv.pdfLink := None;
  Arxiv.institution := None
|}.

Definition loraEntry : Arxiv.Entry := {|
  Arxiv.entry_id := Some (str "http://arxiv.org/abs/2106.09685v2");
  Arxiv.entry_title :=
    Some (str "LoRA: Low-Rank Adaptation of Large Language Models");
  Arxiv.entry_summary := Some (str "We propose LoRA...");
  Arxiv.entry_author := Some [Some (str "Edward Hu"); Some (str "Yelong Shen")];
  Arxiv.entry_published := Some (str "2021-06-17T00:00:00.000Z");
  Arxiv.entry_link :=
    Some [Some {| Arxiv.link_title := None;
                  Arxiv.href := Some (str "http://arxiv.org/abs/2106.09685v2") |};
          Some {| Arxiv.link_title := Some (str "pdf");
                  Arxiv.href := Some (str "http://arxiv.org/pdf/2106.09685v2") |}]
|}.

(** The record the search client makes of [loraEntry]. *)
Definition loraFound : Arxiv.ArxivPaper := {|
  Arxiv.id := str "2106.09685v2";
  Arxiv.title := str "LoRA: Low-Rank Adaptation of Large Language Models";
  Arxiv.summary := str "We propose LoRA...";
  Arxiv.authors := [str "Edward Hu"; str "Yelong Shen"];
  Arxiv.published := str "2021-06-17T00:00:00.000Z";
  Arxiv.link := str "http://arxiv.org/abs/2106.09685v2";
  Arxiv.pdfLink := Some (str "http://arxiv.org/pdf/2106.09685v2");
  Arxiv.institution := None
|}.

Definition analysis : jsstring :=
  str "{" ++ Json.quote (str "summary") ++ str ":" ++ Json.quote (str "S")
  ++ str "," ++ Json.quote (str "institution") ++ str ":" ++ Json.quote (str "I")
  ++ str "," ++ Json.quote (str "topics") ++ str ":"
  ++ Json.stringifyStrings
       [str "Agent"; str "Large Language Models"; str "Model Architecture"]
  ++ str "}".

Definition world : World := {|
  currentUser := Some alice;
  axios := fun _ _ _ => Resolved (Some [loraEntry]);
  download := fun _ _ => Resolved [];
  model := {| Analyzer.GEMINI_API_KEY := Some (str "key");
              Analyzer.generateContent := fun _ => Resolved analysis |}
|}.

(** The same surroundings with the host of the PDF files down. *)
Definition offline : World := {|
  currentUser := Some alice;
  axios := fun _ _ _ => Rejected (AxiosError (str "Network Error") None);
  download := fun _ _ => Rejected (AxiosError (str "Network Error") None);
  model := model world
|}.

(** The catalog after [alice] has saved [lora], after the enrichment unit
    of that save has finished, and after she has saved [adapters] too. *)
Definition saved : DB := snd (savePaperAction (H := dates) world lora Store.empty).
Definition enriched : DB := snd (enrichment world lora saved).
Definition library : DB := snd (savePaperAction (H := dates) world adapters enriched).

End Examples.

(** ** Further sample inputs

    A visitor without a session, a second user, a model that answers in
    prose, and a case mapping for ASCII titles. *)

Module Scenarios.

Import Store Actions Examples.

Definition anonymous : World := {|
  currentUser := None;
  axios := axios world;
  download := download world;
  model := model world
|}.

Definition bob : ClerkUser := {|
  emailAddresses := [str "bob@example.org"];
  firstName := None;
  lastName := None;
  username := Some (str "bob")
|}.

Definition bobWorld : World := {|
  currentUser := Some bob;
  axios := axios world;
  download := download world;
  model := model world
|}.

(** The entry of [loraEntry] as a feed without [author] elements would
    have it. *)
Definition unsigned : Arxiv.Entry := {|
  Arxiv.entry_id := Arxiv.entry_id loraEntry;
  Arxiv.entry_title := Arxiv.entry_title loraEntry;
  Arxiv.entry_summary := Arxiv.entry_summary loraEntry;
  Arxiv.entry_author := None;
  Arxiv.entry_published := Arxiv.entry_published loraEntry;
  Arxiv.entry_link := Arxiv.entry_link loraEntry
|}.

Definition prose : jsstring := str "Sorry, I cannot read this PDF.".

(** The surroundings of [world] with a model that does not answer in
    JSON. *)
Definition talkative : World := {|
  currentUser := Some alice;
  axios := axios world;
  download := download world;
  model := {| Analyzer.GEMINI_API_KEY := Some (str "key");
              Analyzer.generateContent := fun _ => Resolved prose |}
|}.

(** The same surroundings with a model that puts its JSON in a code
    fence. *)
Definition fenced : Analyzer.Model := {|
  Analyzer.GEMINI_API_KEY := Some (str "key");
  Analyzer.generateContent := fun _ =>
    Resolved (str "```json" ++ ([10] ++ analysis ++ [10]) ++ str "```")
|}.

Definition aliceRow : User :=
  {| user_id := 0; email := str "alice@example.org"; name := str "Alice Liddell" |}.

(** The catalog after [bob] has saved [lora] too. *)
Definition shared : DB := snd (savePaperAction (H := dates) bobWorld lora library).

(** The state after [alice] has saved [lora] in the initial state, and
    the state after she has then removed it. *)
Definition afterSave : System.State := {|
  System.store :=
    fst (System.perform (H := dates) world (System.SavePaper lora)
           (System.store System.initial));
  System.detached :=
    System.detached System.initial ++
    snd (System.perform (H := dates) world (System.SavePaper lora)
           (System.store System.initial))
|}.

Definition afterDelete : System.State := {|
  System.store :=
    fst (System.perform (H := dates) world (System.DeletePaper (Arxiv.id lora))
           (System.store afterSave));
  System.detached :=
    System.detached afterSave ++
    snd (System.perform (H := dates) world (System.DeletePaper (Arxiv.id lora))
           (System.store afterSave))
|}.

(** The case mapping on texts of ASCII letters, where it is the shift of
    [A] to [Z]. *)
Definition asciiLower : Clustering.StringBuiltins := {|
  Clustering.toLowerCase :=
    List.map (fun c => if (65 <=? c) && (c <=? 90) then c + 32 else c)
|}.

End Scenarios.

(** * Properties *)

(** ** Strings *)

Lemma stripPrefix_app (p s : jsstring) : stripPrefix p (p ++ s) = Some s.
Proof.
  induction p as [|a p IH]; simpl.
  - by destruct s.
  - by rewrite N.eqb_refl.
Qed.

Lemma replaceStart_app (p r s : jsstring) : replaceStart p r (p ++ s) = r ++ s.
Proof. unfold replaceStart. by rewrite stripPrefix_app. Qed.

Lemma replaceStart_none (p r s : jsstring) :
  stripPrefix p s = None -> replaceStart p r s = s.
Proof. unfold replaceStart. by intros ->. Qed.

(** ** The identifier normalizer *)

Section Normalizer.

Import Arxiv Forms.

Lemma getCleanId_bare (x : jsstring) : isBare x -> getCleanId x = x.
Proof.
  intros [Hh Hs]. unfold getCleanId.
  rewrite (replaceStart_none _ _ _ Hh). by apply replaceStart_none.
Qed.

Lemma getCleanId_http (x : jsstring) :
  isBare x -> getCleanId (httpPrefix ++ x) = x.
Proof.
  intros [Hh Hs]. unfold getCleanId.
  change (str "http://arxiv.org/abs/") with httpPrefix.
  rewrite replaceStart_app. simpl. by apply replaceStart_none.
Qed.

Lemma getCleanId_https (x : jsstring) : getCleanId (httpsPrefix ++ x) = x.
Proof.
  unfold getCleanId.
  rewrite (replaceStart_none (str "http://arxiv.org/abs/")); [|reflexivity].
  change (str "https://arxiv.org/abs/") with httpsPrefix.
  by rewrite replaceStart_app.
Qed.

(** C7, as the specification states it, fails on the URL-encoded form:
    the encoded absolute URL of 2106.09685v2 and the bare identifier are
    two accepted forms of one paper, and they normalize to different
    strings, the first one being returned as it came. *)
Lemma getCleanId_encoded_counterexample :
  let bare := str "2106.09685v2" in
  let encoded := str "http%3A%2F%2Farxiv.org%2Fabs%2F2106.09685v2" in
  acceptedForm bare bare /\ acceptedForm bare encoded /\
  getCleanId encoded = encoded /\
  getCleanId encoded <> getCleanId bare.
Proof.
  intros bare encoded. split; [constructor|]. split.
  - apply (form_encoded bare (httpPrefix ++ bare)); [constructor|].
    by vm_compute.
  - split; [by vm_compute|]. by vm_compute.
Qed.

(** C7 (amended): a bare identifier, its http absolute URL and its https
    absolute URL all normalize to the bare identifier, which has no
    scheme or host prefix; normalization does not decode. *)
Theorem getCleanId_canonical (bare : jsstring) :
  isBare bare ->
  getCleanId bare = bare /\
  getCleanId (httpPrefix ++ bare) = bare /\
  getCleanId (httpsPrefix ++ bare) = bare.
Proof.
  intros Hb. split; [by apply getCleanId_bare|].
  split; [by apply getCleanId_http|apply getCleanId_https].
Qed.

Lemma getCleanId_canonical_witness :
  isBare (str "2106.09685v2") /\
  getCleanId (str "2106.09685v2") = str "2106.09685v2" /\
  getCleanId (str "http://arxiv.org/abs/2106.09685v2") = str "2106.09685v2" /\
  getCleanId (str "https://arxiv.org/abs/2106.09685v2") = str "2106.09685v2".
Proof.
  assert (Hb : isBare (str "2106.09685v2")) by (split; reflexivity).
  split; [exact Hb|].
  exact (getCleanId_canonical (str "2106.09685v2") Hb).
Defined.

End Normalizer.

(** ** The search client *)

Section SearchClient.

Import Arxiv.

Variables (url : jsstring) (params : Params).

(** The client goes on exactly as long as the answers are rate-limit
    responses and retries are left: with [k] the first attempt that is not
    rate limited (or the last one allowed), the answer to attempt [k] is
    what the caller gets. *)
Lemma fetchWithRetry_stops (k : nat) :
  forall (retries : nat) (axios : Axios) (backoff : N),
  (k <= retries)%nat ->
  (forall n, (n < k)%nat -> rateLimited (axios url params n)) ->
  ((k < retries)%nat -> ~ rateLimited (axios url params k)) ->
  fetchWithRetry axios url params retries backoff =
    (axios url params k, retrySchedule url params k backoff).
Proof.
  induction k as [|k IH]; intros retries axios backoff Hle Hlim Hstop.
  - destruct retries as [|r]; simpl.
    + by destruct (axios url params 0%nat).
    + destruct (axios url params 0%nat) as [a|e] eqn:E; [done|].
      destruct (isRateLimit e) eqn:El; [|done].
      exfalso. apply Hstop; [lia|]. by exists e.
  - destruct retries as [|r]; [lia|]. simpl.
    destruct (Hlim 0%nat) as (e & E & El); [lia|].
    rewrite E, El.
    rewrite (IH r (next axios) (backoff * 2)).
    + done.
    + lia.
    + intros n Hn. apply (Hlim (S n)). lia.
    + intros Hk. apply Hstop. lia.
Qed.

End SearchClient.

Lemma requests_retrySchedule (url : jsstring) (params : Arxiv.Params) (k : nat) :
  forall backoff, requests (retrySchedule url params k backoff) = S k.
Proof.
  induction k as [|k IH]; intros backoff; [done|].
  unfold requests in *. cbn [retrySchedule List.filter length]. by rewrite IH.
Qed.

(** C3: against an endpoint that answers every attempt with a rate-limit
    response the client makes four requests, sleeping 1000, 2000 and 4000
    milliseconds between them, and then surfaces the last failure; and an
    exception that is not a rate-limit response, at whichever attempt it
    comes, is surfaced at once: no request follows the one that raised
    it, whatever the number of retries left. *)
Theorem fetchWithRetry_backoff (axios : Arxiv.Axios) (url : jsstring)
    (params : Arxiv.Params) :
  ((forall n, rateLimited (axios url params n)) ->
   let run := Arxiv.fetchWithRetry axios url params Arxiv.defaultRetries
                Arxiv.defaultBackoff in
   fst run = axios url params 3%nat /\ rateLimited (fst run) /\
   snd run = [Arxiv.Get url params; Arxiv.Warn; Arxiv.Sleep 1000;
              Arxiv.Get url params; Arxiv.Warn; Arxiv.Sleep 2000;
              Arxiv.Get url params; Arxiv.Warn; Arxiv.Sleep 4000;
              Arxiv.Get url params] /\
   requests (snd run) = 4%nat /\ sleeps (snd run) = [1000; 2000; 4000]) /\
  (forall retries backoff k e,
     (k <= retries)%nat ->
     (forall n, (n < k)%nat -> rateLimited (axios url params n)) ->
     axios url params k = Rejected e -> Arxiv.isRateLimit e = false ->
     let run := Arxiv.fetchWithRetry axios url params retries backoff in
     fst run = Rejected e /\ requests (snd run) = S k).
Proof.
  split.
  - intros Hall run. subst run.
    rewrite (fetchWithRetry_stops url params 3 Arxiv.defaultRetries axios
               Arxiv.defaultBackoff).
    + repeat split; try reflexivity. apply Hall.
    + unfold Arxiv.defaultRetries. lia.
    + intros n _. apply Hall.
    + unfold Arxiv.defaultRetries. lia.
  - intros retries backoff k e Hk Hlim He Hne run. subst run.
    rewrite (fetchWithRetry_stops url params k retries axios backoff); try done.
    + simpl. split; [done|apply requests_retrySchedule].
    + intros _ (e' & He' & Hl). rewrite He in He'. injection He' as <-.
      by rewrite Hne in Hl.
Qed.

Lemma fetchWithRetry_backoff_witness :
  let busy : Arxiv.Axios := fun _ _ _ => Rejected (AxiosError [] (Some 429)) in
  let params := {| Arxiv.search_query := str "all:lora"; Arxiv.start := 0;
                   Arxiv.max_results := 10; Arxiv.sortBy := Arxiv.submittedDate;
                   Arxiv.sortOrder := Arxiv.descending |} in
  (forall n, rateLimited (busy Arxiv.ARXIV_API_URL params n)) /\
  requests (snd (Arxiv.fetchWithRetry busy Arxiv.ARXIV_API_URL params
                   Arxiv.defaultRetries Arxiv.defaultBackoff)) = 4%nat /\
  sleeps (snd (Arxiv.fetchWithRetry busy Arxiv.ARXIV_API_URL params
                 Arxiv.defaultRetries Arxiv.defaultBackoff)) = [1000; 2000; 4000].
Proof.
  intros busy params.
  assert (Hall : forall n, rateLimited (busy Arxiv.ARXIV_API_URL params n)).
  { intros n. eexists. split; reflexivity. }
  split; [exact Hall|].
  destruct (proj1 (fetchWithRetry_backoff busy Arxiv.ARXIV_API_URL params) Hall)
    as (_ & _ & _ & Hreq & Hsl).
  split; [exact Hreq|exact Hsl].
Defined.

(** The failure the client gives up on reaches the caller of [searchArxiv]
    as an empty result. *)
Lemma searchArxiv_rate_limited (axios : Arxiv.Axios) (query : jsstring)
    (maxResults start : N) (sortBy : Arxiv.SortBy) (sortOrder : Arxiv.SortOrder) :
  (forall url params n, rateLimited (axios url params n)) ->
  Arxiv.searchArxiv axios query maxResults start sortBy sortOrder = [].
Proof.
  intros Hall. unfold Arxiv.searchArxiv.
  rewrite (fetchWithRetry_stops _ _ 3 Arxiv.defaultRetries axios
             Arxiv.defaultBackoff).
  - simpl. by destruct (Hall Arxiv.ARXIV_API_URL
      {| Arxiv.search_query := query; Arxiv.start := start;
         Arxiv.max_results := maxResults; Arxiv.sortBy := sortBy;
         Arxiv.sortOrder := sortOrder |} 3%nat) as (e & -> & _).
  - unfold Arxiv.defaultRetries. lia.
  - intros n _. apply Hall.
  - unfold Arxiv.defaultRetries. lia.
Qed.

(** ** The analyzer *)

Lemma analyzePdfBuffer_rejected (m : Analyzer.Model) (buffer : Analyzer.Buffer)
    (e : exn) :
  Analyzer.analyzePdfBuffer m buffer = Rejected e ->
  present (Analyzer.GEMINI_API_KEY m) = false \/
  exists e', Analyzer.generateContent m buffer = Rejected e'.
Proof.
  unfold Analyzer.analyzePdfBuffer.
  destruct (present (Analyzer.GEMINI_API_KEY m)); simpl; [|by left].
  destruct (Analyzer.generateContent m buffer) as [text|e']; [|by eauto].
  by destruct (Json.parse (Analyzer.jsonString text)).
Qed.

(** C4: when the model answers with a text whose content, fences removed
    and trimmed, is not JSON, the analyzer returns the whole text as the
    summary, an empty institution and no topics; and whenever the
    analyzer throws, the credential is missing or the call of the model
    itself failed. *)
Theorem analyzePdfBuffer_fallback (m : Analyzer.Model) (buffer : Analyzer.Buffer) :
  (forall text,
     present (Analyzer.GEMINI_API_KEY m) = true ->
     Analyzer.generateContent m buffer = Resolved text ->
     Json.parse (Analyzer.jsonString text) = None ->
     Analyzer.analyzePdfBuffer m buffer =
       Resolved (Json.JObject [(str "summary", Json.JString text);
                               (str "institution", Json.JString []);
                               (str "topics", Json.JArray [])])) /\
  (forall e,
     Analyzer.analyzePdfBuffer m buffer = Rejected e ->
     present (Analyzer.GEMINI_API_KEY m) = false \/
     exists e', Analyzer.generateContent m buffer = Rejected e').
Proof.
  split.
  - intros text Hkey Hgen Hparse. unfold Analyzer.analyzePdfBuffer.
    by rewrite Hkey, Hgen, Hparse.
  - apply analyzePdfBuffer_rejected.
Qed.

Lemma analyzePdfBuffer_fallback_witness :
  let text := str "Sorry, I cannot read this PDF." in
  let m := {| Analyzer.GEMINI_API_KEY := Some (str "key");
              Analyzer.generateContent := fun _ => Resolved text |} in
  Json.parse (Analyzer.jsonString text) = None /\
  Analyzer.analyzePdfBuffer m [] =
    Resolved (Json.JObject [(str "summary", Json.JString text);
                            (str "institution", Json.JString []);
                            (str "topics", Json.JArray [])]).
Proof.
  intros text m.
  assert (Hp : Json.parse (Analyzer.jsonString text) = None) by (vm_compute; reflexivity).
  split; [exact Hp|].
  exact (proj1 (analyzePdfBuffer_fallback m []) text eq_refl eq_refl Hp).
Defined.

(** ** Tables and statements *)

Section Tables.

Context {A : Type}.
Implicit Types (sel : A -> bool) (f : A -> A) (rows : list A).

Lemma find_updateWhere sel f rows :
  (forall r, sel (f r) = sel r) ->
  List.find sel (Store.updateWhere sel f rows) = f <$> List.find sel rows.
Proof.
  intros Hsel. induction rows as [|r rows IH]; [done|]. simpl.
  destruct (sel r) eqn:E.
  - by rewrite Hsel, E.
  - by rewrite E.
Qed.

Lemma find_updateWhere_other sel sel' f rows :
  (forall r, sel' (f r) = sel' r) ->
  List.find sel' (Store.updateWhere sel f rows) =
    (fun r => if sel r then f r else r) <$> List.find sel' rows.
Proof.
  intros Hsel. induction rows as [|r rows IH]; [done|]. simpl.
  destruct (sel r) eqn:E.
  - rewrite Hsel. destruct (sel' r); simpl; [by rewrite E|done].
  - destruct (sel' r); simpl; [by rewrite E|done].
Qed.

Lemma updateWhere_none sel f rows :
  List.find sel rows = None -> Store.updateWhere sel f rows = rows.
Proof.
  induction rows as [|r rows IH]; [done|]. simpl.
  destruct (sel r); [done|]. intros Hn. by rewrite IH.
Qed.

Lemma updateWhere_idem sel f rows :
  (forall r, sel (f r) = sel r) -> (forall r, f (f r) = f r) ->
  Store.updateWhere sel f (Store.updateWhere sel f rows) = Store.updateWhere sel f rows.
Proof.
  intros Hsel Hf. induction rows as [|r rows IH]; [done|]. simpl.
  rewrite IH. destruct (sel r) eqn:E.
  - by rewrite Hsel, E, Hf.
  - by rewrite E.
Qed.

Lemma updateWhere_app sel f rows rows' :
  Store.updateWhere sel f (rows ++ rows') =
    Store.updateWhere sel f rows ++ Store.updateWhere sel f rows'.
Proof. apply List.map_app. Qed.

Lemma find_snoc sel rows (x : A) :
  List.find sel (rows ++ [x]) =
    match List.find sel rows with
    | Some r => Some r
    | None => if sel x then Some x else None
    end.
Proof.
  induction rows as [|r rows IH]; simpl; [done|]. by destruct (sel r).
Qed.

Lemma fmap_updateWhere {K} (key : A -> K) sel f rows :
  (forall r, key (f r) = key r) ->
  key <$> Store.updateWhere sel f rows = key <$> rows.
Proof.
  intros Hk. induction rows as [|r rows IH]; [done|].
  unfold Store.updateWhere in *. simpl List.map. rewrite !fmap_cons, IH.
  by destruct (sel r); rewrite ?Hk.
Qed.

Lemma find_none_not_in {K} `{EqDecision K} (key : A -> K) (k : K) rows :
  List.find (fun r => bool_decide (key r = k)) rows = None -> k ∉ key <$> rows.
Proof.
  induction rows as [|r rows IH]; simpl; [intros _; apply not_elem_of_nil|].
  case_bool_decide as E; [done|]. intros Hn.
  apply not_elem_of_cons. split; [done|by apply IH].
Qed.

Lemma filter_key_absent {K} `{EqDecision K} (key : A -> K) (k : K) rows :
  k ∉ key <$> rows ->
  List.filter (fun r => bool_decide (key r = k)) rows = [].
Proof.
  induction rows as [|r rows IH]; simpl; [done|].
  rewrite not_elem_of_cons. intros [Hne Hnin].
  case_bool_decide as E; [congruence|by apply IH].
Qed.

Lemma filter_key_unique {K} `{EqDecision K} (key : A -> K) (k : K) rows :
  NoDup (key <$> rows) ->
  is_Some (List.find (fun r => bool_decide (key r = k)) rows) ->
  length (List.filter (fun r => bool_decide (key r = k)) rows) = 1%nat.
Proof.
  induction rows as [|r rows IH]; simpl.
  - by intros _ [? ?].
  - rewrite NoDup_cons. intros [Hnin Hnd].
    case_bool_decide as E.
    + intros _. simpl. rewrite filter_key_absent; [done|by rewrite <- E].
    + intros Hs. by apply IH.
Qed.

End Tables.

Section Preservation.

Import Store System.

Context (I : DB -> Prop).

Lemma preserves_ret {A} (a : A) : preserves I (mret a).
Proof. by intros db. Qed.

Lemma preserves_throw {A} (e : exn) : preserves I (@throw A e).
Proof. by intros db. Qed.

Lemma preserves_await {A} (o : outcome A) : preserves I (await o).
Proof. by intros db. Qed.

Lemma preserves_query {A} (f : DB -> A) : preserves I (query f).
Proof. by intros db. Qed.

Lemma preserves_bind {A B} (m : M A) (k : A -> M B) :
  preserves I m -> (forall a, preserves I (k a)) -> preserves I (m ≫= k).
Proof.
  intros Hm Hk db HI. unfold mbind, M_bind.
  specialize (Hm db HI). destruct (m db) as [[a|e] db']; simpl in *.
  - by apply Hk.
  - done.
Qed.

Lemma preserves_tryCatch {A} (m : M A) (h : exn -> M A) :
  preserves I m -> (forall e, preserves I (h e)) -> preserves I (tryCatch m h).
Proof.
  intros Hm Hh db HI. unfold tryCatch.
  specialize (Hm db HI). destruct (m db) as [[a|e] db']; simpl in *.
  - done.
  - by apply Hh.
Qed.

Lemma preserves_transaction {A} (m : M A) :
  preserves I m -> preserves I (transaction m).
Proof.
  intros Hm db HI. unfold transaction.
  specialize (Hm db HI). by destruct (m db) as [[a|e] db'].
Qed.

Lemma preserves_statement {A} (f : DB -> A * DB) :
  (forall db, I db -> I (snd (f db))) -> preserves I (statement f).
Proof.
  intros Hf db HI. unfold statement. specialize (Hf db HI).
  by destruct (f db).
Qed.

End Preservation.

Section Uniqueness.

Context {A K : Type} `{EqDecision K} (key : A -> K).

Lemma NoDup_key_snoc (rows : list A) (x : A) :
  NoDup (key <$> rows) ->
  List.find (fun r => bool_decide (key r = key x)) rows = None ->
  NoDup (key <$> rows ++ [x]).
Proof.
  intros Hnd Hf. rewrite fmap_app. apply NoDup_app. split; [done|]. split.
  - intros k Hin Hx. apply list_elem_of_singleton in Hx. subst k.
    by apply (find_none_not_in key (key x) rows).
  - apply NoDup_singleton.
Qed.

Lemma elem_of_key_filter (sel : A -> bool) (rows : list A) (k : K) :
  k ∈ key <$> List.filter sel rows -> k ∈ key <$> rows.
Proof.
  induction rows as [|r rows IH]; [done|]. cbn [List.filter].
  destruct (sel r); rewrite !fmap_cons, ?elem_of_cons; intuition.
Qed.

Lemma NoDup_key_filter (sel : A -> bool) (rows : list A) :
  NoDup (key <$> rows) -> NoDup (key <$> List.filter sel rows).
Proof.
  induction rows as [|r rows IH]; [done|]. cbn [List.filter].
  rewrite fmap_cons, NoDup_cons. intros [Hnin Hnd].
  destruct (sel r); [|by apply IH].
  rewrite fmap_cons, NoDup_cons. split; [|by apply IH].
  intros Hin. by apply Hnin, (elem_of_key_filter sel).
Qed.

End Uniqueness.

Section Consistency.

Import Store System Actions.

Lemma consistent_user_upsert e n : preserves consistent (user_upsert e n).
Proof.
  apply preserves_statement. intros db HI.
  by destruct (List.find (hasEmail e) (users db)).
Qed.

Lemma consistent_paper_upsert k upd cre :
  (forall r, Store.id (upd r) = Store.id r) -> Store.id cre = k ->
  preserves consistent (paper_upsert k upd cre).
Proof.
  intros Hupd Hcre. apply preserves_statement. intros db (HP & HT & HL).
  unfold paper_findUnique.
  destruct (List.find (hasId k) (papers db)) eqn:E; simpl.
  - split; [|done]. unfold uniquePapers. simpl.
    by rewrite (fmap_updateWhere Store.id).
  - split; [|done]. unfold uniquePapers. simpl.
    apply (NoDup_key_snoc Store.id); [done|]. by rewrite Hcre.
Qed.

Lemma consistent_savedPaper_upsert u k : preserves consistent (savedPaper_upsert u k).
Proof.
  apply preserves_statement. intros db (HP & HT & HL).
  unfold savedPaper_findUnique.
  destruct (List.find (isLink u k) (savedPapers db)) eqn:E; simpl; [done|].
  split; [done|]. split; [done|]. unfold uniqueLinks. simpl.
  by apply (NoDup_key_snoc linkKey).
Qed.

Lemma consistent_savedPaper_delete u k : preserves consistent (savedPaper_delete u k).
Proof.
  intros db (HP & HT & HL). unfold savedPaper_delete.
  destruct (savedPaper_findUnique u k db); simpl; [|done].
  split; [done|]. split; [done|]. unfold uniqueLinks. simpl.
  by apply NoDup_key_filter.
Qed.

Lemma consistent_topic_upsert n : preserves consistent (topic_upsert n).
Proof.
  apply preserves_statement. intros db (HP & HT & HL).
  unfold topic_findByName.
  destruct (List.find (hasName n) (topics db)) eqn:E; simpl; [done|].
  split; [done|]. split; [|done]. unfold uniqueTopics. simpl.
  by apply (NoDup_key_snoc topic_name).
Qed.

Lemma consistent_connect k i : preserves consistent (connect k i).
Proof.
  intros db HI. unfold connect.
  by destruct (List.find (hasTopicId i) (topics db)).
Qed.

Lemma consistent_disconnect k i : preserves consistent (disconnect k i).
Proof. by apply preserves_statement. Qed.

Lemma consistent_connectOrCreateAll k names :
  preserves consistent (connectOrCreateAll k names).
Proof.
  induction names as [|n names IH]; simpl; [apply preserves_ret|].
  apply preserves_bind; [|done].
  apply preserves_bind; [apply consistent_topic_upsert|].
  intros t. apply consistent_connect.
Qed.

Lemma consistent_paper_update k f nested :
  (forall r, Store.id (f r) = Store.id r) ->
  preserves consistent nested -> preserves consistent (paper_update k f nested).
Proof.
  intros Hf Hn. apply preserves_transaction. intros db (HP & HT & HL).
  destruct (paper_findUnique k db); [|done].
  apply Hn. split; [|done]. unfold uniquePapers. simpl.
  by rewrite (fmap_updateWhere Store.id).
Qed.

Lemma consistent_includePaper entry : preserves consistent (includePaper entry).
Proof.
  intros db HI. unfold includePaper. by destruct (paper_findUnique _ db).
Qed.

Lemma consistent_includePapers entries : preserves consistent (includePapers entries).
Proof.
  induction entries as [|entry entries IH]; simpl; [apply preserves_ret|].
  apply preserves_bind; [apply consistent_includePaper|]. intros p.
  apply preserves_bind; [done|]. intros ps. apply preserves_ret.
Qed.

Lemma consistent_storeAnalysis k result : preserves consistent (storeAnalysis k result).
Proof.
  unfold storeAnalysis.
  repeat (apply preserves_bind; [apply preserves_await|intros ?]).
  apply consistent_paper_update; [done|apply consistent_connectOrCreateAll].
Qed.

Lemma consistent_getCurrentUser w : preserves consistent (getCurrentUser w).
Proof.
  unfold getCurrentUser. destruct (currentUser w) as [cu|]; [|apply preserves_throw].
  destruct (negb _); [apply preserves_throw|apply consistent_user_upsert].
Qed.

Context `{DateBuiltins}.

Lemma consistent_savePaperAction w paper : preserves consistent (savePaperAction w paper).
Proof.
  unfold savePaperAction.
  apply preserves_bind; [apply consistent_getCurrentUser|]. intros user.
  apply preserves_bind.
  - destruct (Date_parse _); [|apply preserves_throw].
    by apply consistent_paper_upsert.
  - intros _. apply preserves_bind; [apply consistent_savedPaper_upsert|].
    intros _. apply preserves_ret.
Qed.

Lemma consistent_enrichment w paper : preserves consistent (enrichment w paper).
Proof.
  apply preserves_tryCatch; [|intros e; apply preserves_ret].
  unfold enrichmentBody. destruct (Arxiv.pdfLink paper); [|apply preserves_throw].
  do 2 (apply preserves_bind; [apply preserves_await|intros ?]).
  apply consistent_storeAnalysis.
Qed.

Lemma consistent_regenerateSummaryAction w k :
  preserves consistent (regenerateSummaryAction w k).
Proof.
  apply preserves_tryCatch; [|intros e; apply preserves_ret].
  apply preserves_bind; [apply preserves_query|]. intros [p|]; [|apply preserves_ret].
  destruct (negb _); [apply preserves_ret|].
  do 2 (apply preserves_bind; [apply preserves_await|intros ?]).
  apply preserves_bind; [apply consistent_storeAnalysis|]. intros _.
  apply preserves_ret.
Qed.

Lemma consistent_getPaperByIdAction w k : preserves consistent (getPaperByIdAction w k).
Proof.
  unfold getPaperByIdAction.
  apply preserves_bind; [apply consistent_getCurrentUser|]. intros user.
  apply preserves_bind; [apply preserves_query|]. intros [entry|].
  - apply preserves_bind; [apply consistent_includePaper|]. intros p.
    apply preserves_bind; [apply preserves_query|]. intros ts.
    destruct (Json.parse _); [apply preserves_ret|apply preserves_throw].
  - apply preserves_ret.
Qed.

Lemma consistent_getSavedPapersAction w : preserves consistent (getSavedPapersAction w).
Proof.
  unfold getSavedPapersAction.
  apply preserves_bind; [apply consistent_getCurrentUser|]. intros user.
  apply preserves_bind; [apply preserves_query|]. intros entries.
  apply preserves_bind; [apply consistent_includePapers|]. intros ps.
  apply preserves_bind; [apply preserves_query|].
  intros [views|]; [apply preserves_ret|apply preserves_throw].
Qed.

Lemma consistent_addTopicToPaperAction k n :
  preserves consistent (addTopicToPaperAction k n).
Proof.
  apply preserves_bind; [apply consistent_topic_upsert|]. intros t.
  apply consistent_paper_update; [done|apply consistent_connect].
Qed.

Lemma consistent_removeTopicFromPaperAction k i :
  preserves consistent (removeTopicFromPaperAction k i).
Proof. apply consistent_paper_update; [done|apply consistent_disconnect]. Qed.

Lemma consistent_deletePaperAction w k : preserves consistent (deletePaperAction w k).
Proof.
  apply preserves_bind; [apply consistent_getCurrentUser|]. intros user.
  apply consistent_savedPaper_delete.
Qed.

Lemma consistent_perform w c db : consistent db -> consistent (fst (perform w c db)).
Proof.
  intros HI. destruct c; simpl.
  - by apply consistent_getPaperByIdAction.
  - pose proof (consistent_savePaperAction w paper db HI) as Hs.
    by destruct (savePaperAction w paper db) as [[[job|]|e] db'].
  - by apply consistent_regenerateSummaryAction.
  - by apply consistent_getSavedPapersAction.
  - by apply consistent_addTopicToPaperAction.
  - by apply consistent_removeTopicFromPaperAction.
  - by apply consistent_deletePaperAction.
Qed.

Lemma consistent_step s s' : step s s' -> consistent (store s) -> consistent (store s').
Proof.
  intros [w c s0 _|w db before after job]; simpl.
  - apply consistent_perform.
  - apply consistent_enrichment.
Qed.

Lemma consistent_empty : consistent Store.empty.
Proof. repeat split; apply NoDup_nil_2. Qed.

End Consistency.

(** ** The JSON built-ins round-trip arrays of strings *)

Section JsonRoundTrip.

Import Json.

Ltac tests :=
  repeat match goal with
  | |- context [N.eqb ?a ?b] => destruct (N.eqb_spec a b)
  | |- context [N.ltb ?a ?b] => destruct (N.ltb_spec a b)
  | |- context [N.leb ?a ?b] => destruct (N.leb_spec a b)
  end.

Lemma hexValue_hexDigit d : d < 16 -> hexValue (hexDigit d) = Some d.
Proof.
  intros Hd. unfold hexValue, hexDigit. tests; simpl; try lia; f_equal; lia.
Qed.

Lemma hex4_unicodeEscape c :
  c < 65536 ->
  hex4 (hexDigit (c / 4096 mod 16)) (hexDigit (c / 256 mod 16))
       (hexDigit (c / 16 mod 16)) (hexDigit (c mod 16)) = Some c.
Proof.
  intros Hc. unfold hex4.
  rewrite !hexValue_hexDigit by (apply N.mod_lt; lia).
  f_equal. zify. Z.to_euclidean_division_equations. lia.
Qed.

Lemma parseChars_plain c t :
  32 <= c -> c <> 34 -> c <> 92 ->
  parseChars (c :: t) = consChar c (parseChars t).
Proof.
  intros H1 H2 H3. simpl. tests; try lia. done.
Qed.

Lemma parseChars_unicodeEscape c t :
  c < 65536 ->
  parseChars (unicodeEscape c ++ t) = consChar c (parseChars t).
Proof.
  intros Hc. unfold unicodeEscape.
  cbn [app parseChars]. change (92 =? 34) with false. change (92 =? 92) with true.
  change (117 =? 117) with true. cbv iota.
  by rewrite hex4_unicodeEscape.
Qed.

Lemma parseChars_quoteUnit c t :
  parseChars (quoteUnit c ++ t) = consChar c (parseChars t).
Proof.
  unfold quoteUnit.
  destruct (N.eqb_spec c 8) as [->|]; [done|].
  destruct (N.eqb_spec c 9) as [->|]; [done|].
  destruct (N.eqb_spec c 10) as [->|]; [done|].
  destruct (N.eqb_spec c 12) as [->|]; [done|].
  destruct (N.eqb_spec c 13) as [->|]; [done|].
  destruct (N.eqb_spec c 34) as [->|]; [done|].
  destruct (N.eqb_spec c 92) as [->|]; [done|].
  destruct (_ || _) eqn:E.
  - apply parseChars_unicodeEscape.
    unfold isHighSurrogate, isLowSurrogate in E.
    revert E. tests; simpl; intros; try done; lia.
  - apply parseChars_plain; [|done|done].
    revert E. tests; simpl; intros; try done; lia.
Qed.

Lemma quoteUnits_cons c d s :
  quoteUnits (c :: d :: s) =
    if isHighSurrogate c && isLowSurrogate d then c :: d :: quoteUnits s
    else quoteUnit c ++ quoteUnits (d :: s).
Proof. done. Qed.

Lemma parseChars_quoteUnits_le (n : nat) :
  forall s rest, (length s <= n)%nat ->
  parseChars (quoteUnits s ++ 34 :: rest) = Some (s, rest).
Proof.
  induction n as [|n IH]; intros s rest Hn.
  - destruct s; [done|simpl in Hn; lia].
  - destruct s as [|c s]; [done|].
    destruct s as [|d s].
    + simpl quoteUnits. rewrite parseChars_quoteUnit. done.
    + rewrite quoteUnits_cons.
      destruct (isHighSurrogate c && isLowSurrogate d) eqn:E.
      * apply andb_true_iff in E as [Hc Hd].
        unfold isHighSurrogate in Hc. unfold isLowSurrogate in Hd.
        cbn [app]. rewrite parseChars_plain.
        2-4: revert Hc; tests; simpl; intros; try done; lia.
        rewrite parseChars_plain.
        2-4: revert Hd; tests; simpl; intros; try done; lia.
        rewrite (IH s rest); [done|]. simpl in *. lia.
      * rewrite <- app_assoc, parseChars_quoteUnit.
        rewrite (IH (d :: s) rest); [done|]. simpl in *. lia.
Qed.

Lemma parseChars_quoteUnits s rest :
  parseChars (quoteUnits s ++ 34 :: rest) = Some (s, rest).
Proof. by apply (parseChars_quoteUnits_le (length s)). Qed.

Lemma parseValue_string fuel r :
  parseValue (S fuel) (34 :: r) =
    match parseChars r with
    | Some (x, rest) => Some (JString x, rest)
    | None => None
    end.
Proof. reflexivity. Qed.

Lemma parseValue_quote fuel s rest :
  parseValue (S fuel) (quote s ++ rest) = Some (JString s, rest).
Proof.
  unfold quote. rewrite <- app_comm_cons, parseValue_string, <- app_assoc.
  change ([34] ++ rest) with (34 :: rest).
  by rewrite (parseChars_quoteUnits s rest).
Qed.

Lemma parseElements_last fuel v r rest :
  parseValue fuel r = Some (v, 93 :: rest) ->
  parseElements (S fuel) r = Some ([v], rest).
Proof. intros Hv. cbn [parseElements]. by rewrite Hv. Qed.

Lemma parseElements_more fuel v vs r r' rest :
  parseValue fuel r = Some (v, 44 :: r') ->
  parseElements fuel r' = Some (vs, rest) ->
  parseElements (S fuel) r = Some (v :: vs, rest).
Proof.
  intros Hv Hvs. cbn [parseElements]. rewrite Hv.
  change (skipSpaces (44 :: r')) with (44 :: r').
  change (44 =? 44) with true. cbv iota. by rewrite Hvs.
Qed.

Lemma parseElements_quotes (l : list jsstring) :
  forall fuel x rest, (length l + 2 <= fuel)%nat ->
  parseElements fuel (joinComma (List.map quote (x :: l)) ++ 93 :: rest)
    = Some (JString <$> x :: l, rest).
Proof.
  induction l as [|y l IH]; intros fuel x rest Hf.
  - destruct fuel as [|[|fuel]]; [simpl in Hf; lia..|].
    apply parseElements_last. apply parseValue_quote.
  - destruct fuel as [|[|fuel]]; [simpl in Hf; lia..|].
    change (joinComma (List.map quote (x :: y :: l)))
      with (quote x ++ 44 :: joinComma (List.map quote (y :: l))).
    rewrite <- app_assoc, (fmap_cons JString x).
    apply (parseElements_more _ _ (JString <$> y :: l) _
             (joinComma (List.map quote (y :: l)) ++ 93 :: rest)).
    + apply parseValue_quote.
    + apply IH. simpl in *. lia.
Qed.

Lemma length_joinComma_quotes x (l : list jsstring) :
  (length l + 2 <= length (joinComma (List.map quote (x :: l))))%nat.
Proof.
  revert x. induction l as [|y l IH]; intros x.
  - simpl. rewrite length_app. simpl. lia.
  - change (joinComma (List.map quote (x :: y :: l)))
      with (quote x ++ 44 :: joinComma (List.map quote (y :: l))).
    rewrite length_app. specialize (IH y). cbn [length] in *. lia.
Qed.

Lemma parseValue_array fuel t :
  parseValue (S fuel) (91 :: 34 :: t) =
    match parseElements fuel (34 :: t) with
    | Some (xs, rest) => Some (JArray xs, rest)
    | None => None
    end.
Proof. reflexivity. Qed.

(** [JSON.parse(JSON.stringify(a))] is the array [a] again, for every
    array of strings. *)
Lemma parse_stringifyStrings (a : list jsstring) :
  parse (stringifyStrings a) = Some (JArray (JString <$> a)).
Proof.
  destruct a as [|x l]; [done|].
  unfold parse, stringifyStrings.
  pose proof (length_joinComma_quotes x l) as Hlen.
  pose proof (parseElements_quotes l
                (length (91 :: joinComma (List.map quote (x :: l)) ++ [93]))
                x []) as Hel.
  destruct (joinComma (List.map quote (x :: l))) as [|q t] eqn:Ht.
  { simpl in Hlen. lia. }
  assert (q = 34) as ->.
  { destruct l; simpl in Ht; by injection Ht as <- _. }
  cbn [app]. rewrite parseValue_array.
  cbn [app] in Hel. rewrite Hel; [done|].
  cbn [length] in *. rewrite length_app. simpl. lia.
Qed.

End JsonRoundTrip.

(** ** The statements of a save *)

Section Statements.

Import Store.

Lemma set_users_same db : set_users (users db) (nextId db) db = db.
Proof. by destruct db. Qed.

Lemma set_papers_same db : set_papers (papers db) db = db.
Proof. by destruct db. Qed.

(** What [user_upsert] leaves: the other tables as they were, and a table
    of users on which the same upsert changes nothing. *)
Lemma user_upsert_run e n db :
  exists u db',
    user_upsert e n db = (Resolved u, db') /\
    papers db' = papers db /\ savedPapers db' = savedPapers db /\
    topics db' = topics db /\ paperTopics db' = paperTopics db /\
    email u = e /\
    forall db'', users db'' = users db' ->
      user_upsert e n db'' = (Resolved u, db'').
Proof.
  unfold user_upsert, statement.
  destruct (List.find (hasEmail e) (users db)) as [u0|] eqn:E.
  - eexists _, _. split; [reflexivity|]. simpl. repeat (split; [done|]).
    split.
    { apply find_some in E as [_ E]. unfold hasEmail in E.
      by apply bool_decide_eq_true in E. }
    intros db'' Hu. rewrite Hu, find_updateWhere, E by done. simpl.
    rewrite updateWhere_idem by done. rewrite <- Hu, set_users_same. done.
  - assert (Hc : hasEmail e {| user_id := nextId db; email := e; name := n |} = true).
    { by apply bool_decide_eq_true. }
    eexists _, _. split; [reflexivity|]. simpl. repeat (split; [done|]).
    intros db'' Hu. rewrite Hu, find_snoc, E, Hc.
    rewrite updateWhere_app, (updateWhere_none _ _ _ E). simpl. rewrite Hc.
    change (renamed n _) with {| user_id := nextId db; email := e; name := n |}.
    by rewrite <- Hu, set_users_same.
Qed.

Lemma paper_upsert_run k upd cre db :
  (forall r, Store.id (upd r) = Store.id r) -> (forall r, upd (upd r) = upd r) ->
  Store.id cre = k -> upd cre = cre ->
  exists db',
    paper_upsert k upd cre db = (Resolved tt, db') /\
    users db' = users db /\ savedPapers db' = savedPapers db /\
    topics db' = topics db /\ paperTopics db' = paperTopics db /\
    nextId db' = nextId db /\
    paper_findUnique k db' =
      Some (match paper_findUnique k db with Some r => upd r | None => cre end) /\
    Store.id <$> papers db' =
      (Store.id <$> papers db) ++
      match paper_findUnique k db with Some _ => [] | None => [k] end /\
    forall db'', papers db'' = papers db' ->
      paper_upsert k upd cre db'' = (Resolved tt, db'').
Proof.
  intros Hid Hidem Hcre Hfix.
  assert (Hsel : forall r, hasId k (upd r) = hasId k r).
  { intros r. unfold hasId. by rewrite Hid. }
  unfold paper_upsert, statement, paper_findUnique.
  destruct (List.find (hasId k) (papers db)) as [r|] eqn:E.
  - eexists. split; [reflexivity|]. simpl. repeat (split; [done|]).
    split; [by rewrite find_updateWhere, E|].
    split; [by rewrite (fmap_updateWhere Store.id), app_nil_r|].
    intros db'' Hp. rewrite Hp, find_updateWhere, E by done. simpl.
    rewrite updateWhere_idem by done. by rewrite <- Hp, set_papers_same.
  - assert (Hc : hasId k cre = true) by (by apply bool_decide_eq_true).
    eexists. split; [reflexivity|]. simpl. repeat (split; [done|]).
    split; [by rewrite find_snoc, E, Hc|].
    split; [rewrite fmap_app; simpl; by rewrite Hcre|].
    intros db'' Hp. rewrite Hp, find_snoc, E, Hc.
    rewrite updateWhere_app, (updateWhere_none _ _ _ E). simpl.
    by rewrite Hc, Hfix, <- Hp, set_papers_same.
Qed.

Lemma savedPaper_upsert_run u k db :
  exists db',
    savedPaper_upsert u k db = (Resolved tt, db') /\
    papers db' = papers db /\ users db' = users db /\
    topics db' = topics db /\ paperTopics db' = paperTopics db /\
    nextId db' = nextId db /\
    is_Some (savedPaper_findUnique u k db') /\
    forall db'', savedPapers db'' = savedPapers db' ->
      savedPaper_upsert u k db'' = (Resolved tt, db'').
Proof.
  unfold savedPaper_upsert, statement, savedPaper_findUnique.
  destruct (List.find (isLink u k) (savedPapers db)) as [s|] eqn:E.
  - eexists. split; [reflexivity|]. simpl. split_and!; try done.
    intros db'' Hs. by rewrite Hs, E.
  - assert (Hl : isLink u k {| userId := u; paperId := k |} = true).
    { by apply bool_decide_eq_true. }
    eexists. split; [reflexivity|]. simpl. split_and!; try done.
    all: try (by rewrite find_snoc, E, Hl).
    intros db'' Hs. by rewrite Hs, find_snoc, E, Hl.
Qed.

End Statements.

Section Save.

Import Store Actions System.

Lemma getCurrentUser_resolved w db user dbA :
  getCurrentUser w db = (Resolved user, dbA) ->
  papers dbA = papers db /\ savedPapers dbA = savedPapers db /\
  topics dbA = topics db /\ paperTopics dbA = paperTopics db /\
  forall db', users db' = users dbA -> getCurrentUser w db' = (Resolved user, db').
Proof.
  unfold getCurrentUser. destruct (currentUser w) as [cu|]; [|done].
  destruct (negb _); [done|].
  destruct (user_upsert_run (default [] (head (emailAddresses cu)))
              (displayName cu) db)
    as (u & db' & Hrun & HP & HS & HT & HE & _ & Hstable).
  rewrite Hrun. intros [= <- <-]. by split_and!.
Qed.

Context `{DateBuiltins}.

Lemma refreshed_id paper date r : Store.id (refreshed paper date r) = Store.id r.
Proof. done. Qed.

Lemma refreshed_idem paper date r :
  refreshed paper date (refreshed paper date r) = refreshed paper date r.
Proof. unfold refreshed. simpl. by destruct (Arxiv.pdfLink paper). Qed.

Lemma refreshed_created paper date :
  refreshed paper date (created paper date) = created paper date.
Proof. unfold refreshed, created. simpl. by destruct (Arxiv.pdfLink paper). Qed.

(** The three statements of a call of [savePaperAction] that returns. *)
Lemma savePaperAction_resolved w paper db job db1 :
  savePaperAction w paper db = (Resolved job, db1) ->
  exists user date dbA dbB,
    getCurrentUser w db = (Resolved user, dbA) /\
    Date_parse (Arxiv.published paper) = Some date /\
    paper_upsert (Arxiv.id paper) (refreshed paper date) (created paper date) dbA
      = (Resolved tt, dbB) /\
    savedPaper_upsert (user_id user) (Arxiv.id paper) dbB = (Resolved tt, db1) /\
    job = if present (Arxiv.pdfLink paper) then Some paper else None.
Proof.
  unfold savePaperAction, mbind, M_bind, mret, M_ret.
  destruct (getCurrentUser w db) as [[user|e] dbA] eqn:EU; [|done].
  destruct (Date_parse (Arxiv.published paper)) as [date|] eqn:ED; [|done].
  destruct (paper_upsert _ _ _ dbA) as [[[]|e] dbB] eqn:EP; [|done].
  destruct (savedPaper_upsert _ _ dbB) as [[[]|e] dbC] eqn:EL; [|done].
  intros [= <- <-]. exists user, date, dbA, dbB. by split_and!.
Qed.

Lemma savePaperAction_intro w paper db user date dbA dbB db1 :
  getCurrentUser w db = (Resolved user, dbA) ->
  Date_parse (Arxiv.published paper) = Some date ->
  paper_upsert (Arxiv.id paper) (refreshed paper date) (created paper date) dbA
    = (Resolved tt, dbB) ->
  savedPaper_upsert (user_id user) (Arxiv.id paper) dbB = (Resolved tt, db1) ->
  savePaperAction w paper db =
    (Resolved (if present (Arxiv.pdfLink paper) then Some paper else None), db1).
Proof.
  intros HU HD HP HL. unfold savePaperAction, mbind, M_bind, mret, M_ret.
  by rewrite HU, HD, HP, HL.
Qed.

(** C1: when a save has returned, on a store that meets the uniqueness
    constraints, the same save by the same user returns again and leaves
    the whole store as the first one left it: every column of every row
    is as before, the catalog has exactly one Paper row with the
    identifier of the record, and the user has exactly one link to it. *)
Theorem savePaperAction_idempotent w paper db job db1 :
  consistent db ->
  savePaperAction w paper db = (Resolved job, db1) ->
  savePaperAction w paper db1 = (Resolved job, db1) /\
  length (List.filter (hasId (Arxiv.id paper)) (papers db1)) = 1%nat /\
  exists user,
    getCurrentUser w db1 = (Resolved user, db1) /\
    length (List.filter (isLink (user_id user) (Arxiv.id paper)) (savedPapers db1))
      = 1%nat.
Proof.
  intros Hc Hsave.
  pose proof (consistent_savePaperAction w paper db Hc) as Hc1.
  rewrite Hsave in Hc1. simpl in Hc1. destruct Hc1 as (HuP & _ & HuL).
  destruct (savePaperAction_resolved _ _ _ _ _ Hsave)
    as (user & date & dbA & dbB & HU & HD & HP & HL & ->).
  destruct (getCurrentUser_resolved _ _ _ _ HU) as (_ & _ & _ & _ & HUs).
  destruct (paper_upsert_run (Arxiv.id paper) (refreshed paper date)
              (created paper date) dbA (refreshed_id paper date)
              (refreshed_idem paper date) eq_refl (refreshed_created paper date))
    as (dbB' & HP' & HPu & _ & _ & _ & _ & HPf & _ & HPs).
  rewrite HP in HP'. injection HP' as <-.
  destruct (savedPaper_upsert_run (user_id user) (Arxiv.id paper) dbB)
    as (db1' & HL' & HLp & HLu & _ & _ & _ & HLf & HLs).
  rewrite HL in HL'. injection HL' as <-.
  assert (HU1 : getCurrentUser w db1 = (Resolved user, db1)).
  { apply HUs. by rewrite HLu, HPu. }
  split; [|split].
  - apply (savePaperAction_intro w paper db1 user date db1 db1); try done.
    + by apply HPs.
    + by apply HLs.
  - apply (filter_key_unique Store.id); [done|].
    unfold paper_findUnique in HPf. rewrite HLp. unfold hasId in HPf.
    by rewrite HPf.
  - exists user. split; [done|].
    by apply (filter_key_unique linkKey (user_id user, Arxiv.id paper)).
Qed.

End Save.

(** ** Soundness of the store *)

Section Soundness.

Import Store Actions System.

Lemma find_hasId_elem k (rows : list Paper) :
  is_Some (List.find (hasId k) rows) <-> k ∈ Store.id <$> rows.
Proof.
  split.
  - intros [r Hr]. apply find_some in Hr as [Hin Hk].
    apply bool_decide_eq_true in Hk. subst k.
    apply list_elem_of_fmap. exists r. split; [done|]. by apply list_elem_of_In.
  - intros Hin. destruct (List.find (hasId k) rows) eqn:E; [by eexists|].
    by apply (find_none_not_in Store.id) in E.
Qed.

Lemma elem_of_updateWhere {A} (sel : A -> bool) f rows (x : A) :
  x ∈ updateWhere sel f rows -> x ∈ rows \/ exists r, r ∈ rows /\ x = f r.
Proof.
  induction rows as [|r rows IH]; simpl; [by intros ?%elem_of_nil|].
  rewrite elem_of_cons. intros [->|Hin].
  - destruct (sel r); [right; exists r|left]; rewrite elem_of_cons; auto.
  - destruct (IH Hin) as [?|(r' & ? & ?)]; [left|right; exists r'];
      rewrite elem_of_cons; auto.
Qed.

Lemma elem_of_filter_bool {A} (sel : A -> bool) rows (x : A) :
  x ∈ List.filter sel rows -> x ∈ rows.
Proof.
  rewrite !list_elem_of_In, filter_In. tauto.
Qed.

(** Soundness only depends on the identifiers of the papers, on the links
    and on the [authors] column. *)
Lemma sound_transfer db db' :
  sound db ->
  (forall k, k ∈ Store.id <$> papers db -> k ∈ Store.id <$> papers db') ->
  (forall s, s ∈ savedPapers db' ->
     s ∈ savedPapers db \/ paperId s ∈ Store.id <$> papers db') ->
  (forall r, r ∈ papers db' ->
     r ∈ papers db \/ is_Some (Json.parse (authors r))) ->
  sound db'.
Proof.
  intros [Href Hjs] Hids Hlinks Hrows. split.
  - intros s Hs. destruct (Hlinks s Hs) as [?|?]; [|done]. by apply Hids, Href.
  - intros r Hr. destruct (Hrows r Hr) as [?|?]; [|done]. by apply Hjs.
Qed.

Lemma sound_user_upsert e n : preserves sound (user_upsert e n).
Proof.
  apply preserves_statement. intros db Hs.
  destruct (List.find (hasEmail e) (users db)); simpl;
    (apply (sound_transfer db); [done|simpl; auto..]).
Qed.

Lemma sound_paper_upsert k upd cre :
  (forall r, Store.id (upd r) = Store.id r) ->
  (forall r, is_Some (Json.parse (authors (upd r)))) ->
  is_Some (Json.parse (authors cre)) ->
  preserves sound (paper_upsert k upd cre).
Proof.
  intros Hid Hupd Hcre. apply preserves_statement. intros db Hs.
  destruct (paper_findUnique k db); simpl.
  - apply (sound_transfer db); [done|simpl..]; auto.
    + intros k'. by rewrite (fmap_updateWhere Store.id).
    + intros r Hr. apply elem_of_updateWhere in Hr as [?|(r' & _ & ->)]; auto.
  - apply (sound_transfer db); [done|simpl..]; auto.
    + intros k' Hk'. rewrite fmap_app. apply elem_of_app. by left.
    + intros r Hr. apply elem_of_app in Hr as [?|Hr]; [by left|].
      apply list_elem_of_singleton in Hr as ->. by right.
Qed.

Lemma sound_savedPaper_upsert u k db :
  sound db -> k ∈ Store.id <$> papers db -> sound (snd (savedPaper_upsert u k db)).
Proof.
  intros Hs Hk. unfold savedPaper_upsert, statement.
  destruct (savedPaper_findUnique u k db) as [entry|]; simpl; [done|].
  apply (sound_transfer db); [done|simpl..]; auto.
  intros s Hin. apply elem_of_app in Hin as [?|Hin]; [by left|].
  apply list_elem_of_singleton in Hin as ->. by right.
Qed.

Lemma sound_savedPaper_delete u k : preserves sound (savedPaper_delete u k).
Proof.
  intros db Hs. unfold savedPaper_delete.
  destruct (savedPaper_findUnique u k db) as [entry|]; simpl; [|done].
  apply (sound_transfer db); [done|simpl..]; auto.
  intros s Hin. left. by apply elem_of_filter_bool in Hin.
Qed.

Lemma sound_topic_upsert n : preserves sound (topic_upsert n).
Proof.
  apply preserves_statement. intros db Hs.
  destruct (topic_findByName n db); simpl; [done|].
  apply (sound_transfer db); [done|simpl; auto..].
Qed.

Lemma sound_connect k i : preserves sound (connect k i).
Proof.
  intros db Hs. unfold connect.
  destruct (List.find (hasTopicId i) (topics db)); simpl; [|done].
  apply (sound_transfer db); [done|simpl; auto..].
Qed.

Lemma sound_disconnect k i : preserves sound (disconnect k i).
Proof.
  apply preserves_statement. intros db Hs. simpl.
  apply (sound_transfer db); [done|simpl; auto..].
Qed.

Lemma sound_connectOrCreateAll k names : preserves sound (connectOrCreateAll k names).
Proof.
  induction names as [|n names IH]; simpl; [apply preserves_ret|].
  apply preserves_bind; [|done].
  apply preserves_bind; [apply sound_topic_upsert|].
  intros t. apply sound_connect.
Qed.

Lemma sound_paper_update k f nested :
  (forall r, Store.id (f r) = Store.id r) ->
  (forall r, authors (f r) = authors r) ->
  preserves sound nested -> preserves sound (paper_update k f nested).
Proof.
  intros Hid Hau Hn. apply preserves_transaction. intros db Hs.
  destruct (paper_findUnique k db); [|done].
  apply Hn. apply (sound_transfer db); [done|simpl..]; auto.
  - intros k'. by rewrite (fmap_updateWhere Store.id).
  - intros r Hr. apply elem_of_updateWhere in Hr as [?|(r' & Hr' & ->)]; [by left|].
    right. rewrite Hau. by apply Hs.
Qed.

Lemma sound_includePaper entry : preserves sound (includePaper entry).
Proof.
  intros db HI. unfold includePaper. by destruct (paper_findUnique _ db).
Qed.

Lemma sound_includePapers entries : preserves sound (includePapers entries).
Proof.
  induction entries as [|entry entries IH]; simpl; [apply preserves_ret|].
  apply preserves_bind; [apply sound_includePaper|]. intros p.
  apply preserves_bind; [done|]. intros ps. apply preserves_ret.
Qed.

Lemma sound_storeAnalysis k result : preserves sound (storeAnalysis k result).
Proof.
  unfold storeAnalysis.
  repeat (apply preserves_bind; [apply preserves_await|intros ?]).
  apply sound_paper_update; [done|done|apply sound_connectOrCreateAll].
Qed.

Lemma sound_getCurrentUser w : preserves sound (getCurrentUser w).
Proof.
  unfold getCurrentUser. destruct (currentUser w) as [cu|]; [|apply preserves_throw].
  destruct (negb _); [apply preserves_throw|apply sound_user_upsert].
Qed.

Context `{DateBuiltins}.

Lemma sound_savePaperAction w paper : preserves sound (savePaperAction w paper).
Proof.
  intros db Hs. unfold savePaperAction, mbind, M_bind.
  pose proof (sound_getCurrentUser w db Hs) as HA.
  destruct (getCurrentUser w db) as [[user|e] dbA]; [|done]. simpl in HA.
  destruct (Date_parse (Arxiv.published paper)) as [date|]; [|done].
  assert (Hjson : forall a, is_Some (Json.parse (Json.stringifyStrings a))).
  { intros a. rewrite parse_stringifyStrings. by eexists. }
  pose proof (sound_paper_upsert (Arxiv.id paper) (refreshed paper date)
                (created paper date) (refreshed_id paper date)
                (fun r => Hjson _) (Hjson _) dbA HA) as HB.
  destruct (paper_upsert_run (Arxiv.id paper) (refreshed paper date)
              (created paper date) dbA (refreshed_id paper date)
              (refreshed_idem paper date) eq_refl (refreshed_created paper date))
    as (dbB & HP & _ & _ & _ & _ & _ & HPf & _ & _).
  rewrite HP in HB |- *. simpl in HB.
  assert (Hk : Arxiv.id paper ∈ Store.id <$> papers dbB).
  { apply find_hasId_elem. unfold paper_findUnique in HPf. by rewrite HPf. }
  pose proof (sound_savedPaper_upsert (user_id user) (Arxiv.id paper) dbB HB Hk) as HC.
  by destruct (savedPaper_upsert (user_id user) (Arxiv.id paper) dbB)
    as [[[]|e] dbC].
Qed.

Lemma sound_enrichment w paper : preserves sound (enrichment w paper).
Proof.
  apply preserves_tryCatch; [|intros e; apply preserves_ret].
  unfold enrichmentBody. destruct (Arxiv.pdfLink paper); [|apply preserves_throw].
  do 2 (apply preserves_bind; [apply preserves_await|intros ?]).
  apply sound_storeAnalysis.
Qed.

Lemma sound_regenerateSummaryAction w k : preserves sound (regenerateSummaryAction w k).
Proof.
  apply preserves_tryCatch; [|intros e; apply preserves_ret].
  apply preserves_bind; [apply preserves_query|]. intros [p|]; [|apply preserves_ret].
  destruct (negb _); [apply preserves_ret|].
  do 2 (apply preserves_bind; [apply preserves_await|intros ?]).
  apply preserves_bind; [apply sound_storeAnalysis|]. intros _.
  apply preserves_ret.
Qed.

Lemma sound_getPaperByIdAction w k : preserves sound (getPaperByIdAction w k).
Proof.
  unfold getPaperByIdAction.
  apply preserves_bind; [apply sound_getCurrentUser|]. intros user.
  apply preserves_bind; [apply preserves_query|]. intros [entry|].
  - apply preserves_bind; [apply sound_includePaper|]. intros p.
    apply preserves_bind; [apply preserves_query|]. intros ts.
    destruct (Json.parse _); [apply preserves_ret|apply preserves_throw].
  - apply preserves_ret.
Qed.

Lemma sound_getSavedPapersAction w : preserves sound (getSavedPapersAction w).
Proof.
  unfold getSavedPapersAction.
  apply preserves_bind; [apply sound_getCurrentUser|]. intros user.
  apply preserves_bind; [apply preserves_query|]. intros entries.
  apply preserves_bind; [apply sound_includePapers|]. intros ps.
  apply preserves_bind; [apply preserves_query|].
  intros [views|]; [apply preserves_ret|apply preserves_throw].
Qed.

Lemma sound_addTopicToPaperAction k n : preserves sound (addTopicToPaperAction k n).
Proof.
  apply preserves_bind; [apply sound_topic_upsert|]. intros t.
  apply sound_paper_update; [done|done|apply sound_connect].
Qed.

Lemma sound_removeTopicFromPaperAction k i :
  preserves sound (removeTopicFromPaperAction k i).
Proof. apply sound_paper_update; [done|done|apply sound_disconnect]. Qed.

Lemma sound_deletePaperAction w k : preserves sound (deletePaperAction w k).
Proof.
  apply preserves_bind; [apply sound_getCurrentUser|]. intros user.
  apply sound_savedPaper_delete.
Qed.

Lemma sound_perform w c db : sound db -> sound (fst (perform w c db)).
Proof.
  intros HI. destruct c; simpl.
  - by apply sound_getPaperByIdAction.
  - pose proof (sound_savePaperAction w paper db HI) as Hs.
    by destruct (savePaperAction w paper db) as [[[job|]|e] db'].
  - by apply sound_regenerateSummaryAction.
  - by apply sound_getSavedPapersAction.
  - by apply sound_addTopicToPaperAction.
  - by apply sound_removeTopicFromPaperAction.
  - by apply sound_deletePaperAction.
Qed.

Lemma sound_empty : sound Store.empty.
Proof. split; intros x Hx; by apply elem_of_nil in Hx. Qed.

(** Every state the system reaches satisfies the uniqueness constraints
    and is sound. *)
Lemma reachable_invariants s :
  reachable s -> consistent (store s) /\ sound (store s).
Proof.
  unfold reachable. revert s.
  apply (rtc_ind_r (fun s => consistent (store s) /\ sound (store s))).
  - split; [apply consistent_empty|apply sound_empty].
  - intros y z _ Hst [Hc Hs]. split; [by eapply consistent_step|].
    destruct Hst as [w c s0 _|w db before after job]; simpl.
    + by apply sound_perform.
    + by apply sound_enrichment.
Qed.

End Soundness.

(** ** Saving, regenerating and the detached unit *)

Section SaveProperties.

Import Store Actions System.
Context `{DateBuiltins}.

(** C2: a save of a record whose paper is in the catalog already leaves
    the summary, the institution and the topics of the row as they are,
    and sets title, authors, abstract, link and published date from the
    record, and the PDF link when the record has one. *)
Theorem savePaperAction_keeps_analysis w paper db r job db1 :
  paper_findUnique (Arxiv.id paper) db = Some r ->
  savePaperAction w paper db = (Resolved job, db1) ->
  exists r' date,
    paper_findUnique (Arxiv.id paper) db1 = Some r' /\
    Date_parse (Arxiv.published paper) = Some date /\
    summary r' = summary r /\
    institution r' = institution r /\
    topicsOf (Arxiv.id paper) db1 = topicsOf (Arxiv.id paper) db /\
    title r' = Arxiv.title paper /\
    authors r' = Json.stringifyStrings (Arxiv.authors paper) /\
    abstract r' = Some (Arxiv.summary paper) /\
    url r' = Some (Arxiv.link paper) /\
    publishedDate r' = Some date /\
    filePath r' = match Arxiv.pdfLink paper with
                  | Some l => Some l
                  | None => filePath r
                  end.
Proof.
  intros Hr Hsave.
  destruct (savePaperAction_resolved _ _ _ _ _ Hsave)
    as (user & date & dbA & dbB & HU & HD & HP & HL & ->).
  destruct (getCurrentUser_resolved _ _ _ _ HU) as (HUp & _ & HUt & HUe & _).
  destruct (paper_upsert_run (Arxiv.id paper) (refreshed paper date)
              (created paper date) dbA (refreshed_id paper date)
              (refreshed_idem paper date) eq_refl (refreshed_created paper date))
    as (dbB' & HP' & _ & _ & HPt & HPe & _ & HPf & _ & _).
  rewrite HP in HP'. injection HP' as <-.
  destruct (savedPaper_upsert_run (user_id user) (Arxiv.id paper) dbB)
    as (db1' & HL' & HLp & _ & HLt & HLe & _ & _ & _).
  rewrite HL in HL'. injection HL' as <-.
  assert (HrA : paper_findUnique (Arxiv.id paper) dbA = Some r).
  { unfold paper_findUnique. by rewrite HUp. }
  rewrite HrA in HPf.
  exists (refreshed paper date r), date. split_and!; try done.
  - unfold paper_findUnique. rewrite HLp. exact HPf.
  - unfold topicsOf. by rewrite HLt, HLe, HPt, HPe, HUt, HUe.
Qed.

(** C5: for a paper that is not in the catalog, and for one whose PDF link
    is null or empty, [regenerateSummaryAction] returns a failure result
    that says so, and the store (so the summary and the institution of
    every paper) is what it was. *)
Theorem regenerateSummaryAction_failure w paperId db :
  (paper_findUnique paperId db = None ->
   regenerateSummaryAction w paperId db =
     (Resolved {| success := false; error := Some (str "Paper not found") |}, db)) /\
  (forall paper,
     paper_findUnique paperId db = Some paper ->
     present (filePath paper) = false ->
     regenerateSummaryAction w paperId db =
       (Resolved {| success := false;
                    error := Some (str "No PDF available for this paper") |}, db)).
Proof.
  split.
  - intros Hf. unfold regenerateSummaryAction, tryCatch, mbind, M_bind, query.
    by rewrite Hf.
  - intros paper Hf Hp. unfold regenerateSummaryAction, tryCatch, mbind, M_bind, query.
    by rewrite Hf, Hp.
Qed.

Lemma enrichment_resolved w paper db : fst (enrichment w paper db) = Resolved tt.
Proof.
  unfold enrichment, tryCatch.
  by destruct (enrichmentBody w paper db) as [[[]|e] db'].
Qed.

Lemma savePaperAction_session w w' paper db :
  currentUser w' = currentUser w ->
  savePaperAction w' paper db = savePaperAction w paper db.
Proof.
  intros Hu. unfold savePaperAction, getCurrentUser. by rewrite Hu.
Qed.

(** C6: the detached unit settles without an exception in all
    surroundings and on every store, whatever its body raised; what
    [savePaperAction] returns and leaves only depends on the session, not
    on the host of the PDF files or on the model; and a save that returns
    detaches the unit exactly when the record has a PDF link. *)
Theorem enrichment_contained w paper db :
  (forall w' db', fst (enrichment w' paper db') = Resolved tt) /\
  (forall w', currentUser w' = currentUser w ->
     savePaperAction w' paper db = savePaperAction w paper db) /\
  (forall job db1,
     savePaperAction w paper db = (Resolved job, db1) ->
     job = if present (Arxiv.pdfLink paper) then Some paper else None).
Proof.
  split; [|split].
  - intros w' db'. apply enrichment_resolved.
  - intros w'. apply savePaperAction_session.
  - intros job db1 Hsave.
    by destruct (savePaperAction_resolved _ _ _ _ _ Hsave)
      as (user & date & dbA & dbB & _ & _ & _ & _ & ->).
Qed.

End SaveProperties.

(** ** Topics *)

Section Topics.

Import Store Actions System.

Lemma set_paperTopics_same db : set_paperTopics (paperTopics db) db = db.
Proof. by destruct db. Qed.

Lemma updateWhere_id {A} (sel : A -> bool) rows :
  updateWhere sel (fun r => r) rows = rows.
Proof.
  induction rows as [|r rows IH]; [done|]. simpl. rewrite IH.
  by destruct (sel r).
Qed.

Lemma find_app_Some {A} (sel : A -> bool) rows rows' x :
  List.find sel rows = Some x -> List.find sel (rows ++ rows') = Some x.
Proof.
  induction rows as [|r rows IH]; [done|]. simpl. by destruct (sel r).
Qed.

Lemma union_singleton_elem (X : gset (jsstring * N)) (x : jsstring * N) :
  x ∈ X -> X ∪ {[ x ]} = X.
Proof.
  intros Hx. apply set_eq. intros y. rewrite elem_of_union, elem_of_singleton.
  split; [by intros [?| ->]|by left].
Qed.

Lemma elem_of_union_singleton (X : gset (jsstring * N)) (x : jsstring * N) :
  x ∈ X ∪ {[ x ]}.
Proof. apply elem_of_union. right. by apply elem_of_singleton. Qed.

Lemma elem_of_union_old (X : gset (jsstring * N)) (x y : jsstring * N) :
  y ∈ X -> y ∈ X ∪ {[ x ]}.
Proof. intros Hy. apply elem_of_union. by left. Qed.

(** Get-or-create: the topic named [n] afterwards, and nothing else moved. *)
Lemma topic_upsert_run n db :
  exists t db',
    topic_upsert n db = (Resolved t, db') /\
    papers db' = papers db /\ paperTopics db' = paperTopics db /\
    topic_findByName n db' = Some t /\
    (forall n' t', topic_findByName n' db = Some t' ->
                   topic_findByName n' db' = Some t') /\
    (topic_findByName n db = Some t -> db' = db).
Proof.
  unfold topic_upsert, statement, topic_findByName.
  destruct (List.find (hasName n) (topics db)) as [t|] eqn:E.
  - exists t, db. by split_and!.
  - eexists _, _. split; [reflexivity|]. simpl. split_and!; try done.
    + rewrite find_snoc, E. unfold hasName. simpl. by rewrite bool_decide_true.
    + intros n' t'. apply find_app_Some.
Qed.

Lemma connect_run k t db :
  t ∈ topics db ->
  connect k (topic_id t) db =
    (Resolved tt, set_paperTopics (paperTopics db ∪ {[ (k, topic_id t) ]}) db).
Proof.
  intros Ht. unfold connect.
  destruct (List.find (hasTopicId (topic_id t)) (topics db)) eqn:E; [done|].
  exfalso. apply list_elem_of_In in Ht.
  apply (find_none _ _ E) in Ht. unfold hasTopicId in Ht.
  by rewrite bool_decide_true in Ht.
Qed.

Lemma topic_found_elem n t db : topic_findByName n db = Some t -> t ∈ topics db.
Proof. intros Hf. apply find_some in Hf as [? _]. by apply list_elem_of_In. Qed.

(** [connectOrCreate] cannot fail; it leaves the topic attached and every
    attachment in place. *)
Lemma connectOrCreate_run k n db :
  exists db',
    connectOrCreate k n db = (Resolved tt, db') /\
    papers db' = papers db /\
    attached k n db' /\
    (forall k' n', attached k' n' db -> attached k' n' db').
Proof.
  destruct (topic_upsert_run n db) as (t & dbT & Hup & HTp & HTe & HTf & HTmono & _).
  pose proof (connect_run k t dbT (topic_found_elem _ _ _ HTf)) as Hc.
  eexists. split.
  { unfold connectOrCreate, mbind, M_bind. rewrite Hup. exact Hc. }
  simpl. split_and!; [done| |].
  - exists t. split; [done|]. simpl. apply elem_of_union_singleton.
  - intros k' n' (t' & Hf' & He'). exists t'. split; [by apply HTmono|].
    simpl. rewrite HTe. by apply elem_of_union_old.
Qed.

Lemma connectOrCreate_attached k n db :
  attached k n db -> connectOrCreate k n db = (Resolved tt, db).
Proof.
  intros (t & Hf & He).
  destruct (topic_upsert_run n db) as (t' & dbT & Hup & _ & _ & HTf & _ & Hsame).
  unfold connectOrCreate, mbind, M_bind. rewrite Hup.
  assert (t' = t /\ dbT = db) as [-> ->].
  { unfold topic_upsert, statement in Hup. rewrite Hf in Hup.
    by injection Hup as <- <-. }
  rewrite (connect_run k t db (topic_found_elem _ _ _ Hf)).
  by rewrite union_singleton_elem, set_paperTopics_same.
Qed.

Lemma connectOrCreateAll_run k names db :
  exists db',
    connectOrCreateAll k names db = (Resolved tt, db') /\
    papers db' = papers db /\
    Forall (fun n => attached k n db') names /\
    (forall k' n', attached k' n' db -> attached k' n' db').
Proof.
  revert db. induction names as [|n names IH]; intros db.
  - exists db. by split_and!.
  - destruct (connectOrCreate_run k n db) as (db1 & H1 & Hp1 & Ha1 & Hm1).
    destruct (IH db1) as (db2 & H2 & Hp2 & Ha2 & Hm2).
    exists db2. split_and!.
    + cbn [connectOrCreateAll]. unfold mbind, M_bind at 1. by rewrite H1.
    + by rewrite Hp2.
    + constructor; [by apply Hm2|done].
    + intros k' n' Ha. by apply Hm2, Hm1.
Qed.

Lemma connectOrCreateAll_attached k names db :
  Forall (fun n => attached k n db) names ->
  connectOrCreateAll k names db = (Resolved tt, db).
Proof.
  induction 1 as [|n names Hn _ IH]; [done|].
  cbn [connectOrCreateAll]. unfold mbind, M_bind at 1.
  by rewrite (connectOrCreate_attached k n db Hn).
Qed.

Lemma addTopicToPaperAction_resolved p n db db1 :
  addTopicToPaperAction p n db = (Resolved tt, db1) ->
  is_Some (paper_findUnique p db1) /\
  attached p n db1 /\
  (forall k' n', attached k' n' db -> attached k' n' db1).
Proof.
  unfold addTopicToPaperAction, mbind, M_bind.
  destruct (topic_upsert_run n db) as (t & dbT & Hup & HTp & HTe & HTf & HTmono & _).
  rewrite Hup. unfold paper_update, transaction.
  destruct (paper_findUnique p dbT) as [row|] eqn:Hrow; [|done].
  rewrite updateWhere_id, set_papers_same.
  rewrite (connect_run p t dbT (topic_found_elem _ _ _ HTf)).
  intros [= <-]. split_and!.
  - unfold paper_findUnique in *. simpl. by rewrite Hrow.
  - exists t. split; [done|]. simpl. apply elem_of_union_singleton.
  - intros k' n' (t' & Hf' & He'). exists t'. split; [by apply HTmono|].
    simpl. rewrite HTe. by apply elem_of_union_old.
Qed.

Lemma addTopicToPaperAction_attached p n db :
  is_Some (paper_findUnique p db) -> attached p n db ->
  addTopicToPaperAction p n db = (Resolved tt, db).
Proof.
  intros [row Hrow] (t & Hf & He).
  unfold addTopicToPaperAction, mbind, M_bind, topic_upsert, statement.
  rewrite Hf. unfold paper_update, transaction. rewrite Hrow.
  rewrite updateWhere_id, set_papers_same.
  rewrite (connect_run p t db (topic_found_elem _ _ _ Hf)).
  by rewrite union_singleton_elem, set_paperTopics_same.
Qed.

Lemma analysed_idem s i r : analysed s i (analysed s i r) = analysed s i r.
Proof. unfold analysed. simpl. by destruct s as [[?|]|], i as [[?|]|]. Qed.

(** Storing the same analysis a second time changes nothing. *)
Lemma storeAnalysis_idempotent k result db db1 :
  storeAnalysis k result db = (Resolved tt, db1) ->
  storeAnalysis k result db1 = (Resolved tt, db1).
Proof.
  unfold storeAnalysis, mbind, M_bind, await.
  destruct (member result (str "summary")) as [s|]; [|done].
  destruct (member result (str "institution")) as [i|]; [|done].
  destruct (member result (str "topics")) as [t|]; [|done].
  destruct (topicItems t) as [items|]; [|done].
  destruct (stringColumn s) as [s'|]; [|done].
  destruct (stringColumn i) as [i'|]; [|done].
  destruct (topicNames items) as [names|]; [|done].
  unfold paper_update, transaction, paper_findUnique.
  destruct (List.find (hasId k) (papers db)) as [row|] eqn:Hrow; [|done].
  destruct (connectOrCreateAll_run k names
              (set_papers (updateWhere (hasId k) (analysed s' i') (papers db)) db))
    as (db' & Hrun & Hp & Hatt & _).
  rewrite Hrun. intros [= <-].
  rewrite Hp. simpl. rewrite find_updateWhere, Hrow by done. simpl.
  rewrite updateWhere_idem; [|done|apply analysed_idem].
  simpl in Hp. rewrite <- Hp, set_papers_same.
  by rewrite (connectOrCreateAll_attached k names db' Hatt).
Qed.

Lemma uniqueTopics_addTopicToPaperAction p n :
  preserves uniqueTopics (addTopicToPaperAction p n).
Proof.
  apply preserves_bind.
  - apply preserves_statement. intros db Hu. unfold topic_findByName.
    destruct (List.find (hasName n) (topics db)) eqn:E; simpl; [done|].
    unfold uniqueTopics. simpl. by apply (NoDup_key_snoc topic_name).
  - intros t. apply preserves_transaction. intros db Hu.
    destruct (paper_findUnique p db); [|done]. unfold connect. simpl.
    by destruct (List.find (hasTopicId (topic_id t)) (topics db)).
Qed.

Lemma uniqueTopics_topic_upsert n : preserves uniqueTopics (topic_upsert n).
Proof.
  apply preserves_statement. intros db Hu. unfold topic_findByName.
  destruct (List.find (hasName n) (topics db)) eqn:E; simpl; [done|].
  unfold uniqueTopics. simpl. by apply (NoDup_key_snoc topic_name).
Qed.

Lemma uniqueTopics_connect k i : preserves uniqueTopics (connect k i).
Proof.
  intros db Hu. unfold connect. by destruct (List.find (hasTopicId i) (topics db)).
Qed.

Lemma uniqueTopics_paper_update k f nested :
  preserves uniqueTopics nested -> preserves uniqueTopics (paper_update k f nested).
Proof.
  intros Hn. apply preserves_transaction. intros db Hu.
  destruct (paper_findUnique k db); [|done]. by apply Hn.
Qed.

Lemma uniqueTopics_connectOrCreateAll k names :
  preserves uniqueTopics (connectOrCreateAll k names).
Proof.
  induction names as [|n names IH]; simpl; [apply preserves_ret|].
  apply preserves_bind; [|done].
  apply preserves_bind; [apply uniqueTopics_topic_upsert|].
  intros t. apply uniqueTopics_connect.
Qed.

Lemma uniqueTopics_attach op : preserves uniqueTopics (attach op).
Proof.
  destruct op as [p n|k result]; simpl.
  - apply uniqueTopics_addTopicToPaperAction.
  - unfold storeAnalysis.
    repeat (apply preserves_bind; [apply preserves_await|intros ?]).
    apply uniqueTopics_paper_update, uniqueTopics_connectOrCreateAll.
Qed.

(** Neither way of attaching detaches anything, whether it returns or
    throws. *)
Lemma attached_frame k n db db' :
  topics db' = topics db -> paperTopics db' = paperTopics db ->
  attached k n db -> attached k n db'.
Proof.
  intros Ht Hp (t & Hf & He). exists t. unfold topic_findByName in *.
  by rewrite Ht, Hp.
Qed.

Lemma attached_topic_upsert k n n' : preserves (attached k n) (topic_upsert n').
Proof.
  intros db (t & Hf & He).
  destruct (topic_upsert_run n' db) as (t' & db' & Hup & _ & HTe & _ & Hmono & _).
  rewrite Hup. simpl. exists t. split; [by apply Hmono|by rewrite HTe].
Qed.

Lemma attached_connect k n k' i : preserves (attached k n) (connect k' i).
Proof.
  intros db (t & Hf & He). unfold connect.
  destruct (List.find (hasTopicId i) (topics db)); simpl; [|by exists t].
  exists t. split; [done|]. simpl. by apply elem_of_union_old.
Qed.

Lemma attached_paper_update k n k' f nested :
  preserves (attached k n) nested -> preserves (attached k n) (paper_update k' f nested).
Proof.
  intros Hn. apply preserves_transaction. intros db Ha.
  destruct (paper_findUnique k' db); [|done]. apply Hn.
  by apply (attached_frame k n db).
Qed.

Lemma attached_connectOrCreateAll k n k' names :
  preserves (attached k n) (connectOrCreateAll k' names).
Proof.
  induction names as [|n' names IH]; simpl; [apply preserves_ret|].
  apply preserves_bind; [|done].
  apply preserves_bind; [apply attached_topic_upsert|].
  intros t. apply attached_connect.
Qed.

Lemma attached_attach k n op : preserves (attached k n) (attach op).
Proof.
  destruct op as [p n'|k' result]; simpl.
  - unfold addTopicToPaperAction.
    apply preserves_bind; [apply attached_topic_upsert|].
    intros t. apply attached_paper_update, attached_connect.
  - unfold storeAnalysis.
    repeat (apply preserves_bind; [apply preserves_await|intros ?]).
    apply attached_paper_update, attached_connectOrCreateAll.
Qed.

(** An attachment that returns has attached every name it asked for. *)
Lemma attach_resolved op db db1 :
  attach op db = (Resolved tt, db1) ->
  Forall (fun n => attached (paperOf op) n db1) (namesOf op).
Proof.
  destruct op as [p n|k result]; simpl.
  - intros Hrun. constructor; [|constructor].
    by destruct (addTopicToPaperAction_resolved _ _ _ _ Hrun) as (_ & Ha & _).
  - unfold storeAnalysis, mbind, M_bind, await.
    destruct (member result (str "summary")) as [s|]; [|done].
    destruct (member result (str "institution")) as [i|]; [|done].
    destruct (member result (str "topics")) as [t|]; [|done].
    destruct (topicItems t) as [items|]; [|done].
    destruct (stringColumn s) as [s'|]; [|done].
    destruct (stringColumn i) as [i'|]; [|done].
    destruct (topicNames items) as [names|]; [|done].
    unfold paper_update, transaction.
    destruct (paper_findUnique k db) as [row|]; [|done].
    destruct (connectOrCreateAll_run k names
                (set_papers (updateWhere (hasId k) (analysed s' i') (papers db)) db))
      as (db' & Hrun & _ & Hatt & _).
    rewrite Hrun. by intros [= <-].
Qed.

(** Where every name is attached already, an attachment moves neither
    table, whether it returns or throws. *)
Lemma attach_attached op db :
  Forall (fun n => attached (paperOf op) n db) (namesOf op) ->
  topics (snd (attach op db)) = topics db /\
  paperTopics (snd (attach op db)) = paperTopics db.
Proof.
  destruct op as [p n|k result]; simpl.
  - intros Ha. apply Forall_cons in Ha as [Ha _].
    destruct (paper_findUnique p db) as [row|] eqn:Hrow.
    + by rewrite addTopicToPaperAction_attached.
    + destruct Ha as (t & Hf & He).
      unfold addTopicToPaperAction, mbind, M_bind, topic_upsert, statement.
      rewrite Hf. unfold paper_update, transaction. by rewrite Hrow.
  - unfold storeAnalysis, mbind, M_bind, await.
    destruct (member result (str "summary")) as [s|]; [|done].
    destruct (member result (str "institution")) as [i|]; [|done].
    destruct (member result (str "topics")) as [t|]; [|done].
    destruct (topicItems t) as [items|]; [|done].
    destruct (stringColumn s) as [s'|]; [|done].
    destruct (stringColumn i) as [i'|]; [|done].
    destruct (topicNames items) as [names|]; [|done].
    intros Ha. unfold paper_update, transaction.
    destruct (paper_findUnique k db) as [row|]; [|done].
    rewrite connectOrCreateAll_attached; [done|].
    eapply Forall_impl; [exact Ha|]. intros n. by apply attached_frame.
Qed.

Lemma find_head_filter {A} (sel : A -> bool) rows :
  List.find sel rows = head (List.filter sel rows).
Proof.
  induction rows as [|r rows IH]; [done|]. simpl. by destruct (sel r).
Qed.

(** With unique names, an attached name has one row, and the paper refers
    to that row. *)
Lemma attached_one k n db :
  uniqueTopics db -> attached k n db ->
  exists t,
    List.filter (hasName n) (topics db) = [t] /\
    topic_findByName n db = Some t /\ t ∈ topicsOf k db.
Proof.
  intros Hu (t & Hf & He). exists t.
  assert (Hone : length (List.filter (hasName n) (topics db)) = 1%nat).
  { apply (filter_key_unique topic_name); [done|].
    unfold topic_findByName, hasName in Hf. by rewrite Hf. }
  split_and!; [|done|].
  - unfold topic_findByName in Hf. rewrite find_head_filter in Hf.
    destruct (List.filter (hasName n) (topics db)) as [|x [|y l]]; try done.
    simpl in Hf. by injection Hf as ->.
  - pose proof (topic_found_elem _ _ _ Hf) as Ht.
    unfold topicsOf. rewrite list_elem_of_In, filter_In, <- list_elem_of_In.
    by rewrite bool_decide_eq_true.
Qed.

Lemma topicNames_strings names : topicNames (Json.JString <$> names) = Resolved names.
Proof.
  induction names as [|n names IH]; [done|].
  rewrite fmap_cons. cbn [topicNames]. by rewrite IH.
Qed.

(** The names of a well-formed analysis are the ones a merge asks for, and
    the enrichment unit that has its analysis is that merge. *)
Lemma namesOf_analysisOf k s i names :
  namesOf (ByMerge k (analysisOf s i names)) = names.
Proof.
  unfold namesOf, analysisOf.
  change (member _ (str "topics"))
    with (Resolved (A:=jsval) (Val (Json.JArray (Json.JString <$> names)))).
  simpl. by rewrite topicNames_strings.
Qed.

Lemma enrichment_attach w paper pdfLink data analysis db :
  Arxiv.pdfLink paper = Some pdfLink ->
  download w (secureUrl pdfLink) shortUserAgent = Resolved data ->
  Analyzer.analyzePdfBuffer (model w) data = Resolved analysis ->
  snd (enrichment w paper db) = snd (attach (ByMerge (Arxiv.id paper) analysis) db).
Proof.
  intros Hpdf Hdata Han.
  unfold enrichment, enrichmentBody, tryCatch, mbind, M_bind, await.
  rewrite Hpdf, Hdata, Han. simpl.
  by destruct (storeAnalysis (Arxiv.id paper) analysis db) as [[[]|e] db1].
Qed.

Lemma attachAll_app before after db :
  attachAll (before ++ after) db = attachAll after (attachAll before db).
Proof. apply fold_left_app. Qed.

Lemma attachAll_preserves (I : DB -> Prop) ops db :
  I db -> (forall op, preserves I (attach op)) -> I (attachAll ops db).
Proof.
  intros Hdb HI. revert db Hdb.
  induction ops as [|op ops IH]; intros db Hdb; [done|].
  simpl. apply IH. by apply HI.
Qed.

Context `{DateBuiltins}.

(** C9: no two Topic rows ever share a name.  That holds in every state
    the system reaches, and after every sequence of attachments, by hand
    ([addTopicToPaperAction]) or by the merge of an analysis, that starts
    from a store with unique names.  The enrichment unit that has
    downloaded and analysed its PDF is such a merge, and the names a
    merge asks for are the strings of the [topics] member of the
    analysis.  In the store a sequence of attachments leaves, each name
    that an attachment which returned asked for has exactly one Topic
    row, and the paper of that attachment refers to it; so two
    attachments of one name to two papers, in either way, leave one row
    referenced by both.  Attaching what is attached already adds no
    Topic row and no reference, and by hand it leaves the whole store as
    it is, as does storing the same analysis again. *)
Theorem topic_names_unique :
  (forall s, reachable s -> uniqueTopics (store s)) /\
  (forall db ops, uniqueTopics db -> uniqueTopics (attachAll ops db)) /\
  (forall w paper pdfLink data analysis db,
     Arxiv.pdfLink paper = Some pdfLink ->
     download w (secureUrl pdfLink) shortUserAgent = Resolved data ->
     Analyzer.analyzePdfBuffer (model w) data = Resolved analysis ->
     snd (enrichment w paper db)
       = snd (attach (ByMerge (Arxiv.id paper) analysis) db)) /\
  (forall k s i names, namesOf (ByMerge k (analysisOf s i names)) = names) /\
  (forall db before op after n,
     uniqueTopics db ->
     fst (attach op (attachAll before db)) = Resolved tt ->
     n ∈ namesOf op ->
     exists t,
       List.filter (hasName n) (topics (attachAll (before ++ op :: after) db)) = [t] /\
       t ∈ topicsOf (paperOf op) (attachAll (before ++ op :: after) db)) /\
  (forall db op1 op2 n db1 db2,
     uniqueTopics db ->
     attach op1 db = (Resolved tt, db1) ->
     attach op2 db1 = (Resolved tt, db2) ->
     n ∈ namesOf op1 -> n ∈ namesOf op2 ->
     length (List.filter (hasName n) (topics db2)) = 1%nat /\
     exists t, topic_findByName n db2 = Some t /\
               t ∈ topicsOf (paperOf op1) db2 /\ t ∈ topicsOf (paperOf op2) db2) /\
  (forall db op,
     (forall n, n ∈ namesOf op -> attached (paperOf op) n db) ->
     topics (snd (attach op db)) = topics db /\
     paperTopics (snd (attach op db)) = paperTopics db) /\
  (forall db p n db1,
     addTopicToPaperAction p n db = (Resolved tt, db1) ->
     addTopicToPaperAction p n db1 = (Resolved tt, db1)) /\
  (forall db k result db1,
     storeAnalysis k result db = (Resolved tt, db1) ->
     storeAnalysis k result db1 = (Resolved tt, db1)).
Proof.
  split_and!.
  - intros s Hs. by destruct (reachable_invariants s Hs) as [(_ & ? & _) _].
  - intros db ops Hu. by apply attachAll_preserves, uniqueTopics_attach.
  - apply enrichment_attach.
  - apply namesOf_analysisOf.
  - intros db before op after n Hu Hrun Hn.
    rewrite attachAll_app. simpl.
    set (db0 := attachAll before db) in *.
    destruct (attach op db0) as [o db1] eqn:Hop. simpl in Hrun. subst o.
    pose proof (attach_resolved op db0 db1 Hop) as Hatt.
    rewrite Forall_forall in Hatt. specialize (Hatt n Hn).
    assert (Hu1 : uniqueTopics db1).
    { pose proof (uniqueTopics_attach op db0) as Hp. rewrite Hop in Hp.
      apply Hp. by apply attachAll_preserves, uniqueTopics_attach. }
    destruct (attached_one (paperOf op) n (attachAll after db1)) as (t & Hf & _ & Ht).
    + by apply attachAll_preserves, uniqueTopics_attach.
    + by apply attachAll_preserves, attached_attach.
    + by exists t.
  - intros db op1 op2 n db1 db2 Hu H1 H2 Hn1 Hn2.
    pose proof (attach_resolved op1 db db1 H1) as Ha1.
    pose proof (attach_resolved op2 db1 db2 H2) as Ha2.
    rewrite Forall_forall in Ha1, Ha2.
    specialize (Ha1 n Hn1). specialize (Ha2 n Hn2).
    pose proof (attached_attach (paperOf op1) n op2 db1 Ha1) as Ha1'.
    rewrite H2 in Ha1'. simpl in Ha1'.
    assert (Hu2 : uniqueTopics db2).
    { pose proof (uniqueTopics_attach op2 db1) as Hp. rewrite H2 in Hp.
      apply Hp. pose proof (uniqueTopics_attach op1 db Hu) as Hp1.
      by rewrite H1 in Hp1. }
    destruct (attached_one _ n db2 Hu2 Ha1') as (t & Hf & Hfind & Ht1).
    destruct (attached_one _ n db2 Hu2 Ha2) as (t' & _ & Hfind' & Ht2).
    rewrite Hfind in Hfind'. injection Hfind' as <-.
    split; [by rewrite Hf|]. by exists t.
  - intros db op Ha. apply attach_attached. by apply Forall_forall.
  - intros db p n db1 H1.
    destruct (addTopicToPaperAction_resolved _ _ _ _ H1) as (Hp & Ha & _).
    by apply addTopicToPaperAction_attached.
  - intros db k result db1. apply storeAnalysis_idempotent.
Qed.

End Topics.

(** ** Reading the library *)

Section Authors.

Import Store Actions System.

Variables (k : jsstring) (a : list jsstring).

Lemma holdsAuthors_papers db db' :
  papers db' = papers db -> holdsAuthors k a db -> holdsAuthors k a db'.
Proof.
  intros Hp (row & Hrow & Hau). exists row. split; [|done].
  unfold paper_findUnique in *. by rewrite Hp.
Qed.

Lemma holdsAuthors_user_upsert e n : preserves (holdsAuthors k a) (user_upsert e n).
Proof.
  apply preserves_statement. intros db. apply holdsAuthors_papers.
  by destruct (List.find (hasEmail e) (users db)).
Qed.

Lemma holdsAuthors_savedPaper_upsert u k' :
  preserves (holdsAuthors k a) (savedPaper_upsert u k').
Proof.
  apply preserves_statement. intros db. apply holdsAuthors_papers.
  by destruct (savedPaper_findUnique u k' db).
Qed.

Lemma holdsAuthors_savedPaper_delete u k' :
  preserves (holdsAuthors k a) (savedPaper_delete u k').
Proof.
  intros db. apply holdsAuthors_papers. unfold savedPaper_delete.
  by destruct (savedPaper_findUnique u k' db).
Qed.

Lemma holdsAuthors_topic_upsert n : preserves (holdsAuthors k a) (topic_upsert n).
Proof.
  apply preserves_statement. intros db. apply holdsAuthors_papers.
  by destruct (topic_findByName n db).
Qed.

Lemma holdsAuthors_connect k' i : preserves (holdsAuthors k a) (connect k' i).
Proof.
  intros db. apply holdsAuthors_papers. unfold connect.
  by destruct (List.find (hasTopicId i) (topics db)).
Qed.

Lemma holdsAuthors_disconnect k' i : preserves (holdsAuthors k a) (disconnect k' i).
Proof. apply preserves_statement. intros db. by apply holdsAuthors_papers. Qed.

Lemma holdsAuthors_connectOrCreateAll k' names :
  preserves (holdsAuthors k a) (connectOrCreateAll k' names).
Proof.
  induction names as [|n names IH]; simpl; [apply preserves_ret|].
  apply preserves_bind; [|done].
  apply preserves_bind; [apply holdsAuthors_topic_upsert|].
  intros t. apply holdsAuthors_connect.
Qed.

Lemma holdsAuthors_updateWhere k' f db :
  (forall r, Store.id (f r) = Store.id r) ->
  (forall r, Store.id r = k -> k' = k -> authors (f r) = Json.stringifyStrings a) ->
  holdsAuthors k a db ->
  holdsAuthors k a (set_papers (updateWhere (hasId k') f (papers db)) db).
Proof.
  intros Hid Hau (row & Hrow & Hrau).
  assert (Hk : Store.id row = k).
  { apply find_some in Hrow as [_ Hk]. by apply bool_decide_eq_true in Hk. }
  exists (if hasId k' row then f row else row). split.
  - unfold paper_findUnique in *. simpl.
    rewrite (find_updateWhere_other (hasId k') (hasId k)), Hrow; [done|].
    intros r. unfold hasId. by rewrite Hid.
  - destruct (hasId k' row) eqn:E; [|done].
    apply bool_decide_eq_true in E. apply Hau; [done|]. by rewrite <- E.
Qed.

Lemma holdsAuthors_paper_upsert k' upd cre :
  (forall r, Store.id (upd r) = Store.id r) ->
  (k' = k -> forall r, authors (upd r) = Json.stringifyStrings a) ->
  preserves (holdsAuthors k a) (paper_upsert k' upd cre).
Proof.
  intros Hid Hau. apply preserves_statement. intros db Hh.
  destruct (paper_findUnique k' db); simpl.
  - apply holdsAuthors_updateWhere; [done| |done]. intros r _ Hk. by apply Hau.
  - destruct Hh as (row & Hrow & Hrau). exists row. split; [|done].
    unfold paper_findUnique in *. simpl. by apply find_app_Some.
Qed.

Lemma holdsAuthors_paper_update k' f nested :
  (forall r, Store.id (f r) = Store.id r) ->
  (forall r, authors (f r) = authors r) ->
  preserves (holdsAuthors k a) nested ->
  preserves (holdsAuthors k a) (paper_update k' f nested).
Proof.
  intros Hid Hau Hn. apply preserves_transaction. intros db Hh.
  destruct (paper_findUnique k' db); [|done].
  apply Hn.
  destruct Hh as (row & Hrow & Hrau).
  assert (Hk : Store.id row = k).
  { apply find_some in Hrow as [_ Hk]. by apply bool_decide_eq_true in Hk. }
  exists (if hasId k' row then f row else row). split.
  - unfold paper_findUnique in *. simpl.
    rewrite (find_updateWhere_other (hasId k') (hasId k)), Hrow; [done|].
    intros r. unfold hasId. by rewrite Hid.
  - destruct (hasId k' row); by rewrite ?Hau.
Qed.

Lemma holdsAuthors_includePaper entry : preserves (holdsAuthors k a) (includePaper entry).
Proof.
  intros db HI. unfold includePaper. by destruct (paper_findUnique _ db).
Qed.

Lemma holdsAuthors_includePapers entries :
  preserves (holdsAuthors k a) (includePapers entries).
Proof.
  induction entries as [|entry entries IH]; simpl; [apply preserves_ret|].
  apply preserves_bind; [apply holdsAuthors_includePaper|]. intros p.
  apply preserves_bind; [done|]. intros ps. apply preserves_ret.
Qed.

Lemma holdsAuthors_storeAnalysis k' result :
  preserves (holdsAuthors k a) (storeAnalysis k' result).
Proof.
  unfold storeAnalysis.
  repeat (apply preserves_bind; [apply preserves_await|intros ?]).
  apply holdsAuthors_paper_update; [done|done|apply holdsAuthors_connectOrCreateAll].
Qed.

Lemma holdsAuthors_getCurrentUser w : preserves (holdsAuthors k a) (getCurrentUser w).
Proof.
  unfold getCurrentUser. destruct (currentUser w) as [cu|]; [|apply preserves_throw].
  destruct (negb _); [apply preserves_throw|apply holdsAuthors_user_upsert].
Qed.

Context `{DateBuiltins}.

Lemma holdsAuthors_savePaperAction w paper :
  (Arxiv.id paper = k -> Arxiv.authors paper = a) ->
  preserves (holdsAuthors k a) (savePaperAction w paper).
Proof.
  intros Hkeep. unfold savePaperAction.
  apply preserves_bind; [apply holdsAuthors_getCurrentUser|]. intros user.
  apply preserves_bind.
  - destruct (Date_parse _); [|apply preserves_throw].
    apply holdsAuthors_paper_upsert; [done|].
    intros Hk r. simpl. by rewrite Hkeep.
  - intros _. apply preserves_bind; [apply holdsAuthors_savedPaper_upsert|].
    intros _. apply preserves_ret.
Qed.

Lemma holdsAuthors_enrichment w paper : preserves (holdsAuthors k a) (enrichment w paper).
Proof.
  apply preserves_tryCatch; [|intros e; apply preserves_ret].
  unfold enrichmentBody. destruct (Arxiv.pdfLink paper); [|apply preserves_throw].
  do 2 (apply preserves_bind; [apply preserves_await|intros ?]).
  apply holdsAuthors_storeAnalysis.
Qed.

Lemma holdsAuthors_perform w c db :
  keepsAuthors k a c -> holdsAuthors k a db -> holdsAuthors k a (fst (perform w c db)).
Proof.
  intros Hkeep Hh. destruct c; simpl.
  - revert db Hh. unfold getPaperByIdAction.
    apply preserves_bind; [apply holdsAuthors_getCurrentUser|]. intros user.
    apply preserves_bind; [apply preserves_query|]. intros [entry|].
    + apply preserves_bind; [apply holdsAuthors_includePaper|]. intros p.
      apply preserves_bind; [apply preserves_query|]. intros ts.
      destruct (Json.parse _); [apply preserves_ret|apply preserves_throw].
    + apply preserves_ret.
  - pose proof (holdsAuthors_savePaperAction w paper Hkeep db Hh) as Hs.
    by destruct (savePaperAction w paper db) as [[[job|]|e] db'].
  - revert db Hh.
    apply preserves_tryCatch; [|intros e; apply preserves_ret].
    apply preserves_bind; [apply preserves_query|]. intros [p|]; [|apply preserves_ret].
    destruct (negb _); [apply preserves_ret|].
    do 2 (apply preserves_bind; [apply preserves_await|intros ?]).
    apply preserves_bind; [apply holdsAuthors_storeAnalysis|]. intros _.
    apply preserves_ret.
  - revert db Hh. unfold getSavedPapersAction.
    apply preserves_bind; [apply holdsAuthors_getCurrentUser|]. intros user.
    apply preserves_bind; [apply preserves_query|]. intros entries.
    apply preserves_bind; [apply holdsAuthors_includePapers|]. intros ps.
    apply preserves_bind; [apply preserves_query|].
    intros [views|]; [apply preserves_ret|apply preserves_throw].
  - revert db Hh.
    apply preserves_bind; [apply holdsAuthors_topic_upsert|]. intros t.
    apply holdsAuthors_paper_update; [done|done|apply holdsAuthors_connect].
  - revert db Hh.
    apply holdsAuthors_paper_update; [done|done|apply holdsAuthors_disconnect].
  - revert db Hh.
    apply preserves_bind; [apply holdsAuthors_getCurrentUser|]. intros user.
    apply holdsAuthors_savedPaper_delete.
Qed.

(** Along transitions that do not save the paper with other authors, the
    store stays sound and the row keeps the author list. *)
Lemma holdsAuthors_steps s s' :
  rtc (stepOf (keepsAuthors k a)) s s' ->
  sound (store s) -> holdsAuthors k a (store s) ->
  sound (store s') /\ holdsAuthors k a (store s').
Proof.
  induction 1 as [s|s s1 s2 Hst _ IH]; [done|]. intros Hs Hh. apply IH.
  - destruct Hst as [w c s0 _|w db before after job]; simpl.
    + by apply sound_perform.
    + by apply sound_enrichment.
  - destruct Hst as [w c s0 Hkeep|w db before after job]; simpl.
    + by apply holdsAuthors_perform.
    + by apply holdsAuthors_enrichment.
Qed.

End Authors.

Section Reads.

Import Store Actions System.
Context `{DateBuiltins}.

Lemma getPaperByIdAction_saved w id db user db' entry row parsed :
  getCurrentUser w db = (Resolved user, db') ->
  savedPaper_findUnique (user_id user) id db' = Some entry ->
  paper_findUnique id db' = Some row ->
  Json.parse (authors row) = Some parsed ->
  getPaperByIdAction w id db =
    (Resolved (Some (savedView row parsed (topicsOf id db'))), db').
Proof.
  intros HU HL HP HJ.
  assert (Hid : paperId entry = id).
  { apply find_some in HL as [_ HL]. apply bool_decide_eq_true in HL.
    by injection HL. }
  assert (Hrow : Store.id row = id).
  { apply find_some in HP as [_ HP]. by apply bool_decide_eq_true in HP. }
  unfold getPaperByIdAction, mbind, M_bind, query, includePaper.
  by rewrite HU, HL, Hid, HP, HJ, Hrow.
Qed.

Lemma getPaperByIdAction_unsaved w id db user db' :
  getCurrentUser w db = (Resolved user, db') ->
  savedPaper_findUnique (user_id user) id db' = None ->
  getPaperByIdAction w id db =
    (Resolved (liveView <$> head (Arxiv.searchArxiv (axios w) (arxivIdOf id) 1 0
                                    Arxiv.submittedDate Arxiv.descending)), db').
Proof.
  intros HU HL. unfold getPaperByIdAction, mbind, M_bind, query.
  by rewrite HU, HL.
Qed.

(** C8 (amended): on a sound store, when the caller has a link to the
    paper [getPaperByIdAction] returns the saved view of its row (with
    [isSaved] true); otherwise it returns the first record of a live
    search for the identifier as an unsaved view, and [null] only when
    that search gives no record. *)
Theorem getPaperByIdAction_views w id db user db' :
  sound db ->
  getCurrentUser w db = (Resolved user, db') ->
  match savedPaper_findUnique (user_id user) id db' with
  | Some _ =>
      exists row parsed,
        paper_findUnique id db' = Some row /\
        Json.parse (authors row) = Some parsed /\
        getPaperByIdAction w id db =
          (Resolved (Some (savedView row parsed (topicsOf id db'))), db')
  | None =>
      getPaperByIdAction w id db =
        (Resolved (liveView <$> head (Arxiv.searchArxiv (axios w) (arxivIdOf id)
                                        1 0 Arxiv.submittedDate Arxiv.descending)),
         db')
  end.
Proof.
  intros Hs HU.
  pose proof (sound_getCurrentUser w db Hs) as [Href Hjs].
  rewrite HU in Href, Hjs. simpl in Href, Hjs.
  destruct (savedPaper_findUnique (user_id user) id db') as [entry|] eqn:HL.
  - assert (Hin : entry ∈ savedPapers db' /\ paperId entry = id).
    { apply find_some in HL as [Hin HL]. apply bool_decide_eq_true in HL.
      split; [by apply list_elem_of_In|by injection HL]. }
    destruct Hin as [Hin Hid].
    apply Href in Hin. rewrite Hid in Hin. apply find_hasId_elem in Hin as [row Hrow].
    assert (Hr : row ∈ papers db').
    { apply find_some in Hrow as [? _]. by apply list_elem_of_In. }
    destruct (Hjs row Hr) as [parsed Hparsed].
    exists row, parsed. split_and!; try done.
    by apply (getPaperByIdAction_saved w id db user db' entry).
  - by apply (getPaperByIdAction_unsaved w id db user db').
Qed.

Lemma includePapers_resolved entries db :
  referential db ->
  (forall e, e ∈ entries -> e ∈ savedPapers db) ->
  exists ps,
    includePapers entries db = (Resolved ps, db) /\
    Forall2 (fun e p => paper_findUnique (paperId e) db = Some p) entries ps.
Proof.
  intros Href. induction entries as [|e entries IH]; intros Hin.
  - exists []. split; [done|constructor].
  - destruct IH as (ps & Hps & Hall).
    { intros e' He'. apply Hin. by apply elem_of_cons; right. }
    assert (He : e ∈ savedPapers db) by (apply Hin; by apply elem_of_cons; left).
    apply Href, find_hasId_elem in He as [p Hp].
    exists (p :: ps). split; [|by constructor].
    cbn [includePapers]. unfold mbind, M_bind, includePaper, paper_findUnique.
    by rewrite Hp, Hps.
Qed.

Lemma getSavedPapersAction_resolved w db user db' :
  sound db ->
  getCurrentUser w db = (Resolved user, db') ->
  exists ps views,
    getSavedPapersAction w db = (Resolved views, db') /\
    Forall2 (fun e p => paper_findUnique (paperId e) db' = Some p)
      (savedPaper_findMany (user_id user) db') ps /\
    Forall2 (fun p v => listView p (topicsOf (Store.id p) db') = Some v) ps views.
Proof.
  intros Hs HU.
  pose proof (sound_getCurrentUser w db Hs) as [Href Hjs].
  rewrite HU in Href, Hjs. simpl in Href, Hjs.
  destruct (includePapers_resolved (savedPaper_findMany (user_id user) db') db' Href)
    as (ps & Hps & Hall).
  { intros e He. unfold savedPaper_findMany in He.
    rewrite list_elem_of_In, <- in_rev, <- list_elem_of_In in He.
    by apply elem_of_filter_bool in He. }
  assert (Hviews : is_Some (mapM (fun p => listView p (topicsOf (Store.id p) db')) ps)).
  { apply mapM_is_Some_2. apply Forall_forall. intros p Hp. simpl.
    apply list_elem_of_lookup in Hp as [i Hi].
    destruct (Forall2_lookup_r _ _ _ _ _ Hall Hi) as (e & _ & He).
    apply find_some in He as [He _]. apply list_elem_of_In in He.
    destruct (Hjs p He) as [parsed Hparsed].
    unfold listView. rewrite Hparsed. by eexists. }
  destruct Hviews as [views Hviews].
  exists ps, views. split_and!; [|done|by apply mapM_Some_1].
  unfold getSavedPapersAction, mbind, M_bind, query.
  by rewrite HU, Hps, Hviews.
Qed.

(** Both reads give back the author list a row holds, to every caller
    who has the paper in their library. *)
Lemma reads_parse_authors w k a db user db' :
  sound db -> holdsAuthors k a db ->
  getCurrentUser w db = (Resolved user, db') ->
  is_Some (savedPaper_findUnique (user_id user) k db') ->
  (exists view,
     getPaperByIdAction w k db = (Resolved (Some view), db') /\
     v_isSaved view = Some true /\
     v_authors view = Json.JArray (Json.JString <$> a)) /\
  (exists views view,
     getSavedPapersAction w db = (Resolved views, db') /\
     view ∈ views /\ v_id view = k /\
     v_authors view = Json.JArray (Json.JString <$> a)).
Proof.
  intros Hs Hh HU [entry HL].
  destruct (getCurrentUser_resolved _ _ _ _ HU) as (HUp & _).
  apply (holdsAuthors_papers k a db db' HUp) in Hh. destruct Hh as (row & Hrow & Hau).
  assert (Hparse : Json.parse (authors row) = Some (Json.JArray (Json.JString <$> a))).
  { rewrite Hau. apply parse_stringifyStrings. }
  split.
  - eexists. split; [|split].
    + by apply (getPaperByIdAction_saved w k db user db' entry row).
    + done.
    + done.
  - destruct (getSavedPapersAction_resolved w db user db' Hs HU)
      as (ps & views & Hget & Hps & Hviews).
    assert (Hentry : entry ∈ savedPaper_findMany (user_id user) db' /\
                     paperId entry = k).
    { apply find_some in HL as [Hin Hk]. pose proof Hk as Hk'.
      apply bool_decide_eq_true in Hk'. injection Hk' as Hu' Hk'.
      split; [|done]. unfold savedPaper_findMany.
      rewrite list_elem_of_In, <- in_rev, filter_In. split; [done|].
      by apply bool_decide_eq_true. }
    destruct Hentry as [Hentry Hid].
    apply list_elem_of_lookup in Hentry as [i Hi].
    destruct (Forall2_lookup_l _ _ _ _ _ Hps Hi) as (p & Hpi & Hp).
    destruct (Forall2_lookup_l _ _ _ _ _ Hviews Hpi) as (view & Hvi & Hv).
    rewrite Hid, Hrow in Hp. injection Hp as <-.
    unfold listView in Hv. rewrite Hparse in Hv. simpl in Hv. injection Hv as <-.
    eexists views, _. split_and!; [done| | |].
    + apply list_elem_of_lookup. exists i. exact Hvi.
    + simpl. apply find_some in Hrow as [_ Hk]. by apply bool_decide_eq_true in Hk.
    + done.
Qed.

(** What a save that returns leaves: a sound store, the author list in
    the row of the paper, and the caller's link to it. *)
Lemma savePaperAction_stores_authors w paper db job db1 :
  sound db ->
  savePaperAction w paper db = (Resolved job, db1) ->
  sound db1 /\
  holdsAuthors (Arxiv.id paper) (Arxiv.authors paper) db1 /\
  exists user,
    getCurrentUser w db1 = (Resolved user, db1) /\
    is_Some (savedPaper_findUnique (user_id user) (Arxiv.id paper) db1).
Proof.
  intros Hs Hsave.
  pose proof (sound_savePaperAction w paper db Hs) as Hs1.
  rewrite Hsave in Hs1. simpl in Hs1.
  destruct (savePaperAction_resolved _ _ _ _ _ Hsave)
    as (user & date & dbA & dbB & HU & HD & HP & HL & ->).
  destruct (getCurrentUser_resolved _ _ _ _ HU) as (_ & _ & _ & _ & HUs).
  destruct (paper_upsert_run (Arxiv.id paper) (refreshed paper date)
              (created paper date) dbA (refreshed_id paper date)
              (refreshed_idem paper date) eq_refl (refreshed_created paper date))
    as (dbB' & HP' & HPu & _ & _ & _ & _ & HPf & _ & _).
  rewrite HP in HP'. injection HP' as <-.
  destruct (savedPaper_upsert_run (user_id user) (Arxiv.id paper) dbB)
    as (db1' & HL' & HLp & HLu & _ & _ & _ & HLf & _).
  rewrite HL in HL'. injection HL' as <-.
  split_and!; [done| |].
  - exists (match paper_findUnique (Arxiv.id paper) dbA with
            | Some r => refreshed paper date r
            | None => created paper date
            end).
    split.
    + unfold paper_findUnique in HPf |- *. rewrite HLp. exact HPf.
    + by destruct (paper_findUnique (Arxiv.id paper) dbA).
  - exists user. split; [|done]. apply HUs. by rewrite HLu, HPu.
Qed.

(** C10: after a save of a record with author list [a] has returned, and
    after any further calls and finished enrichment units among which no
    call saves that paper with another author list, [getPaperByIdAction]
    and [getSavedPapersAction] return the array [a] for it to every
    caller who has the paper in their library; right after the save the
    saving user is such a caller. *)
Theorem authors_round_trip w paper db job db1 :
  sound db ->
  savePaperAction w paper db = (Resolved job, db1) ->
  (exists user,
     getCurrentUser w db1 = (Resolved user, db1) /\
     is_Some (savedPaper_findUnique (user_id user) (Arxiv.id paper) db1)) /\
  forall units s,
    rtc (stepOf (keepsAuthors (Arxiv.id paper) (Arxiv.authors paper)))
      {| store := db1; detached := units |} s ->
    forall w' user db2,
      getCurrentUser w' (store s) = (Resolved user, db2) ->
      is_Some (savedPaper_findUnique (user_id user) (Arxiv.id paper) db2) ->
      (exists view,
         getPaperByIdAction w' (Arxiv.id paper) (store s)
           = (Resolved (Some view), db2) /\
         v_isSaved view = Some true /\
         v_authors view = Json.JArray (Json.JString <$> Arxiv.authors paper)) /\
      (exists views view,
         getSavedPapersAction w' (store s) = (Resolved views, db2) /\
         view ∈ views /\ v_id view = Arxiv.id paper /\
         v_authors view = Json.JArray (Json.JString <$> Arxiv.authors paper)).
Proof.
  intros Hs Hsave.
  destruct (savePaperAction_stores_authors _ _ _ _ _ Hs Hsave) as (Hs1 & Hh1 & Hlink).
  split; [done|]. intros units s Hsteps w' user db2 HU HL.
  destruct (holdsAuthors_steps _ _ _ _ Hsteps Hs1 Hh1) as [Hs2 Hh2].
  by apply (reads_parse_authors w' _ _ (store s) user db2).
Qed.

End Reads.

(** C8, as the specification states it, fails when the caller has not
    saved the paper and the search endpoint knows it: on the empty catalog
    the call returns the record of the live search as an unsaved view,
    not [null]. *)
Lemma getPaperByIdAction_unsaved_counterexample :
  let run := Actions.getPaperByIdAction (H := Examples.dates) Examples.world
               (str "2106.09685v2") Store.empty in
  Store.savedPapers (snd run) = [] /\
  Arxiv.toPaper Examples.loraEntry = Some Examples.loraFound /\
  fst run = Resolved (Some (Actions.liveView Examples.loraFound)) /\
  fst run <> Resolved None.
Proof.
  intros run.
  assert (Hrun : fst run = Resolved (Some (Actions.liveView Examples.loraFound)))
    by (vm_compute; reflexivity).
  split; [by vm_compute|]. split; [by vm_compute|].
  split; [exact Hrun|]. by rewrite Hrun.
Qed.


(** ** The properties on the sample inputs *)

Section Samples.

Import Store Actions System Examples.

(** The scenario of the verification script and of the specification: the
    link and the row exist as soon as the save returns, the summary is
    null until the unit has finished, and then the row carries the
    analysis and three topics. *)
Example save_then_enrich :
  savedPapers saved = [{| userId := 0; paperId := str "2106.09685v2" |}] /\
  (summary <$> paper_findUnique (str "2106.09685v2") saved) = Some None /\
  (summary <$> paper_findUnique (str "2106.09685v2") enriched)
    = Some (Some (str "S")) /\
  (institution <$> paper_findUnique (str "2106.09685v2") enriched)
    = Some (Some (str "I")) /\
  topic_name <$> topicsOf (str "2106.09685v2") enriched
    = [str "Agent"; str "Large Language Models"; str "Model Architecture"].
Proof. by vm_compute. Qed.

(** The route parameter of a paper page, still URL-encoded, is reduced to
    the bare identifier by [getPaperByIdAction] itself before it
    searches. *)
Example arxivIdOf_encoded :
  Uri.encodeURIComponent (str "http://arxiv.org/abs/2106.09685v2")
    = Some (str "http%3A%2F%2Farxiv.org%2Fabs%2F2106.09685v2") /\
  arxivIdOf (str "http%3A%2F%2Farxiv.org%2Fabs%2F2106.09685v2")
    = str "2106.09685v2".
Proof. by vm_compute. Qed.

Lemma savePaperAction_idempotent_witness :
  consistent Store.empty /\
  savePaperAction (H := dates) world lora Store.empty = (Resolved (Some lora), saved) /\
  savePaperAction (H := dates) world lora saved = (Resolved (Some lora), saved) /\
  length (List.filter (hasId (Arxiv.id lora)) (papers saved)) = 1%nat.
Proof.
  assert (Hc : consistent Store.empty) by (repeat split; constructor).
  assert (Hs : savePaperAction (H := dates) world lora Store.empty
               = (Resolved (Some lora), saved)) by (vm_compute; reflexivity).
  destruct (savePaperAction_idempotent world lora Store.empty _ _ Hc Hs)
    as (Hagain & Hone & _).
  by split_and!.
Defined.

Lemma savePaperAction_keeps_analysis_witness :
  let row := analysed (Some (Some (str "S"))) (Some (Some (str "I")))
               (created lora 0) in
  paper_findUnique (Arxiv.id lora) enriched = Some row /\
  summary row = Some (str "S") /\
  exists r',
    paper_findUnique (Arxiv.id lora)
      (snd (savePaperAction (H := dates) world lora enriched)) = Some r' /\
    summary r' = Some (str "S") /\ institution r' = Some (str "I").
Proof.
  intros row.
  assert (Hr : paper_findUnique (Arxiv.id lora) enriched = Some row)
    by (vm_compute; reflexivity).
  assert (Hs : savePaperAction (H := dates) world lora enriched
               = (Resolved (Some lora),
                  snd (savePaperAction (H := dates) world lora enriched)))
    by (vm_compute; reflexivity).
  destruct (savePaperAction_keeps_analysis world lora enriched row _ _ Hr Hs)
    as (r' & date & Hf & _ & Hsum & Hinst & _).
  split; [exact Hr|]. split; [reflexivity|]. exists r'.
  split; [exact Hf|]. split; [exact Hsum|exact Hinst].
Defined.

Lemma regenerateSummaryAction_failure_witness :
  paper_findUnique (str "0000.00000") library = None /\
  regenerateSummaryAction world (str "0000.00000") library =
    (Resolved {| success := false; error := Some (str "Paper not found") |},
     library) /\
  (exists row, paper_findUnique (Arxiv.id adapters) library = Some row /\
               present (filePath row) = false) /\
  regenerateSummaryAction world (Arxiv.id adapters) library =
    (Resolved {| success := false;
                 error := Some (str "No PDF available for this paper") |},
     library).
Proof.
  assert (Hnone : paper_findUnique (str "0000.00000") library = None)
    by (vm_compute; reflexivity).
  assert (Hrow : paper_findUnique (Arxiv.id adapters) library
                 = Some (created adapters 0)) by (vm_compute; reflexivity).
  split; [exact Hnone|]. split.
  - exact (proj1 (regenerateSummaryAction_failure world _ library) Hnone).
  - split; [by exists (created adapters 0)|].
    exact (proj2 (regenerateSummaryAction_failure world _ library)
             (created adapters 0) Hrow eq_refl).
Defined.

Lemma enrichment_contained_witness :
  fst (enrichmentBody offline lora saved)
    = Rejected (AxiosError (str "Network Error") None) /\
  fst (enrichment offline lora saved) = Resolved tt /\
  savePaperAction (H := dates) offline lora Store.empty
    = savePaperAction (H := dates) world lora Store.empty.
Proof.
  destruct (enrichment_contained (H := dates) world lora Store.empty)
    as (Hcaught & Hsame & _).
  split; [by vm_compute|]. split; [apply Hcaught|]. by apply Hsame.
Defined.

Lemma sound_library : sound library.
Proof.
  apply (sound_savePaperAction (H := dates)), sound_enrichment,
    (sound_savePaperAction (H := dates)), sound_empty.
Qed.

Lemma getPaperByIdAction_views_witness :
  let user := {| user_id := 0; email := str "alice@example.org";
                 name := str "Alice Liddell" |} in
  sound library /\
  getCurrentUser world library = (Resolved user, library) /\
  (exists row parsed,
     getPaperByIdAction (H := dates) world (Arxiv.id lora) library =
       (Resolved (Some (savedView (H := dates) row parsed
                         (topicsOf (Arxiv.id lora) library))),
        library)) /\
  Arxiv.toPaper loraEntry = Some loraFound /\
  getPaperByIdAction (H := dates) world (str "2310.00001") library =
    (Resolved (Some (liveView loraFound)), library).
Proof.
  intros user.
  assert (HU : getCurrentUser world library = (Resolved user, library))
    by (vm_compute; reflexivity).
  split; [exact sound_library|]. split; [exact HU|]. split.
  - pose proof (getPaperByIdAction_views (H := dates) world (Arxiv.id lora)
                  library user library sound_library HU) as Hv.
    assert (HL : savedPaper_findUnique (user_id user) (Arxiv.id lora) library
                 = Some {| userId := 0; paperId := Arxiv.id lora |})
      by (vm_compute; reflexivity).
    rewrite HL in Hv. destruct Hv as (row & parsed & _ & _ & Hv).
    by exists row, parsed.
  - split; [by vm_compute|].
    pose proof (getPaperByIdAction_views (H := dates) world (str "2310.00001")
                  library user library sound_library HU) as Hv.
    assert (HL : savedPaper_findUnique (user_id user) (str "2310.00001") library
                 = None) by (vm_compute; reflexivity).
    rewrite HL in Hv. exact Hv.
Defined.

Lemma topic_names_unique_witness :
  let n := str "Reinforcement Learning" in
  let merge := ByMerge (Arxiv.id adapters)
                 (analysisOf (str "S") (str "I") [str "Agent"; n]) in
  let byHand := ByHand (Arxiv.id lora) n in
  let db1 := snd (attach merge library) in
  let db2 := snd (attach byHand db1) in
  uniqueTopics library /\
  attach merge library = (Resolved tt, db1) /\
  attach byHand db1 = (Resolved tt, db2) /\
  n ∈ namesOf merge /\ n ∈ namesOf byHand /\
  length (List.filter (hasName n) (topics db2)) = 1%nat /\
  (exists t, topic_findByName n db2 = Some t /\
             t ∈ topicsOf (Arxiv.id adapters) db2 /\
             t ∈ topicsOf (Arxiv.id lora) db2) /\
  attach byHand db2 = (Resolved tt, db2).
Proof.
  intros n merge byHand db1 db2.
  assert (Hu : uniqueTopics library).
  { unfold uniqueTopics. apply (bool_decide_unpack _). vm_compute. exact I. }
  assert (H1 : attach merge library = (Resolved tt, db1))
    by (vm_compute; reflexivity).
  assert (H2 : attach byHand db1 = (Resolved tt, db2))
    by (vm_compute; reflexivity).
  assert (Hn1 : n ∈ namesOf merge).
  { apply (bool_decide_unpack _). vm_compute. exact I. }
  assert (Hn2 : n ∈ namesOf byHand).
  { apply (bool_decide_unpack _). vm_compute. exact I. }
  destruct (topic_names_unique (H := dates))
    as (_ & _ & _ & _ & _ & Hshare & _ & Hagain & _).
  destruct (Hshare library merge byHand n db1 db2 Hu H1 H2 Hn1 Hn2)
    as [Hone Hboth].
  split; [exact Hu|]. split; [exact H1|]. split; [exact H2|].
  split; [exact Hn1|]. split; [exact Hn2|].
  split; [exact Hone|]. split; [exact Hboth|].
  exact (Hagain db1 (Arxiv.id lora) n db2 H2).
Defined.

Lemma authors_round_trip_witness :
  sound Store.empty /\
  savePaperAction (H := dates) world lora Store.empty = (Resolved (Some lora), saved) /\
  exists view,
    getPaperByIdAction (H := dates) world (Arxiv.id lora) saved
      = (Resolved (Some view), saved) /\
    v_authors view =
      Json.JArray [Json.JString (str "Edward Hu"); Json.JString (str "Yelong Shen")].
Proof.
  assert (Hs : savePaperAction (H := dates) world lora Store.empty
               = (Resolved (Some lora), saved)) by (vm_compute; reflexivity).
  split; [exact sound_empty|]. split; [exact Hs|].
  destruct (authors_round_trip (H := dates) world lora Store.empty _ _ sound_empty Hs)
    as [(user & HU & HL) Hreads].
  destruct (Hreads [] {| store := saved; detached := [] |} (rtc_refl _ _)
              world user saved HU HL) as [(view & Hv & _ & Hau) _].
  exists view. split; [exact Hv|exact Hau].
Defined.

End Samples.

(** * Further properties of the code *)

(** ** Normalized texts of the search results *)

Section Tidy.

Lemma trimStart_clean s :
  match trimStart s with c :: _ => isWhiteSpace c = false | [] => True end.
Proof.
  induction s as [|c s IH]; simpl; [done|].
  destruct (isWhiteSpace c) eqn:E; [done|]. done.
Qed.

Lemma trimStart_snoc s c :
  isWhiteSpace c = false -> trimStart (s ++ [c]) = trimStart s ++ [c].
Proof.
  intros Hc. induction s as [|d s IH]; simpl; [by rewrite Hc|].
  by destruct (isWhiteSpace d).
Qed.

Lemma trimStart_all s :
  forallb isWhiteSpace s = true -> trimStart s = [].
Proof.
  induction s as [|c s IH]; simpl; [done|].
  intros [Hc Hs]%andb_prop. rewrite Hc. auto.
Qed.

Lemma trimStart_fixed c s :
  isWhiteSpace c = false -> trimStart (c :: s) = c :: s.
Proof. intros Hc. simpl. by rewrite Hc. Qed.

Lemma endsClean_rev s :
  endsClean s = match rev s with c :: _ => negb (isWhiteSpace c) | [] => true end.
Proof.
  induction s as [|c s IH]; [done|].
  destruct s as [|d s]; [done|].
  change (endsClean (c :: d :: s)) with (endsClean (d :: s)).
  rewrite IH. simpl. destruct (rev s ++ [d]) eqn:E; [by destruct (rev s)|done].
Qed.

Lemma trimEnd_endsClean s : endsClean (trimEnd s) = true.
Proof.
  unfold trimEnd. rewrite endsClean_rev, rev_involutive.
  pose proof (trimStart_clean (rev s)) as H.
  destruct (trimStart (rev s)); [done|]. by rewrite H.
Qed.

Lemma trimEnd_head c s :
  isWhiteSpace c = false -> exists s', trimEnd (c :: s) = c :: s'.
Proof.
  intros Hc. unfold trimEnd. simpl. rewrite trimStart_snoc by done.
  rewrite rev_app_distr. simpl. by eexists.
Qed.

Lemma trim_clean s :
  match trim s with c :: _ => isWhiteSpace c = false | [] => True end /\
  endsClean (trim s) = true.
Proof.
  unfold trim. split; [|apply trimEnd_endsClean].
  pose proof (trimStart_clean s) as H.
  destruct (trimStart s) as [|c t]; [done|].
  destruct (trimEnd_head c t H) as [s' E].
  unfold jsstring, char16 in *. by rewrite E.
Qed.

Lemma collapseFrom_head s :
  s <> [] -> endsClean s = true ->
  exists d r, collapseFrom true s = d :: r /\ isWhiteSpace d = false.
Proof.
  induction s as [|c s IH]; [done|]. intros _ He.
  simpl. destruct (isWhiteSpace c) eqn:Ec.
  - destruct s as [|d s]; [simpl in He; by rewrite Ec in He|].
    simpl. apply IH; done.
  - by eexists _, _.
Qed.

Lemma collapseFrom_cons b c s :
  collapseFrom b (c :: s) =
    if isWhiteSpace c then (if b then [] else [32]) ++ collapseFrom true s
    else c :: collapseFrom false s.
Proof. done. Qed.

Lemma singleSpaced_cons c s :
  singleSpaced (c :: s) =
    (if isWhiteSpace c
     then (c =? 32) &&
          match s with d :: _ => negb (isWhiteSpace d) | [] => false end
     else true) && singleSpaced s.
Proof. done. Qed.

Lemma singleSpaced_collapseFrom s :
  endsClean s = true -> forall b, singleSpaced (collapseFrom b s) = true.
Proof.
  induction s as [|c s IH]; [done|]. intros He b.
  destruct (isWhiteSpace c) eqn:Ec.
  - destruct s as [|d s]; [simpl in He; by rewrite Ec in He|].
    assert (He' : endsClean (d :: s) = true) by done.
    rewrite collapseFrom_cons, Ec. destruct b.
    + rewrite app_nil_l. by apply IH.
    + change ([32] ++ ?x) with (32 :: x).
      destruct (collapseFrom_head (d :: s)) as (x & r & Hx & Hw); [done..|].
      specialize (IH He' true). rewrite Hx in *.
      rewrite singleSpaced_cons, IH, Hw. done.
  - rewrite collapseFrom_cons, Ec, singleSpaced_cons, Ec. simpl.
    apply IH. destruct s; [done|]. done.
Qed.

Lemma tidy_collapseSpaces_trim s : tidy (collapseSpaces (trim s)) = true.
Proof.
  destruct (trim_clean s) as [Hh He]. unfold tidy, collapseSpaces.
  rewrite singleSpaced_collapseFrom by done. rewrite andb_true_r.
  destruct (trim s) as [|c t]; [done|]. simpl. by rewrite Hh, Hh.
Qed.

Lemma singleSpaced_endsClean s : singleSpaced s = true -> endsClean s = true.
Proof.
  induction s as [|c s IH]; [done|]. simpl.
  intros [Hc Hs]%andb_prop. destruct s as [|d s]; [|by apply IH].
  destruct (isWhiteSpace c); [|done]. by rewrite andb_false_r in Hc.
Qed.

Lemma trimEnd_fixed s : endsClean s = true -> trimEnd s = s.
Proof.
  rewrite endsClean_rev. unfold trimEnd. intros H.
  destruct (rev s) as [|c t] eqn:E.
  - simpl. apply (f_equal (@rev _)) in E. by rewrite rev_involutive in E.
  - apply negb_true_iff in H. rewrite trimStart_fixed by done.
    by rewrite <- (rev_involutive s), E.
Qed.

Lemma collapseFrom_fixed s :
  singleSpaced s = true -> collapseFrom false s = s.
Proof.
  induction s as [|c s IH]; [done|]. rewrite singleSpaced_cons, collapseFrom_cons.
  intros [Hc Hs]%andb_prop. destruct (isWhiteSpace c) eqn:Ec.
  - apply andb_prop in Hc as [->%N.eqb_eq Hd]. simpl.
    destruct s as [|d s]; [done|]. apply negb_true_iff in Hd.
    f_equal. specialize (IH Hs). rewrite collapseFrom_cons in *.
    rewrite Hd in *. done.
  - f_equal. by apply IH.
Qed.

Lemma collapseSpaces_trim_fixed s :
  tidy s = true -> collapseSpaces (trim s) = s.
Proof.
  unfold tidy. intros [Hh Hs]%andb_prop.
  assert (trim s = s) as ->.
  { unfold trim. destruct s as [|c t]; [done|].
    apply negb_true_iff in Hh. rewrite trimStart_fixed by done.
    apply trimEnd_fixed. by apply singleSpaced_endsClean. }
  by apply collapseFrom_fixed.
Qed.

End Tidy.

(** What the callback of [searchArxiv] returns when it does not throw. *)
Lemma mapM_names (author : list (option jsstring)) (names : list jsstring) :
  mapM (fun name => name) author = Some names -> author = Some <$> names.
Proof.
  rewrite mapM_Some. induction 1 as [|a n author names -> _ IH]; [done|].
  by rewrite fmap_cons, IH.
Qed.

Lemma toPaper_Some (e : Arxiv.Entry) (p : Arxiv.ArxivPaper) :
  Arxiv.toPaper e = Some p -> madeOf e p.
Proof.
  unfold Arxiv.toPaper, madeOf. intros Hp.
  destruct (Arxiv.entry_id e) as [i|]; [|done].
  destruct (Arxiv.entry_title e) as [t|]; [|done].
  destruct (Arxiv.entry_summary e) as [a|]; [|done].
  destruct (Arxiv.entry_author e) as [author|]; [|done]. simpl in Hp.
  destruct (mapM (fun name => name) author) as [names|] eqn:Hnames; [|done].
  destruct (Arxiv.entry_published e) as [d|]; [|done].
  destruct (Arxiv.entry_link e) as [links|]; [|done]. simpl in Hp.
  destruct (Arxiv.findPdf links) as [pdf|] eqn:Hpdf; [|done].
  injection Hp as <-. simpl. apply mapM_names in Hnames as ->.
  split_and!; try done; by eauto.
Qed.

(** X1: every paper a search returns has a title and a summary in which
    white space only occurs as single spaces between words, whatever the
    endpoint sent; on a text that is already in that form the clean-up of
    [searchArxiv] changes nothing, so it is idempotent. *)
Theorem searchArxiv_tidy (axios : Arxiv.Axios) (query : jsstring)
    (maxResults start : N) (sortBy : Arxiv.SortBy) (sortOrder : Arxiv.SortOrder) :
  Forall (fun p => tidy (Arxiv.title p) = true /\ tidy (Arxiv.summary p) = true)
    (Arxiv.searchArxiv axios query maxResults start sortBy sortOrder) /\
  (forall s, collapseSpaces (trim (collapseSpaces (trim s))) = collapseSpaces (trim s)).
Proof.
  split.
  - unfold Arxiv.searchArxiv.
    destruct (fst _) as [[entries|]|e]; try by constructor.
    destruct (mapM Arxiv.toPaper entries) as [papers|] eqn:Hmap; [|by constructor].
    apply mapM_Some in Hmap. clear -Hmap.
    induction Hmap as [|entry p entries papers Hp _ IH]; constructor; [|done].
    destruct (toPaper_Some entry p Hp)
      as (_ & _ & (t & _ & ->) & (a & _ & ->) & _).
    split; apply tidy_collapseSpaces_trim.
  - intros s. apply collapseSpaces_trim_fixed, tidy_collapseSpaces_trim.
Qed.

(** ** The search client, whatever the endpoint answers *)

Lemma stripPrefix_Some (p s r : jsstring) : stripPrefix p s = Some r -> s = p ++ r.
Proof.
  revert s. induction p as [|a p IH]; intros s; simpl.
  - by intros [= ->].
  - destruct s as [|b s]; [done|]. destruct (N.eqb_spec a b) as [->|]; [|done].
    intros E. by rewrite (IH _ E).
Qed.

Lemma length_replaceStart_nil (p s : jsstring) :
  (length (replaceStart p [] s) <= length s)%nat.
Proof.
  unfold replaceStart. destruct (stripPrefix p s) as [r|] eqn:E; [|done].
  apply stripPrefix_Some in E as ->. simpl. rewrite length_app. lia.
Qed.

Lemma sleeps_retrySchedule (url : jsstring) (params : Arxiv.Params) (k : nat) :
  forall backoff, sleeps (retrySchedule url params k backoff) = doubling k backoff.
Proof.
  induction k as [|k IH]; intros backoff; [done|].
  unfold sleeps in *. simpl. by rewrite IH.
Qed.

Lemma sum_doubling (k : nat) :
  forall backoff, foldr N.add 0 (doubling k backoff) = backoff * (2 ^ N.of_nat k - 1).
Proof.
  induction k as [|k IH]; intros backoff; simpl foldr.
  - simpl. lia.
  - rewrite IH. rewrite Nat2N.inj_succ, N.pow_succ_r'.
    assert (1 <= 2 ^ N.of_nat k) by (apply N.pow_lower_bound; lia). nia.
Qed.

(** X2: whatever the endpoint answers, one call of the client is a run of
    [k] rate-limited attempts followed by a last attempt whose answer it
    hands over, with [k] at most the number of retries: it never makes
    more than [retries + 1] requests, it sleeps [backoff], [2 * backoff],
    ... between them, [backoff * (2 ^ k - 1)] in all, and it only gives up
    on a rate-limit response when no retry is left. *)
Theorem fetchWithRetry_trace (url : jsstring) (params : Arxiv.Params)
    (retries : nat) :
  forall (axios : Arxiv.Axios) (backoff : N),
  exists k,
    (k <= retries)%nat /\
    Arxiv.fetchWithRetry axios url params retries backoff =
      (axios url params k, retrySchedule url params k backoff) /\
    (forall n, (n < k)%nat -> rateLimited (axios url params n)) /\
    (rateLimited (axios url params k) -> k = retries) /\
    (requests (snd (Arxiv.fetchWithRetry axios url params retries backoff))
       <= S retries)%nat /\
    sleeps (snd (Arxiv.fetchWithRetry axios url params retries backoff))
      = doubling k backoff /\
    foldr N.add 0
      (sleeps (snd (Arxiv.fetchWithRetry axios url params retries backoff)))
      = backoff * (2 ^ N.of_nat k - 1).
Proof.
  assert (Hshape : forall axios backoff, exists k,
    (k <= retries)%nat /\
    Arxiv.fetchWithRetry axios url params retries backoff =
      (axios url params k, retrySchedule url params k backoff) /\
    (forall n, (n < k)%nat -> rateLimited (axios url params n)) /\
    (rateLimited (axios url params k) -> k = retries)).
  { induction retries as [|r IH]; intros axios backoff.
    - exists 0%nat. simpl. split; [lia|]. split.
      + by destruct (axios url params 0%nat).
      + split; [lia|done].
    - simpl. destruct (axios url params 0%nat) as [a|e] eqn:E.
      + exists 0%nat. rewrite E. split; [lia|]. split; [done|].
        split; [lia|]. by intros (e & [=] & _).
      + destruct (Arxiv.isRateLimit e) eqn:El.
        * destruct (IH (Arxiv.next axios) (backoff * 2))
            as (k & Hk & Hrun & Hlim & Hstop).
          exists (S k). rewrite Hrun. split; [lia|]. split; [done|]. split.
          -- intros [|n] Hn; [by exists e|]. apply (Hlim n). lia.
          -- intros Hl. f_equal. by apply Hstop.
        * exists 0%nat. rewrite E. split; [lia|]. split; [done|].
          split; [lia|]. intros (e' & [= <-] & Hl). by rewrite El in Hl. }
  intros axios backoff.
  destruct (Hshape axios backoff) as (k & Hk & Hrun & Hlim & Hstop).
  exists k. rewrite Hrun. simpl.
  rewrite requests_retrySchedule, sleeps_retrySchedule, sum_doubling.
  split_and!; try done. lia.
Qed.

Lemma findPdf_readable (links : list (option Arxiv.Link)) :
  Analyzer.isSome (Arxiv.findPdf links) = readable links.
Proof.
  induction links as [|[l|] links IH]; [done| |done]. simpl.
  by destruct (Arxiv.isPdf l).
Qed.

Lemma mapM_names_isSome (author : list (option jsstring)) :
  Analyzer.isSome (mapM (fun name => name) author) = forallb Analyzer.isSome author.
Proof.
  induction author as [|[n|] author IH]; [done| |done].
  simpl. rewrite <- IH. by destruct (mapM _ author).
Qed.

(** The callback throws exactly on the entries that are not complete. *)
Lemma toPaper_complete (e : Arxiv.Entry) :
  Analyzer.isSome (Arxiv.toPaper e) = complete e.
Proof.
  unfold Arxiv.toPaper, complete.
  destruct (Arxiv.entry_id e) as [i|]; [|done].
  destruct (Arxiv.entry_title e) as [t|]; [|done].
  destruct (Arxiv.entry_summary e) as [a|]; [|done].
  destruct (Arxiv.entry_author e) as [author|]; [|done]. simpl.
  rewrite <- mapM_names_isSome.
  destruct (mapM (fun name => name) author) as [names|]; [|done].
  destruct (Arxiv.entry_published e) as [d|]; [|by destruct (Arxiv.entry_link e)].
  destruct (Arxiv.entry_link e) as [links|]; [|done]. simpl.
  rewrite <- findPdf_readable. by destruct (Arxiv.findPdf links).
Qed.

Lemma mapM_toPaper_complete (entries : list Arxiv.Entry) :
  Analyzer.isSome (mapM Arxiv.toPaper entries) = forallb complete entries.
Proof.
  induction entries as [|e entries IH]; [done|].
  simpl. rewrite <- IH, <- toPaper_complete.
  destruct (Arxiv.toPaper e); [|done]. simpl. by destruct (mapM _ entries).
Qed.

(** X3: a search gets through a rate limit that lasts for at most three
    attempts, and its answer is all or nothing.  When the first [k <= 3]
    answers are rate-limit responses and the next one is a feed whose
    entries are all complete, the caller gets one paper per entry, in the
    order of the feed, made of that entry: the identifier as [link], its
    normalized form as [id], the cleaned title and summary, the names of
    the authors, the date, and the address of the first link titled
    [pdf], if there is one.  When a single entry of the feed is not
    complete, for instance because it has no author or no link, the
    caller gets no paper at all. *)
Theorem searchArxiv_recovers (axios : Arxiv.Axios) (query : jsstring)
    (maxResults start : N) (sortBy : Arxiv.SortBy) (sortOrder : Arxiv.SortOrder)
    (k : nat) (entries : list Arxiv.Entry) :
  let params := {| Arxiv.search_query := query; Arxiv.start := start;
                   Arxiv.max_results := maxResults; Arxiv.sortBy := sortBy;
                   Arxiv.sortOrder := sortOrder |} in
  (k <= 3)%nat ->
  (forall n, (n < k)%nat -> rateLimited (axios Arxiv.ARXIV_API_URL params n)) ->
  axios Arxiv.ARXIV_API_URL params k = Resolved (Some entries) ->
  let papers := Arxiv.searchArxiv axios query maxResults start sortBy sortOrder in
  (forallb complete entries = true ->
   Forall2 madeOf entries papers /\ length papers = length entries) /\
  (forallb complete entries = false -> papers = []) /\
  (forall e, e ∈ entries ->
     Arxiv.entry_author e = None \/ Arxiv.entry_link e = None -> papers = []).
Proof.
  intros params Hk Hlim Hfeed papers.
  assert (Hrun : papers = match mapM Arxiv.toPaper entries with
                          | Some ps => ps
                          | None => []
                          end).
  { subst papers. unfold Arxiv.searchArxiv. fold params.
    rewrite (fetchWithRetry_stops _ _ k Arxiv.defaultRetries axios
               Arxiv.defaultBackoff); [|done|done|].
    - simpl. by rewrite Hfeed.
    - intros _ (e & He & _). by rewrite Hfeed in He. }
  clearbody papers. subst papers.
  pose proof (mapM_toPaper_complete entries) as Hc.
  assert (Hnone : forallb complete entries = false ->
                  match mapM Arxiv.toPaper entries with
                  | Some ps => ps
                  | None => []
                  end = []).
  { intros Hf. rewrite Hf in Hc. by destruct (mapM Arxiv.toPaper entries). }
  split_and!.
  - intros Ht. rewrite Ht in Hc.
    destruct (mapM Arxiv.toPaper entries) as [ps|] eqn:Hmap; [|done].
    apply mapM_Some in Hmap. split.
    + eapply Forall2_impl; [exact Hmap|]. apply toPaper_Some.
    + symmetry. by eapply Forall2_length.
  - exact Hnone.
  - intros e He Hlack. apply Hnone.
    apply not_true_iff_false. intros Hall.
    rewrite forallb_forall in Hall.
    specialize (Hall e (proj1 (list_elem_of_In _ _) He)).
    unfold complete in Hall.
    destruct Hlack as [Hl|Hl]; rewrite Hl in Hall;
      by rewrite ?andb_false_r in Hall.
Qed.

(** X4: the normalizer only ever removes text at the front of an
    identifier, and the identifiers it leaves as they are are exactly the
    bare ones. *)
Theorem getCleanId_fixed_points (id : jsstring) :
  (exists front, id = front ++ Arxiv.getCleanId id) /\
  (Arxiv.getCleanId id = id <-> Forms.isBare id).
Proof.
  unfold Arxiv.getCleanId, Forms.isBare, Forms.httpPrefix, Forms.httpsPrefix.
  assert (H1 : replaceStart (str "http://arxiv.org/abs/") [] id =
               match stripPrefix (str "http://arxiv.org/abs/") id with
               | Some rest => rest
               | None => id
               end).
  { unfold replaceStart. by destruct (stripPrefix _ id). }
  rewrite H1. clear H1.
  destruct (stripPrefix (str "http://arxiv.org/abs/") id) as [rest|] eqn:E1.
  - apply stripPrefix_Some in E1 as E. split.
    + unfold replaceStart.
      destruct (stripPrefix (str "https://arxiv.org/abs/") rest) as [r|] eqn:E2.
      * apply stripPrefix_Some in E2 as ->. rewrite E.
        exists (str "http://arxiv.org/abs/" ++ str "https://arxiv.org/abs/").
        by rewrite <- app_assoc.
      * by exists (str "http://arxiv.org/abs/").
    + split; [|by intros [? _]]. intros Hfix. exfalso.
      assert (Hl : (length id <= length rest)%nat).
      { rewrite <- Hfix at 1. apply length_replaceStart_nil. }
      rewrite E, length_app in Hl. simpl in Hl. lia.
  - unfold replaceStart.
    destruct (stripPrefix (str "https://arxiv.org/abs/") id) as [r|] eqn:E2.
    + apply stripPrefix_Some in E2 as E. split.
      * by exists (str "https://arxiv.org/abs/").
      * split; [|by intros [_ ?]]. intros Hfix. exfalso.
        apply (f_equal (@length _)) in E, Hfix.
        rewrite length_app in E. simpl in E, Hfix. lia.
    + split; [by exists []|]. done.
Qed.

(** ** Invariants of the transition system, in general

    What it takes for a property of the store to hold along every run:
    that the statements of the Prisma client keep it. *)

Section Invariants.

Import Store Actions System.

Context `{DateBuiltins}.

Variable I : DB -> Prop.

Hypothesis I_user_upsert : forall e n, preserves I (user_upsert e n).
Hypothesis I_topic_upsert : forall n, preserves I (topic_upsert n).
Hypothesis I_connect : forall k i, preserves I (connect k i).
Hypothesis I_disconnect : forall k i, preserves I (disconnect k i).
Hypothesis I_set : forall k f db,
  (forall r, Store.id (f r) = Store.id r) ->
  (forall r, authors (f r) = authors r) ->
  I db -> I (set_papers (updateWhere (hasId k) f (papers db)) db).
Hypothesis I_paper_upsert : forall paper date,
  preserves I (paper_upsert (Arxiv.id paper) (refreshed paper date)
                 (created paper date)).
Hypothesis I_savedPaper_upsert : forall u k, preserves I (savedPaper_upsert u k).
Hypothesis I_savedPaper_delete : forall u k, preserves I (savedPaper_delete u k).

Lemma inv_getCurrentUser w : preserves I (getCurrentUser w).
Proof using I_user_upsert.
  unfold getCurrentUser. destruct (currentUser w) as [cu|]; [|apply preserves_throw].
  destruct (negb _); [apply preserves_throw|apply I_user_upsert].
Qed.

Lemma inv_includePaper entry : preserves I (includePaper entry).
Proof. intros db HI. unfold includePaper. by destruct (paper_findUnique _ db). Qed.

Lemma inv_includePapers entries : preserves I (includePapers entries).
Proof.
  induction entries as [|entry entries IH]; simpl; [apply preserves_ret|].
  apply preserves_bind; [apply inv_includePaper|]. intros p.
  apply preserves_bind; [done|]. intros ps. apply preserves_ret.
Qed.

Lemma inv_connectOrCreateAll k names : preserves I (connectOrCreateAll k names).
Proof using I_topic_upsert I_connect.
  induction names as [|n names IH]; simpl; [apply preserves_ret|].
  apply preserves_bind; [|done].
  apply preserves_bind; [apply I_topic_upsert|]. intros t. apply I_connect.
Qed.

Lemma inv_paper_update k f nested :
  (forall r, Store.id (f r) = Store.id r) ->
  (forall r, authors (f r) = authors r) ->
  preserves I nested -> preserves I (paper_update k f nested).
Proof using I_set.
  intros Hid Ha Hn. apply preserves_transaction. intros db HI.
  destruct (paper_findUnique k db); [|done]. apply Hn. by apply I_set.
Qed.

Lemma inv_storeAnalysis k result : preserves I (storeAnalysis k result).
Proof using I_set I_topic_upsert I_connect.
  unfold storeAnalysis.
  repeat (apply preserves_bind; [apply preserves_await|intros ?]).
  apply inv_paper_update; [done|done|apply inv_connectOrCreateAll].
Qed.

Lemma inv_enrichment w paper : preserves I (enrichment w paper).
Proof using I_set I_topic_upsert I_connect.
  apply preserves_tryCatch; [|intros e; apply preserves_ret].
  unfold enrichmentBody. destruct (Arxiv.pdfLink paper); [|apply preserves_throw].
  do 2 (apply preserves_bind; [apply preserves_await|intros ?]).
  apply inv_storeAnalysis.
Qed.

Lemma inv_regenerateSummaryAction w k : preserves I (regenerateSummaryAction w k).
Proof using I_set I_topic_upsert I_connect.
  apply preserves_tryCatch; [|intros e; apply preserves_ret].
  apply preserves_bind; [apply preserves_query|]. intros [p|]; [|apply preserves_ret].
  destruct (negb _); [apply preserves_ret|].
  do 2 (apply preserves_bind; [apply preserves_await|intros ?]).
  apply preserves_bind; [apply inv_storeAnalysis|]. intros _.
  apply preserves_ret.
Qed.

Lemma inv_getPaperByIdAction w k : preserves I (getPaperByIdAction w k).
Proof using I_user_upsert.
  unfold getPaperByIdAction.
  apply preserves_bind; [apply inv_getCurrentUser|]. intros user.
  apply preserves_bind; [apply preserves_query|]. intros [entry|].
  - apply preserves_bind; [apply inv_includePaper|]. intros p.
    apply preserves_bind; [apply preserves_query|]. intros ts.
    destruct (Json.parse _); [apply preserves_ret|apply preserves_throw].
  - apply preserves_ret.
Qed.

Lemma inv_getSavedPapersAction w : preserves I (getSavedPapersAction w).
Proof using I_user_upsert.
  unfold getSavedPapersAction.
  apply preserves_bind; [apply inv_getCurrentUser|]. intros user.
  apply preserves_bind; [apply preserves_query|]. intros entries.
  apply preserves_bind; [apply inv_includePapers|]. intros ps.
  apply preserves_bind; [apply preserves_query|].
  intros [views|]; [apply preserves_ret|apply preserves_throw].
Qed.

Lemma inv_addTopicToPaperAction k n : preserves I (addTopicToPaperAction k n).
Proof using I_set I_topic_upsert I_connect.
  apply preserves_bind; [apply I_topic_upsert|]. intros t.
  apply inv_paper_update; [done|done|apply I_connect].
Qed.

Lemma inv_removeTopicFromPaperAction k i :
  preserves I (removeTopicFromPaperAction k i).
Proof using I_set I_disconnect.
  apply inv_paper_update; [done|done|apply I_disconnect].
Qed.

Lemma inv_savePaperAction w paper : preserves I (savePaperAction w paper).
Proof using I_user_upsert I_paper_upsert I_savedPaper_upsert.
  unfold savePaperAction.
  apply preserves_bind; [apply inv_getCurrentUser|]. intros user.
  apply preserves_bind.
  - destruct (Date_parse _); [|apply preserves_throw]. apply I_paper_upsert.
  - intros _. apply preserves_bind; [apply I_savedPaper_upsert|].
    intros _. apply preserves_ret.
Qed.

Lemma inv_deletePaperAction w k : preserves I (deletePaperAction w k).
Proof using I_user_upsert I_savedPaper_delete.
  apply preserves_bind; [apply inv_getCurrentUser|]. intros user.
  apply I_savedPaper_delete.
Qed.

Lemma inv_perform w c db : I db -> I (fst (perform w c db)).
Proof using All.
  intros HI. destruct c; simpl.
  - by apply inv_getPaperByIdAction.
  - pose proof (inv_savePaperAction w paper db HI) as Hs.
    by destruct (savePaperAction w paper db) as [[[job|]|e] db'].
  - by apply inv_regenerateSummaryAction.
  - by apply inv_getSavedPapersAction.
  - by apply inv_addTopicToPaperAction.
  - by apply inv_removeTopicFromPaperAction.
  - by apply inv_deletePaperAction.
Qed.

Lemma inv_steps allowed s s' :
  rtc (stepOf allowed) s s' -> I (store s) -> I (store s').
Proof using All.
  induction 1 as [|s1 s2 s3 Hstep _ IH]; [done|]. intros HI. apply IH.
  destruct Hstep as [w c s0 _|w db before after job]; simpl in *.
  - by apply inv_perform.
  - by apply inv_enrichment.
Qed.

End Invariants.

(** ** Keys *)

Section Keys.

Import Store Actions System.

Lemma NoDup_key_inj {A K} (key : A -> K) (rows : list A) (x y : A) :
  NoDup (key <$> rows) -> x ∈ rows -> y ∈ rows -> key x = key y -> x = y.
Proof.
  induction rows as [|r rows IH]; [by intros _ ?%elem_of_nil|].
  rewrite fmap_cons, NoDup_cons. intros [Hr Hnd].
  rewrite !elem_of_cons. intros [->|Hx] [->|Hy] Hk; [done| | |by apply IH].
  - exfalso. apply Hr. rewrite Hk. by apply list_elem_of_fmap_2.
  - exfalso. apply Hr. rewrite <- Hk. by apply list_elem_of_fmap_2.
Qed.

Lemma Forall_updateWhere {A} (P : A -> Prop) (sel : A -> bool) f rows :
  (forall r, P r -> P (f r)) -> Forall P rows -> Forall P (updateWhere sel f rows).
Proof.
  intros Hf. unfold updateWhere. induction 1 as [|r rows Hr _ IH]; simpl.
  - constructor.
  - constructor; [|done]. destruct (sel r); auto.
Qed.

Lemma NoDup_snoc_fresh (ids : list N) (n : N) :
  NoDup ids -> Forall (fun i => i < n) ids -> NoDup (ids ++ [n]).
Proof.
  intros Hnd Hlt. apply NoDup_app. split; [done|]. split; [|apply NoDup_singleton].
  intros i Hi ->%list_elem_of_singleton.
  rewrite Forall_forall in Hlt. specialize (Hlt _ Hi). lia.
Qed.

Lemma keyed_user_upsert e n : preserves keyed (user_upsert e n).
Proof.
  apply preserves_statement. intros db (He & Hi & Ht & Hu & Hts).
  destruct (List.find (hasEmail e) (users db)) as [u|] eqn:E; simpl.
  - unfold keyed. simpl.
    rewrite (fmap_updateWhere email), (fmap_updateWhere user_id) by done.
    split_and!; try done. by apply Forall_updateWhere.
  - unfold keyed. simpl. split_and!.
    + by apply (NoDup_key_snoc email).
    + rewrite fmap_app. simpl. apply NoDup_snoc_fresh; [done|]. by apply Forall_fmap.
    + done.
    + apply Forall_app. split.
      * eapply Forall_impl; [done|]. simpl. intros. lia.
      * constructor; [simpl; lia|constructor].
    + eapply Forall_impl; [done|]. simpl. intros. lia.
Qed.

Lemma keyed_topic_upsert n : preserves keyed (topic_upsert n).
Proof.
  apply preserves_statement. intros db (He & Hi & Ht & Hu & Hts).
  unfold topic_findByName.
  destruct (List.find (hasName n) (topics db)) as [t|] eqn:E; simpl; [done|].
  unfold keyed. simpl. split_and!; try done.
  - rewrite fmap_app. simpl. apply NoDup_snoc_fresh; [done|]. by apply Forall_fmap.
  - eapply Forall_impl; [done|]. simpl. intros. lia.
  - apply Forall_app. split.
    + eapply Forall_impl; [done|]. simpl. intros. lia.
    + constructor; [simpl; lia|constructor].
Qed.

Lemma keyed_connect k i : preserves keyed (connect k i).
Proof. intros db HI. unfold connect. by destruct (List.find _ (topics db)). Qed.

Lemma keyed_disconnect k i : preserves keyed (disconnect k i).
Proof. by apply preserves_statement. Qed.

Lemma keyed_paper_upsert k upd cre : preserves keyed (paper_upsert k upd cre).
Proof.
  apply preserves_statement. intros db HI. by destruct (paper_findUnique k db).
Qed.

Lemma keyed_savedPaper_upsert u k : preserves keyed (savedPaper_upsert u k).
Proof.
  apply preserves_statement. intros db HI.
  by destruct (savedPaper_findUnique u k db).
Qed.

Lemma keyed_savedPaper_delete u k : preserves keyed (savedPaper_delete u k).
Proof.
  intros db HI. unfold savedPaper_delete.
  by destruct (savedPaper_findUnique u k db).
Qed.

Lemma keyed_empty : keyed Store.empty.
Proof. unfold keyed. simpl. split_and!; constructor. Qed.

Context `{DateBuiltins}.

Lemma keyed_steps allowed s s' :
  rtc (stepOf allowed) s s' -> keyed (store s) -> keyed (store s').
Proof.
  apply (inv_steps keyed); auto using keyed_user_upsert, keyed_topic_upsert,
    keyed_connect, keyed_disconnect, keyed_paper_upsert,
    keyed_savedPaper_upsert, keyed_savedPaper_delete.
Qed.

(** X5: in every state the system can reach, no two accounts share an
    address or a key and no two topics share a key; together with the
    constraints of [consistent], every [where] clause of the actions
    names at most one row. *)
Theorem reachable_keyed s :
  reachable s ->
  keyed (store s) /\
  (forall e, (length (List.filter (hasEmail e) (users (store s))) <= 1)%nat) /\
  (forall i, (length (List.filter (hasTopicId i) (topics (store s))) <= 1)%nat).
Proof.
  intros Hr.
  assert (Hk : keyed (store s)).
  { by apply (keyed_steps _ initial s Hr), keyed_empty. }
  split; [done|]. destruct Hk as (He & _ & Ht & _). split.
  - intros e. unfold hasEmail.
    destruct (List.find (fun r => bool_decide (email r = e)) (users (store s)))
      eqn:E.
    + rewrite (filter_key_unique email); [lia|done|by rewrite E].
    + apply (find_none_not_in email) in E.
      rewrite (filter_key_absent email); [simpl; lia|done].
  - intros i. unfold hasTopicId.
    destruct (List.find (fun r => bool_decide (topic_id r = i)) (topics (store s)))
      eqn:E.
    + rewrite (filter_key_unique topic_id); [lia|done|by rewrite E].
    + apply (find_none_not_in topic_id) in E.
      rewrite (filter_key_absent topic_id); [simpl; lia|done].
Qed.

End Keys.

(** ** Nothing leaves the catalog *)

Section Growth.

Import Store Actions System.

Lemma grows_refl db : grows db db.
Proof. split; [done|]. split; [done|]. intros u Hu. by exists u. Qed.

Lemma grows_frame db0 db db' :
  Store.id <$> papers db' = Store.id <$> papers db ->
  topics db' = topics db -> users db' = users db ->
  grows db0 db -> grows db0 db'.
Proof. intros Hp Ht Hu (HP & HT & HU). unfold grows. by rewrite Hp, Ht, Hu. Qed.

Lemma grows_user_upsert db0 e n : preserves (grows db0) (user_upsert e n).
Proof.
  apply preserves_statement. intros db (HP & HT & HU).
  destruct (List.find (hasEmail e) (users db)) as [u0|] eqn:E; simpl.
  - split; [done|]. split; [done|]. intros u Hu. simpl.
    destruct (HU u Hu) as (u' & Hin & Hid & Hem).
    exists (if hasEmail e u' then renamed n u' else u'). split.
    + unfold updateWhere.
      apply list_elem_of_In, in_map_iff. exists u'. by rewrite <- list_elem_of_In.
    + by destruct (hasEmail e u').
  - split; [done|]. split; [done|]. intros u Hu. simpl.
    destruct (HU u Hu) as (u' & Hin & Hid & Hem).
    exists u'. split; [|done]. apply elem_of_app. by left.
Qed.

Lemma grows_topic_upsert db0 n : preserves (grows db0) (topic_upsert n).
Proof.
  apply preserves_statement. intros db (HP & HT & HU).
  destruct (topic_findByName n db); simpl; [done|].
  split; [done|]. split; [|done]. intros t Ht. simpl.
  apply elem_of_app. left. by apply HT.
Qed.

Lemma grows_connect db0 k i : preserves (grows db0) (connect k i).
Proof. intros db HI. unfold connect. by destruct (List.find _ (topics db)). Qed.

Lemma grows_disconnect db0 k i : preserves (grows db0) (disconnect k i).
Proof. by apply preserves_statement. Qed.

Lemma grows_set db0 k f db :
  (forall r, Store.id (f r) = Store.id r) ->
  grows db0 db -> grows db0 (set_papers (updateWhere (hasId k) f (papers db)) db).
Proof.
  intros Hf. apply grows_frame; [|done..]. simpl.
  by apply (fmap_updateWhere Store.id).
Qed.

Lemma grows_paper_upsert db0 k upd cre :
  (forall r, Store.id (upd r) = Store.id r) ->
  preserves (grows db0) (paper_upsert k upd cre).
Proof.
  intros Hupd. apply preserves_statement. intros db HI.
  destruct (paper_findUnique k db); simpl.
  - by apply grows_set.
  - destruct HI as (HP & HT & HU). split; [|done]. intros k' Hk'. simpl.
    rewrite fmap_app. apply elem_of_app. left. by apply HP.
Qed.

Lemma grows_savedPaper_upsert db0 u k : preserves (grows db0) (savedPaper_upsert u k).
Proof.
  apply preserves_statement. intros db HI.
  by destruct (savedPaper_findUnique u k db).
Qed.

Lemma grows_savedPaper_delete db0 u k : preserves (grows db0) (savedPaper_delete u k).
Proof.
  intros db HI. unfold savedPaper_delete.
  by destruct (savedPaper_findUnique u k db).
Qed.

Context `{DateBuiltins}.

Lemma grows_steps allowed s s' :
  rtc (stepOf allowed) s s' -> grows (store s) (store s').
Proof.
  intros Hr. apply (inv_steps (grows (store s)) (grows_user_upsert _)
    (grows_topic_upsert _) (grows_connect _) (grows_disconnect _)) with allowed s;
    [| | | |done|apply grows_refl].
  - intros k f db Hf _. by apply grows_set.
  - intros paper date. by apply grows_paper_upsert.
  - apply grows_savedPaper_upsert.
  - apply grows_savedPaper_delete.
Qed.

(** X6: no action and no enrichment unit ever removes a row of the
    catalog.  Along every run a paper that is in the catalog stays in it
    (removing it from a library only removes the link), a topic stays as
    it is, with its key and name, and an account keeps its key and its
    address. *)
Theorem nothing_is_lost s s' :
  rtc step s s' ->
  (forall k, is_Some (paper_findUnique k (store s)) ->
             is_Some (paper_findUnique k (store s'))) /\
  (forall t, t ∈ topics (store s) -> t ∈ topics (store s')) /\
  (forall u, u ∈ users (store s) ->
     exists u', u' ∈ users (store s') /\
       user_id u' = user_id u /\ email u' = email u).
Proof.
  intros Hr. destruct (grows_steps _ s s' Hr) as (HP & HT & HU).
  split; [|done]. intros k. unfold paper_findUnique.
  rewrite !find_hasId_elem. apply HP.
Qed.

Lemma user_upsert_found e n db u :
  NoDup (email <$> users db) -> u ∈ users db -> email u = e ->
  fst (user_upsert e n db) = Resolved (renamed n u).
Proof.
  intros Hnd Hin He. unfold user_upsert, statement.
  destruct (List.find (hasEmail e) (users db)) as [u0|] eqn:E; simpl.
  - apply find_some in E as [Hin0 He0]. apply bool_decide_eq_true in He0.
    apply list_elem_of_In in Hin0.
    rewrite (NoDup_key_inj email (users db) u0 u); [done..|]. by rewrite He0.
  - exfalso. apply (find_none_not_in email) in E. apply E.
    rewrite <- He. by apply list_elem_of_fmap_2.
Qed.

(** X7: an account keeps its key for good.  Whoever signs in later with
    the address of an account that exists, after any run of the system,
    is given the key that account has now, so the links saved under it
    are found again. *)
Theorem account_stable s s' u w :
  keyed (store s) -> rtc step s s' ->
  u ∈ users (store s) -> sessionEmail w = Some (email u) -> email u <> [] ->
  exists u' db',
    getCurrentUser w (store s') = (Resolved u', db') /\
    user_id u' = user_id u /\ email u' = email u /\
    savedPapers db' = savedPapers (store s').
Proof.
  intros Hk Hr Hu Hw Hne.
  pose proof (keyed_steps _ s s' Hr Hk) as (He & _).
  destruct (grows_steps _ s s' Hr) as (_ & _ & HU).
  destruct (HU u Hu) as (u1 & Hin & Hid & Hem).
  unfold sessionEmail in Hw. unfold getCurrentUser.
  destruct (currentUser w) as [cu|]; [|done]. simpl in Hw. rewrite Hw. simpl.
  assert (truthy (email u) = true) as ->.
  { by destruct (email u). }
  simpl.
  pose proof (user_upsert_found (email u) (displayName cu) (store s') u1 He Hin Hem)
    as Hf.
  destruct (user_upsert_run (email u) (displayName cu) (store s'))
    as (u' & db' & Hrun & _ & HS & _).
  rewrite Hrun in *. simpl in Hf. injection Hf as ->.
  exists (renamed (displayName cu) u1), db'. by split_and!.
Qed.

End Growth.

(** ** The library of a user *)

Section Library.

Import Store Actions System.

Lemma find_filter_negb {A} (sel : A -> bool) rows :
  List.find sel (List.filter (fun r => negb (sel r)) rows) = None.
Proof.
  induction rows as [|r rows IH]; [done|]. cbn [List.filter].
  destruct (sel r) eqn:E; simpl; [done|]. by rewrite E.
Qed.

Lemma filter_negb_none {A} (sel : A -> bool) rows :
  List.find sel rows = None -> List.filter (fun r => negb (sel r)) rows = rows.
Proof.
  induction rows as [|r rows IH]; [done|]. simpl.
  destruct (sel r) eqn:E; [done|]. simpl. intros Hn. by rewrite IH.
Qed.

Lemma filter_snoc {A} (sel : A -> bool) rows (x : A) :
  List.filter sel (rows ++ [x]) =
    List.filter sel rows ++ (if sel x then [x] else []).
Proof. rewrite List.filter_app. simpl. by destruct (sel x). Qed.

Lemma fmap_rev_list {A B} (f : A -> B) (l : list A) : f <$> rev l = rev (f <$> l).
Proof.
  induction l as [|x l IH]; [done|]. simpl. by rewrite fmap_app, IH.
Qed.

Lemma getCurrentUser_rejected w db e db' :
  getCurrentUser w db = (Rejected e, db') ->
  db' = db /\ present (sessionEmail w) = false /\
  (e = Error (str "Unauthorized: Please sign in to continue.") \/
   e = Error (str "No email found for user.")).
Proof.
  unfold getCurrentUser, sessionEmail.
  destruct (currentUser w) as [cu|]; simpl.
  - destruct (present (head (emailAddresses cu))) eqn:E; simpl.
    + destruct (user_upsert_run (default [] (head (emailAddresses cu)))
                  (displayName cu) db) as (u & db1 & Hrun & _).
      by rewrite Hrun.
    + intros [= <- <-]. auto.
  - intros [= <- <-]. auto.
Qed.

(** What the sign-in of a session with an address gives: the account of
    that address, which is in the table of accounts from then on, next to
    every account of another address. *)
Lemma getCurrentUser_account w db user dbA :
  getCurrentUser w db = (Resolved user, dbA) ->
  sessionEmail w = Some (email user) /\ user ∈ users dbA /\
  (forall v, v ∈ users db -> email v <> email user -> v ∈ users dbA) /\
  (keyed db -> keyed dbA).
Proof.
  intros HU. split_and!.
  - revert HU. unfold getCurrentUser, sessionEmail.
    destruct (currentUser w) as [cu|]; [|done]. simpl.
    destruct (head (emailAddresses cu)) as [e|]; [|done]. simpl.
    destruct (negb (truthy e)); [done|].
    destruct (user_upsert_run e (displayName cu) db) as (u & db1 & Hrun & H').
    rewrite Hrun. intros [= <- <-]. by destruct H' as (_ & _ & _ & _ & -> & _).
  - revert HU. unfold getCurrentUser.
    destruct (currentUser w) as [cu|]; [|done].
    destruct (negb _); [done|]. unfold user_upsert, statement.
    destruct (List.find _ (users db)) as [u0|] eqn:E; intros [= <- <-]; simpl.
    + apply find_some in E as [Hin Hsel]. unfold updateWhere.
      apply list_elem_of_In, in_map_iff. exists u0. by rewrite Hsel.
    + apply elem_of_app. right. by apply list_elem_of_singleton.
  - intros v Hv Hne. revert HU. unfold getCurrentUser.
    destruct (currentUser w) as [cu|]; [|done].
    destruct (negb _); [done|]. unfold user_upsert, statement.
    destruct (List.find _ (users db)) as [u0|] eqn:E; intros [= <- <-]; simpl.
    + unfold updateWhere. apply list_elem_of_In, in_map_iff. exists v.
      split; [|by apply list_elem_of_In].
      destruct (hasEmail _ v) eqn:Ev; [|done].
      apply bool_decide_eq_true in Ev. apply find_some in E as [_ He0].
      apply bool_decide_eq_true in He0. simpl in Hne. congruence.
    + apply elem_of_app. by left.
  - intros Hk. pose proof (inv_getCurrentUser keyed keyed_user_upsert w db Hk) as Hk'.
    by rewrite HU in Hk'.
Qed.

Context `{DateBuiltins}.

(** X8: the four actions that work on a library need a session.  Without
    a signed-in user, or with one that has no address, each of them
    throws the error of [getCurrentUser] and leaves the store as it
    was. *)
Theorem session_required w db (id : jsstring) (paper : Arxiv.ArxivPaper) :
  present (sessionEmail w) = false ->
  exists e,
    (e = Error (str "Unauthorized: Please sign in to continue.") \/
     e = Error (str "No email found for user.")) /\
    (currentUser w = None ->
     e = Error (str "Unauthorized: Please sign in to continue.")) /\
    getPaperByIdAction w id db = (Rejected e, db) /\
    savePaperAction w paper db = (Rejected e, db) /\
    getSavedPapersAction w db = (Rejected e, db) /\
    deletePaperAction w id db = (Rejected e, db).
Proof.
  intros Hs.
  assert (HU : exists e,
    (e = Error (str "Unauthorized: Please sign in to continue.") \/
     e = Error (str "No email found for user.")) /\
    (currentUser w = None ->
     e = Error (str "Unauthorized: Please sign in to continue.")) /\
    getCurrentUser w db = (Rejected e, db)).
  { unfold getCurrentUser. unfold sessionEmail in Hs.
    destruct (currentUser w) as [cu|]; simpl in *.
    - rewrite Hs. simpl. eexists. split; [by right|]. by split.
    - eexists. split; [by left|]. by split. }
  destruct HU as (e & He & Hn & HU). exists e. split; [done|]. split; [done|].
  unfold getPaperByIdAction, savePaperAction, getSavedPapersAction,
    deletePaperAction, mbind, M_bind.
  by rewrite HU.
Qed.

Lemma deletePaperAction_resolved w k db db1 :
  deletePaperAction w k db = (Resolved tt, db1) ->
  exists user dbA,
    getCurrentUser w db = (Resolved user, dbA) /\
    is_Some (savedPaper_findUnique (user_id user) k dbA) /\
    db1 = set_savedPapers
            (List.filter (fun s => negb (isLink (user_id user) k s)) (savedPapers dbA))
            dbA.
Proof.
  unfold deletePaperAction, mbind, M_bind.
  destruct (getCurrentUser w db) as [[user|e] dbA] eqn:HU; [|done].
  unfold savedPaper_delete.
  destruct (savedPaper_findUnique (user_id user) k dbA) eqn:E; [|done].
  intros [= <-]. exists user, dbA. by split_and!.
Qed.

(** X9: removing a paper from a library removes the caller's link to it
    and nothing else: the paper stays in the catalog with its analysis
    and its topics, every other link stays, and the paper is no longer
    found in the caller's library.  Removing a paper that is not in the
    library fails with the record-not-found error of the client and
    removes nothing. *)
Theorem deletePaperAction_unlinks w k db :
  (forall db1,
     deletePaperAction w k db = (Resolved tt, db1) ->
     exists user,
       getCurrentUser w db1 = (Resolved user, db1) /\
       savedPaper_findUnique (user_id user) k db1 = None /\
       savedPapers db1 =
         List.filter (fun s => negb (isLink (user_id user) k s)) (savedPapers db) /\
       papers db1 = papers db /\ topics db1 = topics db /\
       paperTopics db1 = paperTopics db) /\
  (forall user dbA,
     getCurrentUser w db = (Resolved user, dbA) ->
     savedPaper_findUnique (user_id user) k db = None ->
     deletePaperAction w k db = (Rejected recordNotFound, dbA) /\
     savedPapers dbA = savedPapers db /\ papers dbA = papers db).
Proof.
  split.
  - intros db1 Hdel.
    destruct (deletePaperAction_resolved _ _ _ _ Hdel) as (user & dbA & HU & _ & ->).
    destruct (getCurrentUser_resolved _ _ _ _ HU) as (HP & HS & HT & HL & Hstable).
    exists user. simpl. rewrite HS. split_and!; try done.
    + by apply Hstable.
    + unfold savedPaper_findUnique. simpl. apply find_filter_negb.
  - intros user dbA HU Hnone.
    destruct (getCurrentUser_resolved _ _ _ _ HU) as (HP & HS & _).
    split; [|done]. unfold deletePaperAction, mbind, M_bind. rewrite HU.
    unfold savedPaper_delete, savedPaper_findUnique in *. by rewrite HS, Hnone.
Qed.

Lemma savePaperAction_links w paper db job db1 :
  savePaperAction w paper db = (Resolved job, db1) ->
  exists user dbA,
    getCurrentUser w db = (Resolved user, dbA) /\
    getCurrentUser w db1 = (Resolved user, db1) /\
    users db1 = users dbA /\
    is_Some (paper_findUnique (Arxiv.id paper) db1) /\
    savedPapers db1 =
      savedPapers db ++
      match savedPaper_findUnique (user_id user) (Arxiv.id paper) db with
      | Some _ => []
      | None => [{| userId := user_id user; paperId := Arxiv.id paper |}]
      end.
Proof.
  intros Hsave.
  destruct (savePaperAction_resolved _ _ _ _ _ Hsave)
    as (user & date & dbA & dbB & HU & HD & HP & HL & _).
  destruct (getCurrentUser_resolved _ _ _ _ HU) as (_ & HS & _ & _ & Hstable).
  destruct (paper_upsert_run (Arxiv.id paper) (refreshed paper date)
              (created paper date) dbA (refreshed_id paper date)
              (refreshed_idem paper date) eq_refl (refreshed_created paper date))
    as (dbB' & HP' & HPu & HPs & _ & _ & _ & HPf & _).
  rewrite HP in HP'. injection HP' as <-.
  assert (Hrow : is_Some (paper_findUnique (Arxiv.id paper) dbB)).
  { rewrite HPf. by eexists. }
  exists user, dbA. split; [done|].
  revert HL. unfold savedPaper_upsert, statement, savedPaper_findUnique.
  rewrite HPs, HS.
  destruct (List.find _ (savedPapers db)) eqn:E; intros [= <-].
  - split_and!; try done.
    + by apply Hstable.
    + by rewrite app_nil_r, HPs.
  - split_and!; try done. by apply Hstable.
Qed.

(** X10: saving a paper and then removing it leaves the links as they
    were before the save, for a paper that was not in the library; the
    catalog keeps the paper. *)
Theorem save_then_delete w paper db job db1 :
  savePaperAction w paper db = (Resolved job, db1) ->
  exists user db2,
    deletePaperAction w (Arxiv.id paper) db1 = (Resolved tt, db2) /\
    getCurrentUser w db2 = (Resolved user, db2) /\
    savedPapers db2 =
      List.filter (fun s => negb (isLink (user_id user) (Arxiv.id paper) s))
        (savedPapers db) /\
    (savedPaper_findUnique (user_id user) (Arxiv.id paper) db = None ->
     savedPapers db2 = savedPapers db) /\
    papers db2 = papers db1 /\
    is_Some (paper_findUnique (Arxiv.id paper) db2).
Proof.
  intros Hsave.
  destruct (savePaperAction_links _ _ _ _ _ Hsave)
    as (user & dbA & HU & HU1 & Hus & Hrow & Hlinks).
  assert (Hl : isLink (user_id user) (Arxiv.id paper)
                 {| userId := user_id user; paperId := Arxiv.id paper |} = true).
  { by apply bool_decide_eq_true. }
  assert (Hfound : is_Some (savedPaper_findUnique (user_id user) (Arxiv.id paper) db1)).
  { unfold savedPaper_findUnique in *. rewrite Hlinks.
    destruct (List.find _ (savedPapers db)) eqn:E.
    - rewrite app_nil_r, E. by eexists.
    - rewrite find_snoc, E, Hl. by eexists. }
  destruct Hfound as [entry Hentry].
  eexists user, _. split.
  { unfold deletePaperAction, mbind, M_bind. rewrite HU1.
    unfold savedPaper_delete. rewrite Hentry. reflexivity. }
  simpl. split_and!; try done.
  - destruct (getCurrentUser_resolved _ _ _ _ HU1) as (_ & _ & _ & _ & Hstable).
    by apply Hstable.
  - rewrite Hlinks. unfold savedPaper_findUnique.
    destruct (List.find _ (savedPapers db)) eqn:E.
    + by rewrite app_nil_r.
    + rewrite filter_snoc, Hl. simpl. by rewrite app_nil_r.
  - intros Hnone. rewrite Hlinks, Hnone. rewrite filter_snoc, Hl. simpl.
    by rewrite app_nil_r, filter_negb_none.
Qed.

Lemma listView_id p ts v : listView p ts = Some v -> v_id v = Store.id p.
Proof.
  unfold listView. destruct (Json.parse (authors p)); [|done].
  simpl. by intros [= <-].
Qed.

(** The listing of a signed-in user, link by link. *)
Lemma getSavedPapersAction_ids w db user db' :
  sound db ->
  getCurrentUser w db = (Resolved user, db') ->
  exists views,
    getSavedPapersAction w db = (Resolved views, db') /\
    v_id <$> views =
      rev (paperId <$>
             List.filter (fun s => bool_decide (userId s = user_id user))
               (savedPapers db)).
Proof.
  intros Hs HU.
  destruct (getSavedPapersAction_resolved w db user db' Hs HU)
    as (ps & views & Hget & Hps & Hviews).
  destruct (getCurrentUser_resolved _ _ _ _ HU) as (_ & HS & _).
  exists views. split; [done|].
  unfold savedPaper_findMany in Hps. rewrite HS in Hps.
  rewrite <- fmap_rev_list. clear Hget.
  revert ps views Hps Hviews.
  induction (rev (List.filter _ (savedPapers db))) as [|e es IH];
    intros ps views Hps Hviews.
  - apply Forall2_nil_inv_l in Hps as ->. by apply Forall2_nil_inv_l in Hviews as ->.
  - apply Forall2_cons_inv_l in Hps as (p & ps' & Hp & Hps' & ->).
    apply Forall2_cons_inv_l in Hviews as (v & vs & Hv & Hvs & ->).
    rewrite !fmap_cons. f_equal; [|by apply (IH ps')].
    rewrite (listView_id _ _ _ Hv). apply find_some in Hp as [_ Hk].
    by apply bool_decide_eq_true in Hk.
Qed.

(** X11: the library page lists exactly the papers the caller has linked,
    one entry per link, the most recently saved first, each with the
    topics of the paper; on a sound store the listing of a signed-in
    user never fails. *)
Theorem getSavedPapersAction_listing w db user db' :
  sound db ->
  getCurrentUser w db = (Resolved user, db') ->
  exists views,
    getSavedPapersAction w db = (Resolved views, db') /\
    v_id <$> views =
      rev (paperId <$>
             List.filter (fun s => bool_decide (userId s = user_id user))
               (savedPapers db)) /\
    length views =
      length (List.filter (fun s => bool_decide (userId s = user_id user))
                (savedPapers db)) /\
    Forall (fun v => v_isSaved v = None /\
                     v_topics v = Some (topicsOf (v_id v) db')) views.
Proof.
  intros Hs HU.
  destruct (getSavedPapersAction_ids w db user db' Hs HU) as (views & Hget & Hids).
  exists views. split; [done|]. split; [done|]. split.
  - apply (f_equal (@length _)) in Hids.
    by rewrite length_fmap, length_rev, length_fmap in Hids.
  - destruct (getSavedPapersAction_resolved w db user db' Hs HU)
      as (ps & views' & Hget' & _ & Hviews).
    rewrite Hget in Hget'. injection Hget' as <-. clear Hget Hids.
    induction Hviews as [|p v ps views Hv _ IH]; [constructor|].
    constructor; [|done].
    unfold listView in Hv. destruct (Json.parse (authors p)); [|done].
    simpl in Hv. by injection Hv as <-.
Qed.

(** X12: a paper that was not in the caller's library is, right after it
    is saved, the first entry of the listing; saving a paper that is
    already there leaves the order of the listing as it was. *)
Theorem latest_save_first w paper db job db1 :
  sound db ->
  savePaperAction w paper db = (Resolved job, db1) ->
  exists user views,
    getCurrentUser w db1 = (Resolved user, db1) /\
    getSavedPapersAction w db1 = (Resolved views, db1) /\
    let before :=
      rev (paperId <$>
             List.filter (fun s => bool_decide (userId s = user_id user))
               (savedPapers db)) in
    v_id <$> views =
      match savedPaper_findUnique (user_id user) (Arxiv.id paper) db with
      | Some _ => before
      | None => Arxiv.id paper :: before
      end.
Proof.
  intros Hs Hsave.
  pose proof (sound_savePaperAction w paper db Hs) as Hs1.
  rewrite Hsave in Hs1. simpl in Hs1.
  destruct (savePaperAction_links _ _ _ _ _ Hsave)
    as (user & dbA & HU & HU1 & Hus & Hrow & Hlinks).
  destruct (getSavedPapersAction_ids w db1 user db1 Hs1 HU1)
    as (views & Hget & Hids).
  exists user, views. split; [done|]. split; [done|]. simpl.
  rewrite Hids, Hlinks.
  destruct (savedPaper_findUnique (user_id user) (Arxiv.id paper) db).
  - by rewrite app_nil_r.
  - rewrite filter_snoc. simpl. rewrite bool_decide_true by done.
    by rewrite fmap_app, rev_app_distr.
Qed.

End Library.

(** ** Libraries do not interfere *)

Section Isolation.

Import Store Actions System.

Variable L : list SavedPaper.

Lemma links_user_upsert e n : preserves (linksAre L) (user_upsert e n).
Proof.
  apply preserves_statement. intros db HI.
  by destruct (List.find (hasEmail e) (users db)).
Qed.

Lemma links_topic_upsert n : preserves (linksAre L) (topic_upsert n).
Proof.
  apply preserves_statement. intros db HI. by destruct (topic_findByName n db).
Qed.

Lemma links_connect k i : preserves (linksAre L) (connect k i).
Proof. intros db HI. unfold connect. by destruct (List.find _ (topics db)). Qed.

Lemma links_disconnect k i : preserves (linksAre L) (disconnect k i).
Proof. by apply preserves_statement. Qed.

Lemma links_set k (f : Paper -> Paper) db :
  linksAre L db -> linksAre L (set_papers (updateWhere (hasId k) f (papers db)) db).
Proof. done. Qed.

End Isolation.

Section Isolated.

Import Store Actions System.

Context `{DateBuiltins}.

Lemma filter_filter_keep {A} (p q : A -> bool) rows :
  (forall x, p x = true -> q x = true) ->
  List.filter p (List.filter q rows) = List.filter p rows.
Proof.
  intros Hpq. induction rows as [|r rows IH]; [done|]. simpl.
  destruct (q r) eqn:Eq; simpl.
  - by rewrite IH.
  - destruct (p r) eqn:Ep; [|done]. apply Hpq in Ep. congruence.
Qed.

Lemma other_account wA db user dbA uB :
  keyed db -> uB ∈ users db -> sessionEmail wA <> Some (email uB) ->
  getCurrentUser wA db = (Resolved user, dbA) ->
  user_id user <> user_id uB.
Proof.
  intros Hk HB Hne HU.
  destruct (getCurrentUser_account _ _ _ _ HU) as (He & Hin & Hothers & Hk').
  assert (Hdiff : email uB <> email user) by congruence.
  intros Heq. apply Hdiff. f_equal.
  destruct (Hk' Hk) as (_ & Hids & _).
  apply (NoDup_key_inj user_id (users dbA)); auto.
Qed.

(** X13: nothing one user does changes the library of another.  Whatever
    action a session performs, and whether it returns or throws, the
    links of every account with another address are the same afterwards,
    in the same order; actions other than save and delete, and the
    enrichment units, do not write links at all. *)
Theorem library_isolation wA c db uB :
  keyed db -> uB ∈ users db -> sessionEmail wA <> Some (email uB) ->
  savedPaper_findMany (user_id uB) (fst (perform wA c db))
    = savedPaper_findMany (user_id uB) db /\
  (match c with SavePaper _ | DeletePaper _ => True
   | _ => savedPapers (fst (perform wA c db)) = savedPapers db end) /\
  (forall w job, savedPapers (snd (enrichment w job db)) = savedPapers db).
Proof.
  intros Hk HB Hne.
  pose proof (links_user_upsert (savedPapers db)) as F1.
  pose proof (links_topic_upsert (savedPapers db)) as F2.
  pose proof (links_connect (savedPapers db)) as F3.
  pose proof (links_disconnect (savedPapers db)) as F4.
  assert (F5 : forall k f d, (forall r, Store.id (f r) = Store.id r) ->
            (forall r, authors (f r) = authors r) ->
            linksAre (savedPapers db) d ->
            linksAre (savedPapers db)
              (set_papers (updateWhere (hasId k) f (papers d)) d)).
  { intros k f d _ _. apply links_set. }
  split_and!.
  - destruct c as [k|paper|paperId| |paperId topicName|paperId topicId|paperId];
      simpl.
    + unfold savedPaper_findMany.
      by rewrite (inv_getPaperByIdAction _ F1 wA k db eq_refl).
    + assert (snd (savePaperAction wA paper db) =
              fst (match savePaperAction wA paper db with
                   | (Resolved (Some job), db') => (db', [job])
                   | (_, db') => (db', [])
                   end)) as <-.
      { by destruct (savePaperAction wA paper db) as [[[job|]|e] db']. }
      unfold savePaperAction, mbind, M_bind.
      destruct (getCurrentUser wA db) as [[user|e] dbA] eqn:HU; simpl.
      * pose proof (other_account _ _ _ _ _ Hk HB Hne HU) as Hdiff.
        destruct (getCurrentUser_resolved _ _ _ _ HU) as (_ & HS & _).
        destruct (Date_parse (Arxiv.published paper)) as [date|]; simpl.
        -- unfold paper_upsert, statement.
           destruct (paper_findUnique (Arxiv.id paper) dbA);
             unfold savedPaper_upsert, statement, savedPaper_findUnique; simpl;
             rewrite HS;
             (destruct (List.find _ (savedPapers db)); simpl;
              unfold savedPaper_findMany; simpl; rewrite ?HS; [done|];
              rewrite filter_snoc; simpl;
              rewrite bool_decide_false by done; by rewrite app_nil_r).
        -- unfold savedPaper_findMany. by rewrite HS.
      * by apply getCurrentUser_rejected in HU as [-> _].
    + unfold savedPaper_findMany.
      by rewrite (inv_regenerateSummaryAction _ F2 F3 F5 wA paperId db eq_refl).
    + unfold savedPaper_findMany.
      by rewrite (inv_getSavedPapersAction _ F1 wA db eq_refl).
    + unfold savedPaper_findMany.
      by rewrite (inv_addTopicToPaperAction _ F2 F3 F5 paperId topicName db eq_refl).
    + unfold savedPaper_findMany.
      by rewrite (inv_removeTopicFromPaperAction _ F4 F5 paperId topicId db eq_refl).
    + unfold deletePaperAction, mbind, M_bind.
      destruct (getCurrentUser wA db) as [[user|e] dbA] eqn:HU; simpl.
      * pose proof (other_account _ _ _ _ _ Hk HB Hne HU) as Hdiff.
        destruct (getCurrentUser_resolved _ _ _ _ HU) as (_ & HS & _).
        unfold savedPaper_delete.
        destruct (savedPaper_findUnique (user_id user) paperId dbA); simpl;
          unfold savedPaper_findMany; simpl; rewrite HS; [|done].
        f_equal. apply filter_filter_keep. intros x Hx.
        apply bool_decide_eq_true in Hx. apply negb_true_iff.
        apply bool_decide_eq_false. unfold linkKey. intros [= Hu _]. congruence.
      * by apply getCurrentUser_rejected in HU as [-> _].
  - destruct c as [k|paper|paperId| |paperId topicName|paperId topicId|paperId];
      simpl; try done.
    + by rewrite (inv_getPaperByIdAction _ F1 wA k db eq_refl).
    + by rewrite (inv_regenerateSummaryAction _ F2 F3 F5 wA paperId db eq_refl).
    + by rewrite (inv_getSavedPapersAction _ F1 wA db eq_refl).
    + by rewrite (inv_addTopicToPaperAction _ F2 F3 F5 paperId topicName db eq_refl).
    + by rewrite (inv_removeTopicFromPaperAction _ F4 F5 paperId topicId db eq_refl).
  - intros w job. by rewrite (inv_enrichment _ F2 F3 F5 w job db eq_refl).
Qed.

End Isolated.

(** ** Storing an analysis *)

Section Analysis.

Import Store Actions System.

(** A failed [prisma.paper.update] leaves nothing behind. *)
Lemma storeAnalysis_rejected k result db e db' :
  storeAnalysis k result db = (Rejected e, db') -> db' = db.
Proof.
  unfold storeAnalysis, mbind, M_bind, await.
  destruct (member result (str "summary")) as [s|]; [|by intros [= _ <-]].
  destruct (member result (str "institution")) as [i|]; [|by intros [= _ <-]].
  destruct (member result (str "topics")) as [t|]; [|by intros [= _ <-]].
  destruct (topicItems t) as [items|]; [|by intros [= _ <-]].
  destruct (stringColumn s) as [s'|]; [|by intros [= _ <-]].
  destruct (stringColumn i) as [i'|]; [|by intros [= _ <-]].
  destruct (topicNames items) as [names|]; [|by intros [= _ <-]].
  unfold paper_update, transaction.
  destruct (match paper_findUnique k db with
            | Some _ => _ | None => _ end) as [[[]|e'] db'']; [done|].
  by intros [= _ <-].
Qed.

Lemma find_updateWhere_key k k' (f : Paper -> Paper) rows :
  (forall r, Store.id (f r) = Store.id r) -> k' <> k ->
  List.find (hasId k') (updateWhere (hasId k) f rows) = List.find (hasId k') rows.
Proof.
  intros Hf Hne.
  rewrite find_updateWhere_other by (intros r; unfold hasId; by rewrite Hf).
  destruct (List.find (hasId k') rows) as [r|] eqn:E; [|done]. simpl.
  apply find_some in E as [_ E]. apply bool_decide_eq_true in E.
  unfold hasId. rewrite bool_decide_false; [done|congruence].
Qed.

Lemma storeAnalysis_unfold k s i names :
  storeAnalysis k (analysisOf s i names) =
    paper_update k (analysed (Some (Some s)) (Some (Some i)))
      (connectOrCreateAll k names).
Proof.
  unfold storeAnalysis, analysisOf.
  change (member _ (str "summary")) with (Resolved (A:=jsval) (Val (Json.JString s))).
  change (member _ (str "institution"))
    with (Resolved (A:=jsval) (Val (Json.JString i))).
  change (member _ (str "topics"))
    with (Resolved (A:=jsval) (Val (Json.JArray (Json.JString <$> names)))).
  unfold mbind, M_bind, await. simpl. by rewrite topicNames_strings.
Qed.

(** What the update of a well-formed analysis leaves, for a paper of the
    catalog. *)
Lemma storeAnalysis_run k s i names db row :
  paper_findUnique k db = Some row ->
  exists db1,
    storeAnalysis k (analysisOf s i names) db = (Resolved tt, db1) /\
    paper_findUnique k db1 = Some (analysed (Some (Some s)) (Some (Some i)) row) /\
    Forall (fun n => attached k n db1) names /\
    (forall k' n', attached k' n' db -> attached k' n' db1) /\
    (forall k', k' <> k -> paper_findUnique k' db1 = paper_findUnique k' db) /\
    savedPapers db1 = savedPapers db /\ users db1 = users db /\
    (names = [] -> topics db1 = topics db /\ paperTopics db1 = paperTopics db).
Proof.
  intros Hrow. rewrite storeAnalysis_unfold. unfold paper_update, transaction.
  rewrite Hrow.
  set (dbS := set_papers (updateWhere (hasId k)
                (analysed (Some (Some s)) (Some (Some i))) (papers db)) db).
  destruct (connectOrCreateAll_run k names dbS) as (db1 & Hrun & Hp & Hatt & Hmono).
  rewrite Hrun. exists db1. split; [done|].
  assert (Hl : linksAre (savedPapers db) (snd (connectOrCreateAll k names dbS))).
  { by apply (inv_connectOrCreateAll _ (links_topic_upsert (savedPapers db))
                (links_connect (savedPapers db))). }
  assert (Hu : users (snd (connectOrCreateAll k names dbS)) = users db).
  { apply (inv_connectOrCreateAll (fun d => users d = users db)); [| |done].
    - intros n. apply preserves_statement. intros d Hd.
      by destruct (topic_findByName n d).
    - intros k0 i0 d Hd. unfold connect. by destruct (List.find _ (topics d)). }
  rewrite Hrun in Hl, Hu. simpl in Hl, Hu, Hp.
  split_and!; try done.
  - unfold paper_findUnique in *. rewrite Hp, find_updateWhere, Hrow; done.
  - intros k' Hne. unfold paper_findUnique. rewrite Hp.
    by apply find_updateWhere_key.
  - intros ->. simpl in Hrun. by injection Hrun as <-.
Qed.

(** X14: storing an analysis [{summary, institution, topics}] for a paper
    of the catalog writes the two columns of that paper and attaches
    every named topic to it, creating the topics that are new.  It
    changes no other column of the row, no other row, no link and no
    account, and it detaches nothing.  For a paper that is not in the
    catalog it fails and leaves the store as it was, without the topics
    it would have created. *)
Theorem storeAnalysis_writes k s i names db :
  (forall row,
     paper_findUnique k db = Some row ->
     exists db1,
       storeAnalysis k (analysisOf s i names) db = (Resolved tt, db1) /\
       paper_findUnique k db1 =
         Some {| Store.id := Store.id row; title := title row;
                 authors := authors row; abstract := abstract row;
                 summary := Some s; institution := Some i;
                 url := url row; filePath := filePath row;
                 publishedDate := publishedDate row |} /\
       Forall (fun n => attached k n db1) names /\
       (forall k' n', attached k' n' db -> attached k' n' db1) /\
       (forall k', k' <> k -> paper_findUnique k' db1 = paper_findUnique k' db) /\
       savedPapers db1 = savedPapers db /\ users db1 = users db) /\
  (paper_findUnique k db = None ->
   storeAnalysis k (analysisOf s i names) db = (Rejected recordNotFound, db)).
Proof.
  split.
  - intros row Hrow.
    destruct (storeAnalysis_run k s i names db row Hrow)
      as (db1 & Hrun & Hrow1 & Hatt & Hmono & Hother & Hl & Hu & _).
    exists db1. by split_and!.
  - intros Hnone. rewrite storeAnalysis_unfold. unfold paper_update, transaction.
    by rewrite Hnone.
Qed.

Context `{DateBuiltins}.

(** X15: regenerating a summary never throws and is all or nothing.  The
    call always returns a result; when the result is a failure, whatever
    the reason (no such paper, no PDF, download, model, or an answer the
    store refuses), the store is exactly as it was; when it is a
    success, the store is the one the single update of the analysis
    left. *)
Theorem regenerateSummaryAction_atomic w paperId db :
  exists result,
    regenerateSummaryAction w paperId db
      = (Resolved result, snd (regenerateSummaryAction w paperId db)) /\
    (success result = false ->
     is_Some (error result) /\ snd (regenerateSummaryAction w paperId db) = db) /\
    (success result = true ->
     error result = None /\
     exists paper data analysis,
       paper_findUnique paperId db = Some paper /\
       download w (secureUrl (default [] (filePath paper))) longUserAgent
         = Resolved data /\
       Analyzer.analyzePdfBuffer (model w) data = Resolved analysis /\
       storeAnalysis paperId analysis db
         = (Resolved tt, snd (regenerateSummaryAction w paperId db))).
Proof.
  unfold regenerateSummaryAction, tryCatch, mbind, M_bind, query, await, mret, M_ret.
  destruct (paper_findUnique paperId db) as [paper|] eqn:Hrow.
  2:{ eexists. split; [reflexivity|]. simpl. split; [by eauto|done]. }
  destruct (negb (present (filePath paper))).
  { eexists. split; [reflexivity|]. simpl. split; [by eauto|done]. }
  destruct (download w _ _) as [data|e] eqn:Hdata.
  2:{ eexists. split; [reflexivity|]. simpl. split; [by eauto|done]. }
  destruct (Analyzer.analyzePdfBuffer (model w) data) as [analysis|e] eqn:Han.
  2:{ eexists. split; [reflexivity|]. simpl. split; [by eauto|done]. }
  destruct (storeAnalysis paperId analysis db) as [[[]|e] db1] eqn:Hst.
  - eexists. split; [reflexivity|]. simpl. split; [done|]. intros _.
    split; [done|]. by exists paper, data, analysis.
  - apply storeAnalysis_rejected in Hst as ->.
    eexists. split; [reflexivity|]. simpl. split; [by eauto|done].
Qed.

(** X16: the enrichment unit a save leaves behind is all or nothing too:
    either it stores the whole analysis of the PDF, in one update, or it
    leaves the store exactly as it found it. *)
Theorem enrichment_atomic w paper db :
  snd (enrichment w paper db) = db \/
  exists pdfLink data analysis,
    Arxiv.pdfLink paper = Some pdfLink /\
    download w (secureUrl pdfLink) shortUserAgent = Resolved data /\
    Analyzer.analyzePdfBuffer (model w) data = Resolved analysis /\
    storeAnalysis (Arxiv.id paper) analysis db
      = (Resolved tt, snd (enrichment w paper db)).
Proof.
  unfold enrichment, enrichmentBody, tryCatch, mbind, M_bind, await.
  destruct (Arxiv.pdfLink paper) as [pdfLink|]; [|by left].
  destruct (download w _ _) as [data|e] eqn:Hdata; [|by left].
  destruct (Analyzer.analyzePdfBuffer (model w) data) as [analysis|e] eqn:Han;
    [|by left].
  destruct (storeAnalysis (Arxiv.id paper) analysis db) as [[[]|e] db1] eqn:Hst.
  - right. by exists pdfLink, data, analysis.
  - left. by apply storeAnalysis_rejected in Hst as ->.
Qed.

(** X17: when the model's answer for the PDF of a paper is not JSON, a
    regeneration succeeds all the same and the raw answer becomes the
    summary of the paper: the fallback of the analyzer reaches the
    catalog.  The row keeps its identifier and its six bibliographic
    columns, its institution becomes the empty text, and nothing else
    moves: no topic, no attachment, no other paper, no link and no
    account. *)
Theorem regenerateSummaryAction_fallback w paperId db paper data text :
  paper_findUnique paperId db = Some paper ->
  present (filePath paper) = true ->
  download w (secureUrl (default [] (filePath paper))) longUserAgent
    = Resolved data ->
  present (Analyzer.GEMINI_API_KEY (model w)) = true ->
  Analyzer.generateContent (model w) data = Resolved text ->
  Json.parse (Analyzer.jsonString text) = None ->
  exists db1,
    regenerateSummaryAction w paperId db
      = (Resolved {| success := true; error := None |}, db1) /\
    paper_findUnique paperId db1 =
      Some {| Store.id := Store.id paper; title := title paper;
              authors := authors paper; abstract := abstract paper;
              summary := Some text; institution := Some [];
              url := url paper; filePath := filePath paper;
              publishedDate := publishedDate paper |} /\
    topics db1 = topics db /\ paperTopics db1 = paperTopics db /\
    (forall k', k' <> paperId -> paper_findUnique k' db1 = paper_findUnique k' db) /\
    savedPapers db1 = savedPapers db /\ users db1 = users db.
Proof.
  intros Hrow Hpdf Hdata Hkey Hgen Hparse.
  destruct (storeAnalysis_run paperId text [] [] db paper Hrow)
    as (db1 & Hst & Hrow1 & _ & _ & Hother & Hl & Hu & Htopics).
  destruct (Htopics eq_refl) as [Ht Hpt].
  exists db1. split; [|by split_and!].
  unfold regenerateSummaryAction, tryCatch, mbind, M_bind, query, await, mret, M_ret.
  rewrite Hrow, Hpdf, Hdata. simpl.
  unfold Analyzer.analyzePdfBuffer. rewrite Hkey, Hgen, Hparse. simpl.
  unfold Analyzer.fallback. unfold analysisOf in Hst. simpl in Hst.
  by rewrite Hst.
Qed.

End Analysis.

(** ** Topics by hand *)

Section ManualTopics.

Import Store Actions System.

(** X18: attaching a topic to a paper that is not in the catalog fails
    with the record-not-found error of the client, but not without
    trace: the topic is upserted by a statement of its own before the
    update of the paper, so a Topic row of that name exists afterwards.
    Papers and attachments are as before. *)
Theorem addTopicToPaperAction_unknown_paper paperId topicName db :
  paper_findUnique paperId db = None ->
  exists db1,
    addTopicToPaperAction paperId topicName db = (Rejected recordNotFound, db1) /\
    is_Some (topic_findByName topicName db1) /\
    papers db1 = papers db /\ paperTopics db1 = paperTopics db /\
    savedPapers db1 = savedPapers db /\
    (topic_findByName topicName db = None ->
     topics db1 = topics db ++
       [{| topic_id := nextId db; topic_name := topicName |}]) /\
    (is_Some (topic_findByName topicName db) -> db1 = db).
Proof.
  intros Hrow. unfold addTopicToPaperAction, mbind, M_bind, topic_upsert, statement.
  destruct (topic_findByName topicName db) as [t|] eqn:Ht.
  - exists db. unfold paper_update, transaction. rewrite Hrow.
    split_and!; try done; by rewrite Ht.
  - eexists. unfold paper_update, transaction, paper_findUnique in *.
    simpl. rewrite Hrow. split; [reflexivity|]. simpl. split_and!; try done.
    unfold topic_findByName. simpl. rewrite find_snoc.
    unfold topic_findByName in Ht. rewrite Ht.
    unfold hasName at 1. simpl. rewrite bool_decide_true by done. by eexists.
Qed.

(** Detaching undoes attaching. *)
Lemma attach_then_detach paperId topicName db db1 :
  addTopicToPaperAction paperId topicName db = (Resolved tt, db1) ->
  exists t db2,
    topic_findByName topicName db1 = Some t /\
    removeTopicFromPaperAction paperId (topic_id t) db1 = (Resolved tt, db2) /\
    (t ∉ topicsOf paperId db2) /\
    topics db2 = topics db1 /\ papers db2 = papers db1 /\
    paperTopics db2 = (paperTopics db ∖ {[ (paperId, topic_id t) ]}) /\
    ((paperId, topic_id t) ∉ paperTopics db -> paperTopics db2 = paperTopics db).
Proof.
  unfold addTopicToPaperAction, mbind, M_bind.
  destruct (topic_upsert_run topicName db)
    as (t & dbT & Hup & HTp & HTe & HTf & HTmono & _).
  rewrite Hup. unfold paper_update, transaction.
  destruct (paper_findUnique paperId dbT) as [row|] eqn:Hrow; [|done].
  rewrite updateWhere_id, set_papers_same.
  rewrite (connect_run paperId t dbT (topic_found_elem _ _ _ HTf)).
  intros [= <-]. exists t. eexists. split; [done|].
  unfold removeTopicFromPaperAction, paper_update, transaction, paper_findUnique.
  simpl. unfold paper_findUnique in Hrow. rewrite Hrow.
  rewrite updateWhere_id. unfold disconnect, statement. simpl.
  split; [reflexivity|]. simpl.
  assert (Hset : (paperTopics dbT ∪ {[(paperId, topic_id t)]})
                   ∖ {[(paperId, topic_id t)]}
                 = paperTopics db ∖ {[(paperId, topic_id t)]}).
  { rewrite HTe. apply set_eq. intros y.
    rewrite !elem_of_difference, elem_of_union, elem_of_singleton. tauto. }
  split_and!; try done.
  - unfold topicsOf. simpl. rewrite list_elem_of_In, filter_In.
    intros [_ Hin]. apply bool_decide_eq_true in Hin.
    apply elem_of_difference in Hin as [_ Hin]. apply Hin.
    by apply elem_of_singleton.
  - intros Hnew. rewrite Hset. apply set_eq. intros y.
    rewrite elem_of_difference, elem_of_singleton.
    split; [by intros [? _]|]. intros Hy. split; [done|]. by intros ->.
Qed.

(** X19: detaching undoes attaching.  After a topic has been attached to
    a paper, removing it by the key of its row succeeds and the paper no
    longer has the topic; if the paper did not have it before, the
    attachments are exactly the ones from before.  The Topic row itself
    is never removed.  Removing a topic from a paper that is not in the
    catalog fails with the record-not-found error of the client and
    changes nothing. *)
Theorem removeTopicFromPaperAction_detaches paperId topicName topicId db :
  (forall db1,
     addTopicToPaperAction paperId topicName db = (Resolved tt, db1) ->
     exists t db2,
       topic_findByName topicName db1 = Some t /\
       removeTopicFromPaperAction paperId (topic_id t) db1 = (Resolved tt, db2) /\
       (t ∉ topicsOf paperId db2) /\
       topics db2 = topics db1 /\ papers db2 = papers db1 /\
       paperTopics db2 = (paperTopics db ∖ {[ (paperId, topic_id t) ]}) /\
       ((paperId, topic_id t) ∉ paperTopics db -> paperTopics db2 = paperTopics db)) /\
  (paper_findUnique paperId db = None ->
   removeTopicFromPaperAction paperId topicId db = (Rejected recordNotFound, db)).
Proof.
  split.
  - intros db1. apply attach_then_detach.
  - unfold removeTopicFromPaperAction, paper_update, transaction. by intros ->.
Qed.

End ManualTopics.

(** ** Reads and sessions *)

Section ReadsResolve.

Import Store Actions System.

Context `{DateBuiltins}.

(** X20: in a state the system can reach, neither read ever fails for a
    signed-in user: the listing returns, and the details of any
    identifier return either the saved view, a live record or [null].
    The [JSON.parse] of the [authors] column and the required relation
    from a link to its paper cannot throw there. *)
Theorem reads_resolve s w user db' :
  reachable s ->
  getCurrentUser w (store s) = (Resolved user, db') ->
  (exists views, getSavedPapersAction w (store s) = (Resolved views, db')) /\
  (forall id, exists view,
     getPaperByIdAction w id (store s) = (Resolved view, db') /\
     (is_Some (savedPaper_findUnique (user_id user) id (store s)) ->
      exists v, view = Some v /\ v_isSaved v = Some true /\ v_id v = id)).
Proof.
  intros Hr HU. destruct (reachable_invariants s Hr) as [_ Hs].
  split.
  - destruct (getSavedPapersAction_resolved w (store s) user db' Hs HU)
      as (ps & views & Hget & _). by exists views.
  - intros id.
    pose proof (sound_getCurrentUser w (store s) Hs) as [Href Hjs].
    rewrite HU in Href, Hjs. simpl in Href, Hjs.
    destruct (getCurrentUser_resolved _ _ _ _ HU) as (_ & HS & _).
    destruct (savedPaper_findUnique (user_id user) id db') as [entry|] eqn:HL.
    + pose proof HL as HL'. apply find_some in HL' as [Hin Hk].
      apply bool_decide_eq_true in Hk. injection Hk as _ Hk.
      apply list_elem_of_In in Hin.
      pose proof (Href entry Hin) as Hp. rewrite Hk in Hp.
      apply find_hasId_elem in Hp as [row Hrow].
      pose proof Hrow as Hrow'. apply find_some in Hrow' as [Hrin Hid].
      apply bool_decide_eq_true in Hid.
      apply list_elem_of_In in Hrin. destruct (Hjs row Hrin) as [parsed Hparsed].
      eexists. split.
      * by apply (getPaperByIdAction_saved w id (store s) user db' entry row parsed).
      * intros _. eexists. split; [done|]. by split.
    + eexists. split.
      * by apply (getPaperByIdAction_unsaved w id (store s) user db').
      * unfold savedPaper_findUnique in *. rewrite <- HS, HL. by intros [? [=]].
Qed.

Lemma trimStart_nonblank s :
  forallb isWhiteSpace s = false ->
  exists c t, trimStart s = c :: t /\ isWhiteSpace c = false.
Proof.
  induction s as [|c s IH]; [done|]. simpl.
  destruct (isWhiteSpace c) eqn:E; simpl; [done|]. intros _. by exists c, s.
Qed.

Lemma trim_blank s : truthy (trim s) = negb (forallb isWhiteSpace s).
Proof.
  unfold trim. destruct (forallb isWhiteSpace s) eqn:E.
  - by rewrite trimStart_all.
  - destruct (trimStart_nonblank s E) as (c & t & -> & Hc).
    destruct (trimEnd_head c t Hc) as [s' Hs'].
    unfold jsstring, char16 in *. by rewrite Hs'.
Qed.

(** X21: a search for a query that is empty or all white space returns no
    papers whatever the endpoint would have answered; any other query
    is sent to the endpoint as it was typed, white space included, for
    ten results from the given offset, newest first. *)
Theorem searchPapersAction_blank w query start sortBy :
  (forallb isWhiteSpace query = true ->
   searchPapersAction w query start sortBy = []) /\
  (forallb isWhiteSpace query = false ->
   searchPapersAction w query start sortBy =
     Arxiv.searchArxiv (axios w) query 10 start sortBy Arxiv.descending).
Proof.
  unfold searchPapersAction. rewrite trim_blank.
  split; by intros ->.
Qed.

(** X22: the name stored for an account is never empty: it is the first
    and last name of the session joined by a space, and only if that is
    blank the user name, or else ["User"].  A missing name is not blank:
    it enters the template as the text [null], so a session without
    first and last name is stored as ["null null"] and its user name is
    not used. *)
Theorem displayName_never_empty (u : ClerkUser) :
  truthy (displayName u) = true /\
  (firstName u = None -> lastName u = None -> displayName u = str "null null") /\
  (forall w db user db',
     currentUser w = Some u ->
     getCurrentUser w db = (Resolved user, db') ->
     name user = displayName u).
Proof.
  split_and!.
  - unfold displayName.
    destruct (truthy (trim _)) eqn:E; [done|].
    unfold orElse. destruct (present (username u)) eqn:Ep; [|done].
    by destruct (username u).
  - intros Hf Hl. unfold displayName. rewrite Hf, Hl. by vm_compute.
  - intros w db user db' Hw. unfold getCurrentUser. rewrite Hw.
    destruct (negb _); [done|]. unfold user_upsert, statement.
    by destruct (List.find _ (users db)); intros [= <- <-].
Qed.

End ReadsResolve.

(** ** Fenced answers of the model *)

Section Fences.

Import Analyzer.

Lemma removeFences_cons c s :
  removeFences 0 (c :: s) =
    if isSome (stripPrefix (str "```json") (c :: s)) then removeFences 6 s
    else if isSome (stripPrefix (str "```") (c :: s)) then removeFences 2 s
    else c :: removeFences 0 s.
Proof. reflexivity. Qed.

Lemma stripPrefix_miss a p c s : a <> c -> stripPrefix (a :: p) (c :: s) = None.
Proof. intros Hne. simpl. by destruct (N.eqb_spec a c). Qed.

Lemma removeFences_plain s rest :
  96 ∉ s -> removeFences 0 (s ++ rest) = s ++ removeFences 0 rest.
Proof.
  induction s as [|c s IH]; [done|]. intros Hs.
  apply not_elem_of_cons in Hs as [Hc Hs].
  change ((c :: s) ++ rest) with (c :: (s ++ rest)). rewrite removeFences_cons.
  change (str "```json") with (96 :: str "``json").
  change (str "```") with (96 :: str "``").
  rewrite !stripPrefix_miss by done. simpl. by rewrite IH.
Qed.

Lemma removeFences_json rest :
  removeFences 0 (str "```json" ++ rest) = removeFences 0 rest.
Proof.
  change (str "```json" ++ rest)
    with (96 :: 96 :: 96 :: 106 :: 115 :: 111 :: 110 :: rest).
  rewrite removeFences_cons.
  change (96 :: 96 :: 96 :: 106 :: 115 :: 111 :: 110 :: rest)
    with (str "```json" ++ rest).
  by rewrite stripPrefix_app.
Qed.

Lemma jsonString_fenced body :
  96 ∉ body ->
  jsonString body = trim body /\
  jsonString (str "```json" ++ body ++ str "```") = trim body.
Proof.
  intros Hb. unfold jsonString. split.
  - rewrite <- (app_nil_r body) at 1. rewrite removeFences_plain by done.
    by rewrite app_nil_r.
  - rewrite removeFences_json, removeFences_plain by done.
    change (removeFences 0 (str "```")) with (@nil N). by rewrite app_nil_r.
Qed.

(** X23: the analyzer reads an answer of the model that is JSON the same
    way whether it comes bare or inside a [json] code fence, with any
    white space around it: it returns the parsed value, not the
    fallback. *)
Theorem analyzePdfBuffer_fenced (m : Model) (buffer : Buffer) (body : jsstring)
    (v : Json.value) :
  present (GEMINI_API_KEY m) = true ->
  96 ∉ body ->
  Json.parse (trim body) = Some v ->
  generateContent m buffer = Resolved body \/
  generateContent m buffer = Resolved (str "```json" ++ body ++ str "```") ->
  analyzePdfBuffer m buffer = Resolved v.
Proof.
  intros Hkey Hb Hparse Hgen. destruct (jsonString_fenced body Hb) as [H1 H2].
  unfold analyzePdfBuffer. rewrite Hkey. simpl.
  destruct Hgen as [-> | ->].
  - by rewrite H1, Hparse.
  - by rewrite H2, Hparse.
Qed.

End Fences.

(** ** The route of a paper *)

Section Route.

Import Uri Actions.

Lemma encodeURIComponent_unreserved s :
  forallb isUnreserved s = true -> encodeURIComponent s = Some s.
Proof.
  induction s as [|c s IH]; [done|]. simpl.
  intros [Hc Hs]%andb_prop. by rewrite Hc, IH.
Qed.

Lemma encodeURIComponent_app a :
  forall a' rest,
  forallb (fun c => negb (Json.isHighSurrogate c)) a = true ->
  encodeURIComponent a = Some a' ->
  encodeURIComponent (a ++ rest) = app a' <$> encodeURIComponent rest.
Proof.
  induction a as [|c a IH]; intros a' rest Hh Ha.
  - injection Ha as <-. simpl. by destruct (encodeURIComponent rest).
  - simpl in Hh. apply andb_prop in Hh as [Hc Hh]. apply negb_true_iff in Hc.
    revert Ha. cbn [encodeURIComponent app]. rewrite Hc.
    destruct (isUnreserved c).
    + destruct (encodeURIComponent a) as [e|] eqn:Ea; [|done]. intros [= <-].
      rewrite (IH e rest Hh eq_refl). by destruct (encodeURIComponent rest).
    + destruct (Json.isLowSurrogate c); [done|].
      destruct (encodeURIComponent a) as [e|] eqn:Ea; [|done]. intros [= <-].
      rewrite (IH e rest Hh eq_refl). destruct (encodeURIComponent rest); [|done].
      simpl. by rewrite app_assoc.
Qed.

Lemma includes_unfold p s :
  includes p s =
    match stripPrefix p s with
    | Some _ => true
    | None => match s with [] => false | _ :: s' => includes p s' end
    end.
Proof. by destruct s. Qed.

Lemma afterFirst_unfold p s :
  afterFirst p s =
    match stripPrefix p s with
    | Some rest => Some rest
    | None => match s with [] => None | _ :: s' => afterFirst p s' end
    end.
Proof. by destruct s. Qed.

Lemma beforeFirst_unfold p s :
  beforeFirst p s =
    match stripPrefix p s with
    | Some _ => []
    | None => match s with [] => [] | c :: s' => c :: beforeFirst p s' end
    end.
Proof. by destruct s. Qed.

Lemma includes_app p a s : includes p (a ++ p ++ s) = true.
Proof.
  induction a as [|c a IH].
  - rewrite includes_unfold. simpl. by rewrite stripPrefix_app.
  - rewrite includes_unfold. simpl. rewrite IH. by destruct (stripPrefix p _).
Qed.

Lemma afterFirst_app x p a s :
  x ∉ a -> afterFirst (x :: p) (a ++ (x :: p) ++ s) = Some s.
Proof.
  induction a as [|c a IH]; intros Ha.
  - rewrite afterFirst_unfold. rewrite app_nil_l. by rewrite stripPrefix_app.
  - apply not_elem_of_cons in Ha as [Hc Ha].
    change ((c :: a) ++ (x :: p) ++ s) with (c :: (a ++ (x :: p) ++ s)).
    rewrite afterFirst_unfold, stripPrefix_miss by done. by apply IH.
Qed.

Lemma stripPrefix_elem p s r x : stripPrefix p s = Some r -> x ∈ p -> x ∈ s.
Proof.
  intros ->%stripPrefix_Some Hx. apply elem_of_app. by left.
Qed.

Lemma includes_absent x p s : x ∈ p -> x ∉ s -> includes p s = false.
Proof.
  intros Hp. induction s as [|c s IH]; intros Hs.
  - rewrite includes_unfold. destruct (stripPrefix p []) eqn:E; [|done].
    by apply (stripPrefix_elem _ _ _ x) in E.
  - rewrite includes_unfold. destruct (stripPrefix p (c :: s)) eqn:E.
    + by apply (stripPrefix_elem _ _ _ x) in E.
    + apply IH. by apply not_elem_of_cons in Hs as [_ ?].
Qed.

Lemma beforeFirst_absent x p s : x ∈ p -> x ∉ s -> beforeFirst p s = s.
Proof.
  intros Hp. induction s as [|c s IH]; intros Hs.
  - rewrite beforeFirst_unfold. by destruct (stripPrefix p []).
  - rewrite beforeFirst_unfold. destruct (stripPrefix p (c :: s)) eqn:E.
    + by apply (stripPrefix_elem _ _ _ x) in E.
    + f_equal. apply IH. by apply not_elem_of_cons in Hs as [_ ?].
Qed.

Lemma unreserved_no_percent s : forallb isUnreserved s = true -> 37 ∉ s.
Proof.
  induction s as [|c s IH]; [by intros _ ?%elem_of_nil|]. simpl.
  intros [Hc Hs]%andb_prop. apply not_elem_of_cons. split; [|by apply IH].
  intros <-. done.
Qed.

Lemma arxivIdOf_encoded_prefix (scheme bare : jsstring) :
  97 ∉ scheme -> 37 ∉ bare ->
  arxivIdOf (scheme ++ str "arxiv.org%2Fabs%2F" ++ bare) = bare.
Proof.
  intros Hs Hb. unfold arxivIdOf, splitSecond.
  rewrite includes_app.
  change (str "arxiv.org%2Fabs%2F") with (97 :: str "rxiv.org%2Fabs%2F").
  rewrite afterFirst_app by done. simpl.
  apply (beforeFirst_absent 37); [|done].
  apply (bool_decide_unpack _); by vm_compute.
Qed.

(** X24: the identifier a page puts in the route of a paper is read back
    by the details action.  For an identifier of unreserved characters
    (letters, digits, [.], [-], ...), bare or as an absolute URL of
    either scheme, the text the action searches for when it gets the
    [encodeURIComponent] of it is the bare identifier. *)
Theorem route_round_trip (bare : jsstring) :
  forallb isUnreserved bare = true ->
  (encodeURIComponent bare = Some bare /\ arxivIdOf bare = bare) /\
  (exists e, encodeURIComponent (Forms.httpPrefix ++ bare) = Some e /\
             arxivIdOf e = bare) /\
  (exists e, encodeURIComponent (Forms.httpsPrefix ++ bare) = Some e /\
             arxivIdOf e = bare).
Proof.
  intros Hb. pose proof (unreserved_no_percent bare Hb) as Hp.
  pose proof (encodeURIComponent_unreserved bare Hb) as He.
  split; [|split].
  - split; [done|]. unfold arxivIdOf.
    rewrite (includes_absent 37); [done| |done].
    apply (bool_decide_unpack _); by vm_compute.
  - exists (str "http%3A%2F%2F" ++ str "arxiv.org%2Fabs%2F" ++ bare). split.
    + pose proof (encodeURIComponent_app Forms.httpPrefix
                    (str "http%3A%2F%2Farxiv.org%2Fabs%2F") bare eq_refl eq_refl) as E.
      rewrite He in E. exact E.
    + apply arxivIdOf_encoded_prefix; [|done].
      apply (bool_decide_unpack _); by vm_compute.
  - exists (str "https%3A%2F%2F" ++ str "arxiv.org%2Fabs%2F" ++ bare). split.
    + pose proof (encodeURIComponent_app Forms.httpsPrefix
                    (str "https%3A%2F%2Farxiv.org%2Fabs%2F") bare eq_refl eq_refl) as E.
      rewrite He in E. exact E.
    + apply arxivIdOf_encoded_prefix; [|done].
      apply (bool_decide_unpack _); by vm_compute.
Qed.

End Route.

(** ** Downloads *)

Section Downloads.

Import Store Actions.

Lemma secureUrl_secure url : stripPrefix (str "http://") (secureUrl url) = None.
Proof.
  unfold secureUrl, replaceStart.
  destruct (stripPrefix (str "http://") url) as [rest|] eqn:E; [|done].
  reflexivity.
Qed.

(** X25: the PDF of a paper is never requested over plain http.  Every
    URL an action or an enrichment unit downloads has gone through the
    upgrade of the scheme, which leaves no [http://] at the front and is
    idempotent; what the host would answer on plain-http URLs has no
    influence on what the actions do. *)
Theorem downloads_use_https (w w' : World) :
  (forall url, stripPrefix (str "http://") (secureUrl url) = None /\
               secureUrl (secureUrl url) = secureUrl url) /\
  (forall rest, secureUrl (str "http://" ++ rest) = str "https://" ++ rest) /\
  ((forall url agent, stripPrefix (str "http://") url = None ->
      download w' url agent = download w url agent) ->
   model w' = model w ->
   (forall `{DateBuiltins} paperId db,
      regenerateSummaryAction w' paperId db = regenerateSummaryAction w paperId db) /\
   (forall paper db, enrichment w' paper db = enrichment w paper db)).
Proof.
  split; [|split].
  - intros url. split; [apply secureUrl_secure|].
    unfold secureUrl at 1. by rewrite replaceStart_none by apply secureUrl_secure.
  - intros rest. unfold secureUrl. by rewrite replaceStart_app.
  - intros Hd Hm. split.
    + intros HD paperId db.
      unfold regenerateSummaryAction, tryCatch, mbind, M_bind, query.
      destruct (paper_findUnique paperId db) as [paper|]; [|done].
      destruct (negb _); [done|].
      by rewrite Hd, Hm by apply secureUrl_secure.
    + intros paper db. unfold enrichment, enrichmentBody, tryCatch, mbind, M_bind.
      destruct (Arxiv.pdfLink paper) as [pdfLink|]; [|done].
      by rewrite Hd, Hm by apply secureUrl_secure.
Qed.

End Downloads.

(** ** Clusters of search results *)

Section Clusters.

Import Clustering.

Context `{StringBuiltins}.

Lemma under_push n p cl n' :
  under n' (push n p cl) =
    if bool_decide (n' = n) then Some (default [] (under n cl) ++ [p])
    else under n' cl.
Proof.
  unfold under. induction cl as [|[m ps] cl IH]; simpl.
  - destruct (decide (n' = n)) as [->|Hne].
    + by rewrite !bool_decide_true.
    + rewrite (bool_decide_false (n' = n)) by done.
      by rewrite bool_decide_false by congruence.
  - destruct (decide (m = n)) as [->|Hm].
    + rewrite (bool_decide_true (n = n)) by done. simpl.
      destruct (decide (n' = n)) as [->|Hne].
      * by rewrite !bool_decide_true.
      * rewrite (bool_decide_false (n' = n)) by done.
        by rewrite bool_decide_false by congruence.
    + rewrite (bool_decide_false (m = n)) by done. simpl.
      destruct (decide (m = n')) as [->|Hm'].
      * rewrite (bool_decide_true (n' = n')) by done.
        by rewrite (bool_decide_false (n' = n)) by done.
      * rewrite (bool_decide_false (m = n')) by done. apply IH.
Qed.

Lemma keys_push n p cl :
  fst <$> push n p cl =
    (fst <$> cl) ++ (if bool_decide (n ∈ fst <$> cl) then [] else [n]).
Proof.
  induction cl as [|[m ps] cl IH]; [done|].
  cbn [push]. destruct (decide (m = n)) as [->|Hm].
  - rewrite (bool_decide_true (n = n)) by done. rewrite !fmap_cons. cbn [fst].
    rewrite (bool_decide_true (n ∈ _)) by (apply elem_of_cons; by left).
    by rewrite app_nil_r.
  - rewrite (bool_decide_false (m = n)) by done. rewrite !fmap_cons, IH. cbn [fst].
    rewrite <- app_comm_cons. f_equal. f_equal.
    rewrite (bool_decide_ext (n ∈ m :: cl.*1) (n ∈ cl.*1)); [done|].
    rewrite elem_of_cons. split; [by intros [->|?]|by right].
Qed.

Lemma NoDup_keys_push n p cl : NoDup (fst <$> cl) -> NoDup (fst <$> push n p cl).
Proof.
  intros Hnd. rewrite keys_push. destruct (decide (n ∈ fst <$> cl)) as [Hin|Hin].
  - by rewrite bool_decide_true, app_nil_r.
  - rewrite bool_decide_false by done. apply NoDup_app. split; [done|].
    split; [|apply NoDup_singleton]. by intros x Hx ->%list_elem_of_singleton.
Qed.

Lemma keys_push_subseteq n p cl (names : list jsstring) :
  n ∈ names -> (forall k, k ∈ fst <$> cl -> k ∈ names) ->
  forall k, k ∈ fst <$> push n p cl -> k ∈ names.
Proof.
  intros Hn Hcl k. rewrite keys_push, elem_of_app. intros [Hk|Hk]; [by apply Hcl|].
  destruct (bool_decide _); [by apply elem_of_nil in Hk|].
  by apply list_elem_of_singleton in Hk as ->.
Qed.

(** What one paper does to the object, key by key. *)
Lemma under_visit cl p n :
  n ∈ clusterNames ->
  under n (visit cl p) =
    if belongs n (toLowerCase (Arxiv.title p))
    then Some (default [] (under n cl) ++ [p])
    else under n cl.
Proof.
  intros Hn. unfold visit, belongs.
  set (title := toLowerCase (Arxiv.title p)).
  destruct (includes (str "llm") title || includes (str "language model") title
            || includes (str "gpt") title) eqn:E1;
  destruct (includes (str "vision") title || includes (str "image") title
            || includes (str "diffusion") title) eqn:E2;
  destruct (includes (str "reinforcement") title || includes (str "rl") title)
    eqn:E3;
  simpl; rewrite ?under_push;
  unfold clusterNames in Hn;
  repeat (apply elem_of_cons in Hn as [->|Hn]); try (by apply elem_of_nil in Hn);
  reflexivity.
Qed.

Lemma keys_visit cl p :
  NoDup (fst <$> cl) -> (forall k, k ∈ fst <$> cl -> k ∈ clusterNames) ->
  NoDup (fst <$> visit cl p) /\
  (forall k, k ∈ fst <$> visit cl p -> k ∈ clusterNames).
Proof.
  intros Hnd Hsub. unfold visit.
  destruct (includes (str "llm") _ || _ || _);
  destruct (includes (str "vision") _ || _ || _);
  destruct (includes (str "reinforcement") _ || _);
  simpl; (split;
    [ repeat apply NoDup_keys_push; done
    | repeat (apply keys_push_subseteq;
              [apply (bool_decide_unpack _); by vm_compute|]); done ]).
Qed.

(** The object after the [forEach] over [papers], started on the object
    of the papers [seen] so far. *)
Lemma fold_visit papers :
  forall seen cl,
  NoDup (fst <$> cl) -> (forall k, k ∈ fst <$> cl -> k ∈ clusterNames) ->
  (forall n, n ∈ clusterNames ->
     under n cl = match List.filter (inTitle n) seen with
                  | [] => None
                  | ps => Some ps
                  end) ->
  let cl' := fold_left visit papers cl in
  NoDup (fst <$> cl') /\ (forall k, k ∈ fst <$> cl' -> k ∈ clusterNames) /\
  (forall n, n ∈ clusterNames ->
     under n cl' = match List.filter (inTitle n) (seen ++ papers) with
                   | [] => None
                   | ps => Some ps
                   end).
Proof.
  induction papers as [|p papers IH]; intros seen cl Hnd Hsub Hu; simpl.
  - by rewrite app_nil_r.
  - destruct (keys_visit cl p Hnd Hsub) as [Hnd' Hsub'].
    specialize (IH (seen ++ [p]) (visit cl p) Hnd' Hsub').
    rewrite <- app_assoc in IH. apply IH.
    intros n Hn. rewrite under_visit, (Hu n Hn) by done.
    rewrite List.filter_app. simpl. fold (inTitle n p).
    destruct (inTitle n p).
    + destruct (List.filter (inTitle n) seen); by simpl.
    + by rewrite app_nil_r.
Qed.

Lemma under_elem n ps (cl : Clusters) :
  NoDup (fst <$> cl) -> (n, ps) ∈ cl -> under n cl = Some ps.
Proof.
  unfold under. induction cl as [|[m qs] cl IH]; [by intros _ ?%elem_of_nil|].
  rewrite fmap_cons, NoDup_cons. simpl. intros [Hm Hnd].
  rewrite elem_of_cons. intros [[= <- <-]|Hin].
  - by rewrite bool_decide_true.
  - rewrite bool_decide_false; [by apply IH|]. intros ->. apply Hm.
    apply list_elem_of_fmap. by exists (n, ps).
Qed.

Lemma under_Some_elem n ps (cl : Clusters) : under n cl = Some ps -> (n, ps) ∈ cl.
Proof.
  unfold under. destruct (List.find _ cl) as [[m qs]|] eqn:E; [|done].
  simpl. intros [= ->]. apply find_some in E as [Hin Hk].
  apply bool_decide_eq_true in Hk. simpl in Hk. subst m.
  by apply list_elem_of_In.
Qed.

Lemma names_imap (cl : Clusters) :
  forall f : nat -> jsstring,
  name <$> imap (fun index entry =>
                   {| id := f index; name := fst entry; papers := snd entry |}) cl
    = fst <$> cl.
Proof.
  induction cl as [|e cl IH]; intros f; [done|].
  rewrite imap_cons, !fmap_cons. cbn [name]. f_equal. exact (IH (f ∘ S)).
Qed.

Lemma ids_imap (cl : Clusters) :
  forall (f : nat -> jsstring),
  id <$> imap (fun index entry =>
                 {| id := f index; name := fst entry; papers := snd entry |}) cl
    = f <$> seq 0 (length cl).
Proof.
  induction cl as [|e cl IH]; intros f; [done|].
  rewrite imap_cons, !fmap_cons. cbn [id length seq]. rewrite fmap_cons. f_equal.
  rewrite <- seq_shift. change (map S ?l) with (S <$> l).
  rewrite <- list_fmap_compose. exact (IH (f ∘ S)).
Qed.

Lemma str_inj (s t : string) : str s = str t -> s = t.
Proof.
  unfold str. revert t. induction s as [|a s IH]; intros [|b t]; try done.
  simpl. intros [= Hab Hst]. f_equal; [|by apply IH].
  by rewrite <- (ascii_N_embedding a), <- (ascii_N_embedding b), Hab.
Qed.

Lemma clusterId_inj i j : clusterId i = clusterId j -> i = j.
Proof.
  unfold clusterId. intros E. apply app_inv_head in E.
  apply str_inj in E. by apply (inj pretty) in E.
Qed.

(** X26: [groupPapers] puts every paper under each of the three topics
    whose keywords its lower-cased title contains, and under [Other]
    when it contains none.  Each cluster holds exactly the papers of its
    name, in the order of the input; no cluster is empty, no name
    occurs twice, and there are at most four clusters, numbered
    [cluster-0], [cluster-1], ... in the order in which they appear. *)
Theorem groupPapers_clusters (papers : list Arxiv.ArxivPaper) :
  Forall (fun c =>
            Clustering.name c ∈ clusterNames /\
            Clustering.papers c = List.filter (inTitle (Clustering.name c)) papers /\
            Clustering.papers c <> [])
    (groupPapers papers) /\
  NoDup (Clustering.name <$> groupPapers papers) /\
  Clustering.id <$> groupPapers papers
    = clusterId <$> seq 0 (length (groupPapers papers)) /\
  NoDup (Clustering.id <$> groupPapers papers) /\
  (length (groupPapers papers) <= 4)%nat.
Proof.
  destruct (fold_visit papers [] []) as (Hnd & Hsub & Hu);
    [apply NoDup_nil_2|by intros k ?%elem_of_nil|done|].
  simpl in Hu. unfold groupPapers.
  set (cl := fold_left visit papers []) in *.
  assert (Hids : Clustering.id <$> imap (fun index entry =>
            {| id := clusterId index; name := fst entry; papers := snd entry |}) cl
          = clusterId <$> seq 0 (length cl)) by apply ids_imap.
  split_and!.
  - apply Forall_forall. intros c Hc.
    apply elem_of_lookup_imap_1 in Hc as (i & [n ps] & -> & Hi). simpl.
    apply list_elem_of_lookup_2 in Hi.
    assert (Hn : n ∈ clusterNames).
    { apply Hsub. apply list_elem_of_fmap. by exists (n, ps). }
    pose proof (under_elem n ps cl Hnd Hi) as Hps. rewrite (Hu n Hn) in Hps.
    split; [done|].
    destruct (List.filter (inTitle n) papers) eqn:E; [done|].
    injection Hps as <-. by split.
  - by rewrite names_imap.
  - by rewrite Hids, length_imap.
  - rewrite Hids. apply NoDup_fmap_2; [|apply NoDup_seq].
    intros i j. apply clusterId_inj.
  - rewrite length_imap, <- (length_fmap fst).
    change 4%nat with (length clusterNames).
    apply submseteq_length, NoDup_submseteq; [done|]. apply Hsub.
Qed.

(** X27: the clusters cover the results: every paper of the input is in
    at least one cluster, every paper of a cluster is one of the input,
    and a paper under [Other] is under no other name. *)
Theorem groupPapers_cover (papers : list Arxiv.ArxivPaper) :
  (forall p, p ∈ papers ->
     exists c, c ∈ groupPapers papers /\ p ∈ Clustering.papers c) /\
  (forall c p, c ∈ groupPapers papers -> p ∈ Clustering.papers c -> p ∈ papers) /\
  (forall c c' p,
     c ∈ groupPapers papers -> c' ∈ groupPapers papers ->
     p ∈ Clustering.papers c -> p ∈ Clustering.papers c' ->
     Clustering.name c = str "Other" -> c' = c).
Proof.
  destruct (fold_visit papers [] []) as (Hnd & Hsub & Hu);
    [apply NoDup_nil_2|by intros k ?%elem_of_nil|done|].
  simpl in Hu. unfold groupPapers.
  set (cl := fold_left visit papers []) in *.
  assert (Hin : forall c,
    c ∈ imap (fun index entry =>
                {| id := clusterId index; name := fst entry; papers := snd entry |}) cl ->
    Clustering.name c ∈ clusterNames /\
    under (Clustering.name c) cl = Some (Clustering.papers c) /\
    Clustering.papers c = List.filter (inTitle (Clustering.name c)) papers).
  { intros c Hc. apply elem_of_lookup_imap_1 in Hc as (i & [n ps] & -> & Hi). simpl.
    apply list_elem_of_lookup_2 in Hi.
    assert (Hn : n ∈ clusterNames).
    { apply Hsub. apply list_elem_of_fmap. by exists (n, ps). }
    pose proof (under_elem n ps cl Hnd Hi) as Hps. split; [done|]. split; [done|].
    rewrite (Hu n Hn) in Hps.
    destruct (List.filter (inTitle n) papers) eqn:E; [done|]. by injection Hps. }
  split_and!.
  - intros p Hp.
    assert (Hex : exists n, n ∈ clusterNames /\ inTitle n p = true).
    { unfold inTitle, belongs.
      destruct (includes (str "llm") _ || _ || _) eqn:E1.
      { exists (str "LLMs"). split; [|done]. apply (bool_decide_unpack _). by vm_compute. }
      destruct (includes (str "vision") _ || _ || _) eqn:E2.
      { exists (str "Computer Vision"). split; [|done].
        apply (bool_decide_unpack _). by vm_compute. }
      destruct (includes (str "reinforcement") _ || _) eqn:E3.
      { exists (str "Reinforcement Learning"). split; [|done].
        apply (bool_decide_unpack _). by vm_compute. }
      exists (str "Other"). split; [|done]. apply (bool_decide_unpack _). by vm_compute. }
    destruct Hex as (n & Hn & Hb).
    assert (Hf : p ∈ List.filter (inTitle n) papers).
    { rewrite list_elem_of_In, filter_In, <- list_elem_of_In. by split. }
    pose proof (Hu n Hn) as Hun.
    destruct (List.filter (inTitle n) papers) as [|q qs] eqn:E;
      [by apply elem_of_nil in Hf|].
    apply under_Some_elem, list_elem_of_lookup in Hun as [i Hi].
    exists {| id := clusterId i; name := n; papers := q :: qs |}. split; [|done].
    by apply (elem_of_lookup_imap_2
      (fun index entry =>
         {| id := clusterId index; name := fst entry; papers := snd entry |})
      cl (n, q :: qs) i).
  - intros c p Hc Hp. destruct (Hin c Hc) as (_ & _ & E). rewrite E in Hp.
    by apply elem_of_filter_bool in Hp.
  - intros c c' p Hc Hc' Hp Hp' Hother.
    destruct (Hin c Hc) as (_ & Huc & E). destruct (Hin c' Hc') as (Hn' & Huc' & E').
    rewrite E in Hp. rewrite E' in Hp'.
    rewrite list_elem_of_In, filter_In in Hp, Hp'.
    destruct Hp as [_ Hb]. destruct Hp' as [_ Hb'].
    assert (Hname : Clustering.name c' = Clustering.name c).
    { rewrite Hother in *. revert Hb Hb'. unfold inTitle, belongs.
      unfold clusterNames in Hn'.
      repeat (apply elem_of_cons in Hn' as [->|Hn']);
        try (by apply elem_of_nil in Hn'); try done;
      destruct (includes (str "llm") _ || _ || _);
      destruct (includes (str "vision") _ || _ || _);
      destruct (includes (str "reinforcement") _ || _); by vm_compute. }
    apply elem_of_lookup_imap_1 in Hc as (i & [n ps] & -> & Hi).
    apply elem_of_lookup_imap_1 in Hc' as (j & [n' ps'] & -> & Hj).
    simpl in *. subst n'.
    assert (i = j) as ->.
    { apply (NoDup_lookup (fst <$> cl) i j n); [done| |].
      - by rewrite list_lookup_fmap, Hi.
      - by rewrite list_lookup_fmap, Hj. }
    rewrite Hi in Hj. by injection Hj as <-.
Qed.

End Clusters.

(** ** Suggested topics and the summary of a URL *)

Section Suggestions.

Import TextActions.

Lemma endsClean_snoc s c : isWhiteSpace c = false -> endsClean (s ++ [c]) = true.
Proof.
  intros Hc. rewrite endsClean_rev, rev_app_distr. simpl. by rewrite Hc.
Qed.

Lemma trim_stringifyStrings a : trim (Json.stringifyStrings a) = Json.stringifyStrings a.
Proof.
  unfold trim, Json.stringifyStrings. rewrite trimStart_fixed by done.
  apply trimEnd_fixed.
  change (91 :: ?x ++ [93]) with ((91 :: x) ++ [93]). by apply endsClean_snoc.
Qed.

(** X28: the suggestion of topics never fails and only reads the first
    5000 code units of the text.  Without a key it returns no topic and
    does not ask the model; when the model call fails or the answer is
    not JSON it returns no topic; and when the answer is the JSON array
    of some names, bare or inside a [json] code fence, it returns those
    names. *)
Theorem suggestTopicsAction_answers (m : TextModel) (text : jsstring) :
  (forall text', take 5000 text' = take 5000 text ->
     suggestTopicsAction m text' = suggestTopicsAction m text) /\
  (present (GEMINI_API_KEY m) = false -> suggestTopicsAction m text = Json.JArray []) /\
  (forall e, generateContent m (prompt text) = Rejected e ->
     suggestTopicsAction m text = Json.JArray []) /\
  (forall answer, generateContent m (prompt text) = Resolved answer ->
     Json.parse (Analyzer.jsonString answer) = None ->
     suggestTopicsAction m text = Json.JArray []) /\
  (forall names,
     present (GEMINI_API_KEY m) = true ->
     96 ∉ Json.stringifyStrings names ->
     generateContent m (prompt text) = Resolved (Json.stringifyStrings names) \/
     generateContent m (prompt text)
       = Resolved (str "```json" ++ Json.stringifyStrings names ++ str "```") ->
     suggestTopicsAction m text = Json.JArray (Json.JString <$> names)).
Proof.
  split_and!.
  - intros text' Ht. unfold suggestTopicsAction, prompt, excerpt. by rewrite Ht.
  - intros Hk. unfold suggestTopicsAction. by rewrite Hk.
  - intros e He. unfold suggestTopicsAction. rewrite He. by destruct (negb _).
  - intros answer Ha Hp. unfold suggestTopicsAction. rewrite Ha, Hp.
    by destruct (negb _).
  - intros names Hk Hb Hgen.
    destruct (jsonString_fenced _ Hb) as [H1 H2].
    rewrite trim_stringifyStrings in H1, H2.
    unfold suggestTopicsAction. rewrite Hk. simpl.
    destruct Hgen as [-> | ->].
    + by rewrite H1, parse_stringifyStrings.
    + by rewrite H2, parse_stringifyStrings.
Qed.

Variable stack : exn -> jsstring.

(** X29: the summary of a PDF behind a URL never fails either: the action
    returns the [summary] member of the analysis or, for any exception
    on the way, a text that starts with [Failed to analyze paper.] and
    carries the message.  When the model's answer is not JSON the
    fallback makes the raw answer the summary; an [http] URL gives what
    the [https] URL gives. *)
Theorem analyzePaperFromUrlAction_summary (w : Actions.World) (url : jsstring) :
  (forall rest,
     analyzePaperFromUrlAction stack w (str "http://" ++ rest)
       = analyzePaperFromUrlAction stack w (str "https://" ++ rest)) /\
  (forall e,
     Actions.download w (Actions.secureUrl url) Actions.longUserAgent = Rejected e ->
     analyzePaperFromUrlAction stack w url =
       Actions.Val (Json.JString (str "Failed to analyze paper. " ++ message e
                                  ++ [10; 10] ++ str "Stack: " ++ stack e))) /\
  (forall data text,
     Actions.download w (Actions.secureUrl url) Actions.longUserAgent
       = Resolved data ->
     present (Analyzer.GEMINI_API_KEY (Actions.model w)) = true ->
     Analyzer.generateContent (Actions.model w) data = Resolved text ->
     Json.parse (Analyzer.jsonString text) = None ->
     analyzePaperFromUrlAction stack w url = Actions.Val (Json.JString text)) /\
  (forall data s i names,
     Actions.download w (Actions.secureUrl url) Actions.longUserAgent
       = Resolved data ->
     Analyzer.analyzePdfBuffer (Actions.model w) data
       = Resolved (analysisOf s i names) ->
     analyzePaperFromUrlAction stack w url = Actions.Val (Json.JString s)).
Proof.
  split_and!.
  - intros rest. unfold analyzePaperFromUrlAction, Actions.secureUrl.
    rewrite replaceStart_app. by rewrite replaceStart_none by reflexivity.
  - intros e He. unfold analyzePaperFromUrlAction. by rewrite He.
  - intros data text Hd Hk Hg Hp. unfold analyzePaperFromUrlAction.
    rewrite Hd. unfold Analyzer.analyzePdfBuffer. by rewrite Hk, Hg, Hp.
  - intros data s i names Hd Ha. unfold analyzePaperFromUrlAction.
    by rewrite Hd, Ha.
Qed.

End Suggestions.

(** ** The key of the listing script *)

Section EnvFile.

Import ListModels.

Lemma restOfLine_line value rest :
  forallb (fun c => negb (isLineTerminator c)) value = true ->
  restOfLine (value ++ 10 :: rest) = value.
Proof.
  induction value as [|c v IH]; [done|]. simpl.
  intros [Hc Hv]%andb_prop. apply negb_true_iff in Hc. rewrite Hc. by rewrite IH.
Qed.

Lemma slice1_quoted q value : slice1 (q :: value ++ [q]) = value.
Proof. unfold slice1. simpl. apply removelast_last. Qed.

Lemma endsWith_snoc q s : endsWith [q] (s ++ [q]) = true.
Proof.
  unfold endsWith, startsWith. rewrite rev_app_distr. simpl.
  by rewrite N.eqb_refl.
Qed.

Lemma trim_quoted q value :
  isWhiteSpace q = false -> trim (q :: value ++ [q]) = q :: value ++ [q].
Proof.
  intros Hq. unfold trim. rewrite trimStart_fixed by done.
  apply trimEnd_fixed. change (q :: value ++ [q]) with ((q :: value) ++ [q]).
  by apply endsClean_snoc.
Qed.

Lemma stripPrefix_within x p :
  x ∉ p -> forall t rest r,
  stripPrefix p (t ++ x :: rest) = Some r -> exists t', t = p ++ t'.
Proof.
  induction p as [|a p IH]; intros Hx t rest r; [by exists t|].
  apply not_elem_of_cons in Hx as [Ha Hp].
  destruct t as [|b t]; simpl.
  - destruct (N.eqb_spec a x) as [->|]; [done|done].
  - destruct (N.eqb_spec a b) as [->|]; [|done]. intros E.
    destruct (IH Hp t rest r E) as [t' ->]. by exists t'.
Qed.

(** The first occurrence of a text that does not overlap itself. *)
Lemma afterFirst_first x p a s :
  x ∉ p -> includes (x :: p) a = false ->
  afterFirst (x :: p) (a ++ (x :: p) ++ s) = Some s.
Proof.
  intros Hx. induction a as [|c a IH]; intros Ha.
  - rewrite afterFirst_unfold, app_nil_l. by rewrite stripPrefix_app.
  - rewrite includes_unfold in Ha.
    destruct (stripPrefix (x :: p) (c :: a)) eqn:E; [done|].
    change ((c :: a) ++ (x :: p) ++ s) with (c :: (a ++ (x :: p) ++ s)).
    rewrite afterFirst_unfold.
    destruct (stripPrefix (x :: p) (c :: a ++ (x :: p) ++ s)) as [r|] eqn:E';
      [|by apply IH].
    exfalso. simpl in E, E'. destruct (N.eqb_spec x c) as [<-|]; [|done].
    destruct (stripPrefix_within x p Hx a (p ++ s) r E') as [t' ->].
    by rewrite stripPrefix_app in E.
Qed.

Lemma matchKey_line before capture rest :
  includes (str "GEMINI_API_KEY=") before = false ->
  forallb (fun c => negb (isLineTerminator c)) capture = true ->
  matchKey (before ++ str "GEMINI_API_KEY=" ++ capture ++ 10 :: rest) = Some capture.
Proof.
  intros Hb Hc. unfold matchKey.
  change (str "GEMINI_API_KEY=") with (71 :: str "EMINI_API_KEY=") in *.
  rewrite afterFirst_first; [|apply (bool_decide_unpack _); by vm_compute|done].
  simpl. f_equal. by apply restOfLine_line.
Qed.

Lemma fileKey_quoted before q value rest :
  includes (str "GEMINI_API_KEY=") before = false -> isWhiteSpace q = false -> isLineTerminator q = false ->
  q = 34 \/ q = 39 ->
  forallb (fun c => negb (isLineTerminator c)) value = true ->
  fileKey (before ++ str "GEMINI_API_KEY=" ++ (q :: value ++ [q]) ++ 10 :: rest)
    = Some value.
Proof.
  intros Hb Hw Hl Hq Hv. unfold fileKey. rewrite matchKey_line; [|done|].
  2:{ simpl. rewrite Hl, forallb_app, Hv. simpl. by rewrite Hl. }
  cbn [truthy]. rewrite trim_quoted by done.
  destruct Hq as [-> | ->].
  - change (34 :: value ++ [34]) with ((34 :: value) ++ [34]) at 2.
    rewrite endsWith_snoc. unfold startsWith at 1. simpl.
    by rewrite slice1_quoted.
  - change (39 :: value ++ [39]) with ((39 :: value) ++ [39]) at 4.
    rewrite endsWith_snoc. unfold startsWith at 1 2. simpl.
    by rewrite slice1_quoted.
Qed.

(** X30: the script takes the key from the environment when it has one,
    and otherwise from the first [GEMINI_API_KEY=] of the [.env] file:
    the rest of that line, trimmed, without one pair of matching quotes
    around it.  When the first occurrence is followed by [value] and the
    end of the line, the key is [value], and so it is when [value] is in
    double or in single quotes; a file that is missing, cannot be read
    or has no such occurrence leaves the script without a key. *)
Theorem apiKey_sources (env : option jsstring) (before value rest : jsstring) :
  (present env = true -> forall file, apiKey env file = env) /\
  (present env = false ->
   apiKey env None = None /\
   (forall e, apiKey env (Some (Rejected e)) = None) /\
   (forall envContent, matchKey envContent = None ->
      apiKey env (Some (Resolved envContent)) = None)) /\
  (present env = false ->
   includes (str "GEMINI_API_KEY=") before = false ->
   forallb (fun c => negb (isLineTerminator c)) value = true ->
   value <> [] ->
   let file capture :=
     Some (Resolved (before ++ str "GEMINI_API_KEY=" ++ capture ++ 10 :: rest)) in
   (trim value = value ->
    startsWith [34] value && endsWith [34] value
    || startsWith [39] value && endsWith [39] value = false ->
    apiKey env (file value) = Some value) /\
   apiKey env (file (34 :: value ++ [34])) = Some value /\
   apiKey env (file (39 :: value ++ [39])) = Some value).
Proof.
  split_and!.
  - intros He file. unfold apiKey. by rewrite He, He.
  - intros He. unfold apiKey. rewrite He. split_and!.
    + by rewrite He.
    + intros e. by rewrite He.
    + intros envContent Hm. unfold fileKey. by rewrite Hm, He.
  - intros He Hb Hline Hne file.
    assert (Hkey : present (Some value) = true) by (by destruct value).
    split_and!.
    + intros Htrim Hq. unfold apiKey, file. rewrite He.
      unfold fileKey. rewrite matchKey_line by done.
      destruct value as [|c v] eqn:Ev; [done|]. cbn [truthy]. rewrite <- Ev in *.
      by rewrite Htrim, Hq, Hkey.
    + pose proof (fileKey_quoted before 34 value rest Hb eq_refl eq_refl
                    (or_introl eq_refl) Hline) as E.
      unfold apiKey, file. rewrite He. unfold jsstring, char16 in *.
      by rewrite E, Hkey.
    + pose proof (fileKey_quoted before 39 value rest Hb eq_refl eq_refl
                    (or_intror eq_refl) Hline) as E.
      unfold apiKey, file. rewrite He. unfold jsstring, char16 in *.
      by rewrite E, Hkey.
Qed.

End EnvFile.

(** ** The further properties on the sample inputs *)

Section MoreSamples.

Import Store Actions System Examples Scenarios.

Lemma searchArxiv_recovers_witness :
  let busyTwice (entries : list Arxiv.Entry) : Arxiv.Axios := fun _ _ n =>
    if (n <? 2)%nat then Rejected (AxiosError [] (Some 429))
    else Resolved (Some entries) in
  Forall2 madeOf [loraEntry]
    (Arxiv.searchArxiv (busyTwice [loraEntry]) (str "all:lora") 10 0
       Arxiv.submittedDate Arxiv.descending) /\
  Arxiv.searchArxiv (busyTwice [loraEntry; unsigned]) (str "all:lora") 10 0
    Arxiv.submittedDate Arxiv.descending = [].
Proof.
  intros busyTwice.
  assert (Hbusy : forall entries n, (n < 2)%nat ->
            rateLimited (busyTwice entries Arxiv.ARXIV_API_URL
              {| Arxiv.search_query := str "all:lora"; Arxiv.start := 0;
                 Arxiv.max_results := 10; Arxiv.sortBy := Arxiv.submittedDate;
                 Arxiv.sortOrder := Arxiv.descending |} n)).
  { intros entries n Hn. exists (AxiosError [] (Some 429)). split; [|reflexivity].
    unfold busyTwice. destruct n as [|[|n]]; [reflexivity..|lia]. }
  split.
  - refine (proj1 (proj1 (searchArxiv_recovers (busyTwice [loraEntry])
              (str "all:lora") 10 0 Arxiv.submittedDate Arxiv.descending 2
              [loraEntry] _ (Hbusy _) eq_refl) eq_refl)).
    lia.
  - refine (proj1 (proj2 (searchArxiv_recovers (busyTwice [loraEntry; unsigned])
              (str "all:lora") 10 0 Arxiv.submittedDate Arxiv.descending 2
              [loraEntry; unsigned] _ (Hbusy _) eq_refl)) eq_refl).
    lia.
Defined.

Lemma reachable_afterSave : reachable (H := dates) afterSave.
Proof. apply rtc_once. exact (step_call (H := dates) _ world (SavePaper lora) initial I). Qed.

Lemma step_afterDelete : rtc (step (H := dates)) afterSave afterDelete.
Proof.
  apply rtc_once. exact (step_call (H := dates) _ world (DeletePaper (Arxiv.id lora)) afterSave I).
Qed.

Lemma keyed_afterSave : keyed (store afterSave).
Proof.
  unfold keyed. split_and!; apply (bool_decide_unpack _); by vm_compute.
Qed.

Lemma reachable_keyed_witness :
  reachable (H := dates) afterSave /\ keyed (store afterSave) /\
  (length (List.filter (hasEmail (str "alice@example.org"))
             (users (store afterSave))) <= 1)%nat.
Proof.
  split; [exact reachable_afterSave|].
  destruct (reachable_keyed (H := dates) afterSave reachable_afterSave)
    as (Hk & He & _).
  split; [exact Hk|apply He].
Defined.

Lemma nothing_is_lost_witness :
  rtc (step (H := dates)) afterSave afterDelete /\
  is_Some (paper_findUnique (Arxiv.id lora) (store afterSave)) /\
  is_Some (paper_findUnique (Arxiv.id lora) (store afterDelete)) /\
  savedPapers (store afterDelete) = [].
Proof.
  assert (Hrow : is_Some (paper_findUnique (Arxiv.id lora) (store afterSave))).
  { vm_compute. by eexists. }
  split; [exact step_afterDelete|]. split; [exact Hrow|]. split.
  - exact (proj1 (nothing_is_lost (H := dates) afterSave afterDelete step_afterDelete)
             (Arxiv.id lora) Hrow).
  - reflexivity.
Defined.

Lemma aliceRow_afterSave : aliceRow ∈ users (store afterSave).
Proof.
  change (users (store afterSave)) with [aliceRow]. apply elem_of_cons. by left.
Qed.

Lemma account_stable_witness :
  keyed (store afterSave) /\ rtc (step (H := dates)) afterSave afterDelete /\
  exists u' db',
    getCurrentUser world (store afterDelete) = (Resolved u', db') /\
    user_id u' = 0.
Proof.
  split; [exact keyed_afterSave|]. split; [exact step_afterDelete|].
  destruct (account_stable (H := dates) afterSave afterDelete aliceRow world
              keyed_afterSave step_afterDelete aliceRow_afterSave eq_refl)
    as (u' & db' & HU & Hid & _).
  - by vm_compute.
  - exists u', db'. split; [exact HU|exact Hid].
Defined.

Lemma session_required_witness :
  present (sessionEmail anonymous) = false /\
  savePaperAction (H := dates) anonymous lora library =
    (Rejected (Error (str "Unauthorized: Please sign in to continue.")), library) /\
  getSavedPapersAction (H := dates) anonymous library =
    (Rejected (Error (str "Unauthorized: Please sign in to continue.")), library).
Proof.
  split; [reflexivity|].
  destruct (session_required (H := dates) anonymous library (Arxiv.id lora) lora
              eq_refl) as (e & _ & He & _ & Hsave & Hlist & _).
  rewrite (He eq_refl) in Hsave, Hlist. split; [exact Hsave|exact Hlist].
Defined.

Lemma save_then_delete_witness :
  savePaperAction (H := dates) world lora Store.empty = (Resolved (Some lora), saved) /\
  exists user db2,
    deletePaperAction world (Arxiv.id lora) saved = (Resolved tt, db2) /\
    getCurrentUser world db2 = (Resolved user, db2) /\
    savedPapers db2 = [] /\
    is_Some (paper_findUnique (Arxiv.id lora) db2).
Proof.
  assert (Hsave : savePaperAction (H := dates) world lora Store.empty
                  = (Resolved (Some lora), saved)) by reflexivity.
  split; [exact Hsave|].
  destruct (save_then_delete (H := dates) world lora Store.empty (Some lora) saved
              Hsave) as (user & db2 & Hdel & HU & _ & Hnone & _ & Hrow).
  exists user, db2. split; [exact Hdel|]. split; [exact HU|].
  split; [|exact Hrow]. apply Hnone. reflexivity.
Defined.

Lemma getSavedPapersAction_listing_witness :
  sound library /\
  getCurrentUser world library = (Resolved aliceRow, library) /\
  exists views,
    getSavedPapersAction (H := dates) world library = (Resolved views, library) /\
    v_id <$> views = [Arxiv.id adapters; Arxiv.id lora].
Proof.
  assert (HU : getCurrentUser world library = (Resolved aliceRow, library)).
  { by vm_compute. }
  split; [exact sound_library|]. split; [exact HU|].
  destruct (getSavedPapersAction_listing (H := dates) world library aliceRow library
              sound_library HU) as (views & Hget & Hids & _).
  exists views. split; [exact Hget|]. rewrite Hids. reflexivity.
Defined.

Lemma sound_enriched : sound enriched.
Proof.
  apply (sound_enrichment world lora saved).
  apply (sound_savePaperAction (H := dates) world lora Store.empty), sound_empty.
Qed.

Lemma latest_save_first_witness :
  sound enriched /\
  savePaperAction (H := dates) world adapters enriched = (Resolved None, library) /\
  exists user views,
    getSavedPapersAction (H := dates) world library = (Resolved views, library) /\
    savedPaper_findUnique (user_id user) (Arxiv.id adapters) enriched = None /\
    v_id <$> views = [Arxiv.id adapters; Arxiv.id lora].
Proof.
  assert (Hsave : savePaperAction (H := dates) world adapters enriched
                  = (Resolved None, library)) by reflexivity.
  split; [exact sound_enriched|]. split; [exact Hsave|].
  destruct (latest_save_first (H := dates) world adapters enriched None library
              sound_enriched Hsave) as (user & views & HU & Hget & Hids).
  assert (Huser : user = aliceRow).
  { assert (HU' : getCurrentUser world library = (Resolved aliceRow, library)).
    { by vm_compute. }
    rewrite HU' in HU. by injection HU. }
  subst user. exists aliceRow, views. split; [exact Hget|].
  split; [reflexivity|]. rewrite Hids. reflexivity.
Defined.

Lemma keyed_shared : keyed shared.
Proof.
  unfold keyed. split_and!; apply (bool_decide_unpack _); by vm_compute.
Qed.

Lemma aliceRow_shared : aliceRow ∈ users shared.
Proof.
  change (users shared)
    with [aliceRow; {| user_id := 4; email := str "bob@example.org";
                       name := str "null null" |}].
  apply elem_of_cons. by left.
Qed.

Lemma library_isolation_witness :
  keyed shared /\ aliceRow ∈ users shared /\
  sessionEmail bobWorld <> Some (email aliceRow) /\
  savedPaper_findMany 0
    (fst (perform (H := dates) bobWorld (DeletePaper (Arxiv.id lora)) shared))
    = savedPaper_findMany 0 shared /\
  paperId <$> savedPaper_findMany 0 shared = [Arxiv.id adapters; Arxiv.id lora].
Proof.
  assert (Hne : sessionEmail bobWorld <> Some (email aliceRow)).
  { by vm_compute. }
  split; [exact keyed_shared|]. split; [exact aliceRow_shared|].
  split; [exact Hne|]. split.
  - exact (proj1 (library_isolation (H := dates) bobWorld
                    (DeletePaper (Arxiv.id lora)) shared aliceRow keyed_shared
                    aliceRow_shared Hne)).
  - reflexivity.
Defined.

Lemma regenerateSummaryAction_fallback_witness :
  Json.parse (Analyzer.jsonString prose) = None /\
  exists db1,
    regenerateSummaryAction talkative (Arxiv.id lora) saved
      = (Resolved {| success := true; error := None |}, db1) /\
    paper_findUnique (Arxiv.id lora) db1 =
      Some {| Store.id := Arxiv.id lora; title := Arxiv.title lora;
              authors := Json.stringifyStrings (Arxiv.authors lora);
              abstract := Some (Arxiv.summary lora);
              summary := Some prose; institution := Some [];
              url := Some (Arxiv.link lora); filePath := Arxiv.pdfLink lora;
              publishedDate := Some 0%Z |} /\
    topics db1 = [] /\ savedPapers db1 = savedPapers saved.
Proof.
  split; [reflexivity|].
  destruct (regenerateSummaryAction_fallback talkative (Arxiv.id lora) saved
              (created lora 0) [] prose eq_refl eq_refl eq_refl eq_refl eq_refl
              eq_refl) as (db1 & Hrun & Hrow & Ht & _ & _ & Hl & _).
  exists db1. split; [exact Hrun|]. split; [exact Hrow|].
  split; [exact Ht|exact Hl].
Defined.

Lemma addTopicToPaperAction_unknown_paper_witness :
  paper_findUnique (str "0000.00000") saved = None /\
  exists db1,
    addTopicToPaperAction (str "0000.00000") (str "Agent") saved
      = (Rejected recordNotFound, db1) /\
    topic_name <$> topics db1 = [str "Agent"] /\
    paperTopics db1 = paperTopics saved.
Proof.
  split; [reflexivity|].
  destruct (addTopicToPaperAction_unknown_paper (str "0000.00000") (str "Agent")
              saved eq_refl) as (db1 & Hrun & _ & _ & Hpt & _ & Hnew & _).
  exists db1. split; [exact Hrun|]. split; [|exact Hpt].
  rewrite (Hnew eq_refl). reflexivity.
Defined.

Lemma reads_resolve_witness :
  reachable (H := dates) afterSave /\
  getCurrentUser world (store afterSave) = (Resolved aliceRow, store afterSave) /\
  (exists views,
     getSavedPapersAction (H := dates) world (store afterSave)
       = (Resolved views, store afterSave)) /\
  exists view,
    getPaperByIdAction (H := dates) world (Arxiv.id lora) (store afterSave)
      = (Resolved (Some view), store afterSave) /\
    v_isSaved view = Some true.
Proof.
  assert (HU : getCurrentUser world (store afterSave)
               = (Resolved aliceRow, store afterSave)).
  { by vm_compute. }
  split; [exact reachable_afterSave|]. split; [exact HU|].
  destruct (reads_resolve (H := dates) afterSave world aliceRow (store afterSave)
              reachable_afterSave HU) as (Hlist & Hget).
  split; [exact Hlist|].
  destruct (Hget (Arxiv.id lora)) as (view & Hrun & Hsaved).
  destruct Hsaved as (v & -> & Hs & _).
  - vm_compute. by eexists.
  - exists v. split; [exact Hrun|exact Hs].
Defined.

Lemma analyzePdfBuffer_fenced_witness :
  (96 ∉ [10] ++ analysis ++ [10]) /\
  Analyzer.analyzePdfBuffer fenced [] =
    Resolved (analysisOf (str "S") (str "I")
                [str "Agent"; str "Large Language Models"; str "Model Architecture"]).
Proof.
  assert (Hb : 96 ∉ [10] ++ analysis ++ [10]).
  { apply (bool_decide_unpack _). by vm_compute. }
  split; [exact Hb|].
  apply (analyzePdfBuffer_fenced fenced [] ([10] ++ analysis ++ [10])).
  - reflexivity.
  - exact Hb.
  - by vm_compute.
  - right. reflexivity.
Defined.

Lemma route_round_trip_witness :
  forallb Uri.isUnreserved (str "2106.09685v2") = true /\
  exists e,
    Uri.encodeURIComponent (str "http://arxiv.org/abs/2106.09685v2") = Some e /\
    arxivIdOf e = str "2106.09685v2".
Proof.
  split; [reflexivity|].
  exact (proj1 (proj2 (route_round_trip (str "2106.09685v2") eq_refl))).
Defined.

(** The clusters of the two sample papers, by the keywords of their
    ASCII titles. *)
Example groupPapers_samples :
  Clustering.groupPapers (H := asciiLower) [lora; adapters] =
    [{| Clustering.id := str "cluster-0"; Clustering.name := str "LLMs";
        Clustering.papers := [lora] |};
     {| Clustering.id := str "cluster-1"; Clustering.name := str "Other";
        Clustering.papers := [adapters] |}].
Proof. by vm_compute. Qed.

(** The key of a [.env] file with a quoted value after another line. *)
Example apiKey_samples :
  ListModels.apiKey None
    (Some (Resolved (str "DATABASE_URL=file:./dev.db" ++ [10]
                     ++ str "GEMINI_API_KEY=" ++ [34] ++ str "abc" ++ [34] ++ [10])))
    = Some (str "abc") /\
  ListModels.apiKey None (Some (Resolved (str "GEMINI_API_KEY=" ++ [34] ++ [10])))
    = None.
Proof. by vm_compute. Qed.

End MoreSamples.
